(** * Poverty Point signalling model: fitness model, agents and annual cycle

    A shallow embedding of the simulation engine of the Poverty Point
    agent-based model ([parameters.py], [agents.py], [core_simulation.py],
    [environment.py] and the shortfall hazard of [integrated_simulation.py]).

    Conventions.
    - A Python [float] is a real number ([R]); [np.log], [np.sqrt] and
      [np.exp] are [ln], [sqrt] and [exp].  Rounding error, infinities and
      NaN are outside the model.  The fitness model is embedded a second
      time over binary64 floats (module [binary64]), to measure what the
      rounding does to the threshold.
    - A Python or NumPy integer is a [Z].
    - An exception is a value of [result]: [Raise ValueError] for NumPy's
      argument checks, [Raise ZeroDivisionError] for a float division by
      zero.
    - The random generator is an interface ([Generator]); every stochastic
      function takes the generator and returns the advanced generator with
      its result. *)

From Stdlib Require Import PrimFloat.
From Stdlib Require Import Reals Lra Lia ZArith List Bool Sorted FinFun.
Import ListNotations.
Open Scope R_scope.
Set Warnings "-inexact-float".

(* ================================================================== *)
(** * Exceptions *)

Inductive exn : Type :=
| ValueError
| ZeroDivisionError.

Inductive result (A : Type) : Type :=
| Ok (a : A)
| Raise (e : exn).

Arguments Ok {A} a.
Arguments Raise {A} e.

Definition bind {A B : Type} (m : result A) (k : A -> result B) : result B :=
  match m with
  | Ok a => k a
  | Raise e => Raise e
  end.

Notation "x <- m ;; k" := (bind m (fun x => k))
  (at level 61, m at next level, right associativity).
Notation "' pat <- m ;; k" := (bind m (fun x => match x with pat => k end))
  (at level 61, pat pattern, m at next level, right associativity).

(** Python's [a / b] on floats. *)
Definition fdiv (a b : R) : result R :=
  if Req_dec_T b 0 then Raise ZeroDivisionError else Ok (a / b).

(** [np.clip(x, lo, hi)]. *)
Definition clip (x lo hi : R) : R := Rmin (Rmax x lo) hi.

(** [int(x)] on a float: truncation toward zero. *)
Definition int (x : R) : Z :=
  if Rle_dec 0 x then Zfloor x else (- Zfloor (- x))%Z.

(** The value an [np.int64] holds after an operation whose exact result
    is [z]: NumPy wraps around modulo [2^64]. *)
Definition int64 (z : Z) : Z := ((z + 2 ^ 63) mod 2 ^ 64 - 2 ^ 63)%Z.


(** [np.mean] of a list of floats. *)
Definition Rsum (l : list R) : R := fold_right Rplus 0 l.
Definition mean (l : list R) : R := Rsum l / INR (length l).

(** [l[-k:]]: the last [k] elements. *)
Definition last_n {A : Type} (k : nat) (l : list A) : list A :=
  skipn (length l - k) l.

(* ================================================================== *)
(** * parameters.py *)

Record CostParameters : Type := mkCostParameters {
  C_travel : R;
  C_signal : R;
  C_opportunity : R
}.

Definition C_total (c : CostParameters) : R :=
  C_travel c + C_signal c + C_opportunity c.

Record VulnerabilityParameters : Type := mkVulnerabilityParameters {
  alpha_agg : R;
  beta_ind : R
}.

Record CooperationParameters : Type := mkCooperationParameters {
  b_coop : R;
  n_optimal : Z;
  c_crowd : R;
  B_recip : R;
  R_ind : R
}.

(** Of [EnvironmentParameters] the engine reads the region size and the
    patch counts. *)
Record EnvironmentParameters : Type := mkEnvironmentParameters {
  region_size : R;
  access_radius : R;
  n_aquatic_patches : Z;
  n_terrestrial_patches : Z;
  n_mast_patches : Z;
  n_wetland_patches : Z
}.

Record PopulationParameters : Type := mkPopulationParameters {
  n_bands : Z;
  initial_band_size : Z;
  birth_rate : R;
  death_rate : R;
  min_band_size : Z;
  max_band_size : Z
}.

Record SimulationParameters : Type := mkSimulationParameters {
  costs : CostParameters;
  vulnerability : VulnerabilityParameters;
  cooperation : CooperationParameters;
  environment : EnvironmentParameters;
  population : PopulationParameters;
  duration : Z;
  burn_in : Z;
  seed : Z;
  sigma : R;
  epsilon : R
}.

Definition default_parameters (sigma0 epsilon0 : R) (seed0 : Z)
  : SimulationParameters :=
  mkSimulationParameters
    (mkCostParameters 0.12 0.18 0.12)
    (mkVulnerabilityParameters 0.40 0.75)
    (mkCooperationParameters 0.08 25 0.015 0.05 1.10)
    (mkEnvironmentParameters 500 50 10 12 8 5)
    (mkPopulationParameters 50 25 0.03 0.02 5 50)
    600 100 seed0 sigma0 epsilon0.

Definition cooperation_benefit (n : R) (params : CooperationParameters) : R :=
  if Rle_dec n 1 then 1
  else
    let benefit := 1 + b_coop params * ln n in
    let benefit :=
      if Rgt_dec n (IZR (n_optimal params))
      then benefit - c_crowd params * (n - IZR (n_optimal params)) ^ 2
      else benefit in
    Rmax 1 benefit.

Definition W_aggregator (sigma epsilon n : R) (params : SimulationParameters)
  : R :=
  let C_total := C_total (costs params) in
  let sigma_eff := sigma * (1 - epsilon) in
  let survival := 1 - alpha_agg (vulnerability params) * sigma_eff in
  let f_n := cooperation_benefit n (cooperation params) in
  let recip := 1 + B_recip (cooperation params) in
  let W := (1 - C_total) * survival * f_n * recip in
  Rmax 0 W.

Definition W_independent (sigma : R) (params : SimulationParameters) : R :=
  let R_ind := R_ind (cooperation params) in
  let survival := 1 - beta_ind (vulnerability params) * sigma in
  Rmax 0 (R_ind * survival).

Definition critical_threshold (epsilon n : R) (params : SimulationParameters)
  : result R :=
  let C_total := C_total (costs params) in
  let f_n := cooperation_benefit n (cooperation params) in
  let recip := 1 + B_recip (cooperation params) in
  let R_ind := R_ind (cooperation params) in
  let A := (1 - C_total) * f_n * recip in
  let alpha_eff := alpha_agg (vulnerability params) * (1 - epsilon) in
  let denom := R_ind * beta_ind (vulnerability params) - A * alpha_eff in
  if Rle_dec denom 0 then Ok 0
  else
    let numerator := R_ind - A in
    if Rle_dec numerator 0 then Ok 0
    else
      sigma_star <- fdiv numerator denom ;;
      Ok (Rmax 0 (Rmin 1 sigma_star)).





(* ================================================================== *)
(** * parameters.py over binary64 floats

    The fitness model once more, with a Python [float] as the kernel's
    binary64 float and every operation rounded as IEEE 754 rounds it.  A
    decimal literal denotes the nearest float, as in Python.  [np.log] and
    the square [x ** 2] are library calls and are parameters. *)

Module binary64.

(** [max(a, b)] and [min(a, b)] on two floats: Python returns the first
    argument unless the second is strictly greater (smaller). *)
Definition py_max (a b : float) : float := if (a <? b)%float then b else a.

Definition py_min (a b : float) : float := if (b <? a)%float then b else a.

(** [a / b]. *)
Definition fdiv (a b : float) : result float :=
  if (b =? 0)%float then Raise ZeroDivisionError else Ok (a / b)%float.

Record CostParameters : Type := mkCostParameters {
  C_travel : float;
  C_signal : float;
  C_opportunity : float
}.

Definition C_total (c : CostParameters) : float :=
  (C_travel c + C_signal c + C_opportunity c)%float.

Record VulnerabilityParameters : Type := mkVulnerabilityParameters {
  alpha_agg : float;
  beta_ind : float
}.

(** [n_optimal] is an [int] in the source; the comparison and the
    subtraction that read it convert it to a float, which is what the field
    holds here. *)
Record CooperationParameters : Type := mkCooperationParameters {
  b_coop : float;
  n_optimal : float;
  c_crowd : float;
  B_recip : float;
  R_ind : float
}.

(** The blocks of [SimulationParameters] that the fitness model reads. *)
Record SimulationParameters : Type := mkSimulationParameters {
  costs : CostParameters;
  vulnerability : VulnerabilityParameters;
  cooperation : CooperationParameters
}.

Definition default_parameters : SimulationParameters :=
  mkSimulationParameters
    (mkCostParameters 0.12 0.18 0.12)
    (mkVulnerabilityParameters 0.40 0.75)
    (mkCooperationParameters 0.08 25 0.015 0.05 1.10).

Definition cooperation_benefit (np_log square : float -> float) (n : float)
  (params : CooperationParameters) : float :=
  if (n <=? 1)%float then 1%float
  else
    let benefit := (1 + b_coop params * np_log n)%float in
    let benefit :=
      if (n_optimal params <? n)%float
      then (benefit - c_crowd params * square (n - n_optimal params))%float
      else benefit in
    py_max 1 benefit.

Definition W_aggregator (np_log square : float -> float)
  (sigma epsilon n : float) (params : SimulationParameters) : float :=
  let C_total := C_total (costs params) in
  let sigma_eff := (sigma * (1 - epsilon))%float in
  let survival := (1 - alpha_agg (vulnerability params) * sigma_eff)%float in
  let f_n := cooperation_benefit np_log square n (cooperation params) in
  let recip := (1 + B_recip (cooperation params))%float in
  let W := ((1 - C_total) * survival * f_n * recip)%float in
  py_max 0 W.

Definition W_independent (sigma : float) (params : SimulationParameters)
  : float :=
  let R_ind := R_ind (cooperation params) in
  let survival := (1 - beta_ind (vulnerability params) * sigma)%float in
  py_max 0 (R_ind * survival)%float.

Definition critical_threshold (np_log square : float -> float)
  (epsilon n : float) (params : SimulationParameters) : result float :=
  let C_total := C_total (costs params) in
  let f_n := cooperation_benefit np_log square n (cooperation params) in
  let recip := (1 + B_recip (cooperation params))%float in
  let R_ind := R_ind (cooperation params) in
  let A := ((1 - C_total) * f_n * recip)%float in
  let alpha_eff := (alpha_agg (vulnerability params) * (1 - epsilon))%float in
  let denom :=
    (R_ind * beta_ind (vulnerability params) - A * alpha_eff)%float in
  if (denom <=? 0)%float then Ok 0%float
  else
    let numerator := (R_ind - A)%float in
    if (numerator <=? 0)%float then Ok 0%float
    else
      sigma_star <- fdiv numerator denom ;;
      Ok (py_max 0 (py_min 1 sigma_star)).

(** A stand-in for the two library calls where they are not reached (an
    aggregation of one band takes the first branch of
    [cooperation_benefit]). *)
Definition not_called (x : float) : float := x.

End binary64.

(* ================================================================== *)
(** * The random generator

    [np.random.Generator] as an interface.  [binomial_draw] and
    [choice_index] are the draws behind [rng.binomial] and [rng.choice],
    whose argument checks are written out below. *)

Class Generator (G : Type) : Type := {
  default_rng : Z -> G;
  random : G -> R * G;
  normal : R -> R -> G -> R * G;
  uniform : R -> R -> G -> R * G;
  integers : Z -> Z -> G -> Z * G;
  binomial_draw : Z -> R -> G -> Z * G;
  choice_index : nat -> G -> nat * G
}.

(** The ranges NumPy documents for the draws. *)
Class GeneratorLaws (G : Type) `{Generator G} : Prop := {
  random_range : forall g, 0 <= fst (random g) < 1;
  integers_range : forall lo hi g,
    (lo < hi)%Z -> (lo <= fst (integers lo hi g) < hi)%Z;
  binomial_range : forall n p g,
    (0 <= n)%Z -> 0 <= p <= 1 -> (0 <= fst (binomial_draw n p g) <= n)%Z;
  choice_range : forall n g,
    (0 < n)%nat -> (fst (choice_index n g) < n)%nat
}.

(** [rng.binomial(n, p)]: NumPy raises [ValueError] when [n < 0] or [p] is
    outside [[0, 1]]. *)
Definition binomial {G} `{Generator G} (n : Z) (p : R) (g : G)
  : result (Z * G) :=
  if (n <? 0)%Z then Raise ValueError
  else if Rlt_dec p 0 then Raise ValueError
  else if Rgt_dec p 1 then Raise ValueError
  else Ok (binomial_draw n p g).

(** [rng.choice(l)] on a list of band ids.  Both call sites guard the
    call with a test that [l] is not empty, so NumPy's [ValueError] on an
    empty list cannot arise. *)
Definition choice {G} `{Generator G} (l : list Z) (g : G) : Z * G :=
  let '(i, g1) := choice_index (length l) g in
  (nth i l 0%Z, g1).

(** [rng.normal(loc, scale)] with a scale that is not a literal: NumPy
    raises [ValueError] when [scale < 0]. *)
Definition normal_checked {G} `{Generator G} (loc scale : R) (g : G)
  : result (R * G) :=
  if Rlt_dec scale 0 then Raise ValueError else Ok (normal loc scale g).

(** A generator that replays a script of outcomes, each coerced into the
    range of the draw that consumes it; an exhausted script keeps answering
    with the least value of the range. *)
Inductive outcome : Type :=
| Float (x : R)
| Int (k : Z).

Definition unit_interval (x : R) : R :=
  if Rle_dec 0 x then (if Rlt_dec x 1 then x else 0) else 0.

Definition script_random (g : list outcome) : R * list outcome :=
  match g with
  | Float x :: g1 => (unit_interval x, g1)
  | _ :: g1 => (0, g1)
  | [] => (0, [])
  end.

Definition script_normal (loc scale : R) (g : list outcome)
  : R * list outcome :=
  match g with
  | Float z :: g1 => (loc + scale * z, g1)
  | _ :: g1 => (loc, g1)
  | [] => (loc, [])
  end.

Definition script_uniform (low high : R) (g : list outcome)
  : R * list outcome :=
  let '(u, g1) := script_random g in (low + (high - low) * u, g1).

Definition script_integers (low high : Z) (g : list outcome)
  : Z * list outcome :=
  match g with
  | Int k :: g1 =>
      (if (low <=? k)%Z && (k <? high)%Z then k else low, g1)
  | _ :: g1 => (low, g1)
  | [] => (low, [])
  end.

Definition script_binomial_draw (n : Z) (p : R) (g : list outcome)
  : Z * list outcome :=
  match g with
  | Int k :: g1 => (if (0 <=? k)%Z && (k <=? n)%Z then k else 0%Z, g1)
  | _ :: g1 => (0%Z, g1)
  | [] => (0%Z, [])
  end.

Definition script_choice_index (n : nat) (g : list outcome)
  : nat * list outcome :=
  match g with
  | Int k :: g1 =>
      (if (0 <=? k)%Z && (k <? Z.of_nat n)%Z then Z.to_nat k else 0%nat, g1)
  | _ :: g1 => (0%nat, g1)
  | [] => (0%nat, [])
  end.

Definition script_generator (seeding : Z -> list outcome)
  : Generator (list outcome) := {|
  default_rng := seeding;
  random := script_random;
  normal := script_normal;
  uniform := script_uniform;
  integers := script_integers;
  binomial_draw := script_binomial_draw;
  choice_index := script_choice_index
|}.

(* ================================================================== *)
(** * agents.py *)

Inductive Strategy : Type :=
| AGGREGATOR
| INDEPENDENT.

Definition Strategy_eqb (a b : Strategy) : bool :=
  match a, b with
  | AGGREGATOR, AGGREGATOR => true
  | INDEPENDENT, INDEPENDENT => true
  | _, _ => false
  end.

(** ** Insertion-ordered dictionaries from band ids to floats *)

Definition dict : Type := list (Z * R).

Fixpoint dict_get (d : dict) (k : Z) : option R :=
  match d with
  | [] => None
  | (k1, v) :: d1 => if (k1 =? k)%Z then Some v else dict_get d1 k
  end.

Definition dict_mem (d : dict) (k : Z) : bool :=
  match dict_get d k with Some _ => true | None => false end.

(** [d[k] = v]: an existing key keeps its position, a new key goes last. *)
Fixpoint dict_set (d : dict) (k : Z) (v : R) : dict :=
  match d with
  | [] => [(k, v)]
  | (k1, v1) :: d1 =>
      if (k1 =? k)%Z then (k, v) :: d1 else (k1, v1) :: dict_set d1 k v
  end.

(** [del d[k]]. *)
Definition dict_del (d : dict) (k : Z) : dict :=
  filter (fun kv => negb (fst kv =? k)%Z) d.

Definition dict_keys (d : dict) : list Z := map fst d.

(** The range in which the engine keeps a stored obligation strength:
    [form_obligation] caps at 1, [call_obligation] removes below [0.05]. *)
Definition strengths_bounded (d : dict) : Prop :=
  Forall (fun kv => 0.05 <= snd kv <= 1) d.

(** ** Band *)

Record Band : Type := mkBand {
  band_id : Z;
  size : Z;
  home_location : R * R;
  strategy : Strategy;
  resources : R;
  prestige : R;
  monument_contributions : R;
  exotic_goods : Z;
  obligations : dict;
  aggregation_history : list bool;
  fitness_history : list R;
  strategy_history : list Strategy
}.

Definition set_size (b : Band) (v : Z) : Band :=
  mkBand (band_id b) v (home_location b) (strategy b) (resources b)
    (prestige b) (monument_contributions b) (exotic_goods b) (obligations b)
    (aggregation_history b) (fitness_history b) (strategy_history b).

Definition set_strategy (b : Band) (v : Strategy) : Band :=
  mkBand (band_id b) (size b) (home_location b) v (resources b)
    (prestige b) (monument_contributions b) (exotic_goods b) (obligations b)
    (aggregation_history b) (fitness_history b) (strategy_history b).

Definition set_resources (b : Band) (v : R) : Band :=
  mkBand (band_id b) (size b) (home_location b) (strategy b) v
    (prestige b) (monument_contributions b) (exotic_goods b) (obligations b)
    (aggregation_history b) (fitness_history b) (strategy_history b).

Definition set_prestige (b : Band) (v : R) : Band :=
  mkBand (band_id b) (size b) (home_location b) (strategy b) (resources b)
    v (monument_contributions b) (exotic_goods b) (obligations b)
    (aggregation_history b) (fitness_history b) (strategy_history b).

Definition set_monument_contributions (b : Band) (v : R) : Band :=
  mkBand (band_id b) (size b) (home_location b) (strategy b) (resources b)
    (prestige b) v (exotic_goods b) (obligations b)
    (aggregation_history b) (fitness_history b) (strategy_history b).

Definition set_exotic_goods (b : Band) (v : Z) : Band :=
  mkBand (band_id b) (size b) (home_location b) (strategy b) (resources b)
    (prestige b) (monument_contributions b) v (obligations b)
    (aggregation_history b) (fitness_history b) (strategy_history b).

Definition set_obligations (b : Band) (v : dict) : Band :=
  mkBand (band_id b) (size b) (home_location b) (strategy b) (resources b)
    (prestige b) (monument_contributions b) (exotic_goods b) v
    (aggregation_history b) (fitness_history b) (strategy_history b).

Definition set_aggregation_history (b : Band) (v : list bool) : Band :=
  mkBand (band_id b) (size b) (home_location b) (strategy b) (resources b)
    (prestige b) (monument_contributions b) (exotic_goods b) (obligations b)
    v (fitness_history b) (strategy_history b).

Definition set_fitness_history (b : Band) (v : list R) : Band :=
  mkBand (band_id b) (size b) (home_location b) (strategy b) (resources b)
    (prestige b) (monument_contributions b) (exotic_goods b) (obligations b)
    (aggregation_history b) v (strategy_history b).

Definition set_strategy_history (b : Band) (v : list Strategy) : Band :=
  mkBand (band_id b) (size b) (home_location b) (strategy b) (resources b)
    (prestige b) (monument_contributions b) (exotic_goods b) (obligations b)
    (aggregation_history b) (fitness_history b) v.

(** [self.aggregation_history[-1]]; the callers read it only on a non-empty
    history. *)
Definition was_aggregator (self : Band) : bool :=
  last (aggregation_history self) false.

Definition decide_strategy {G} `{Generator G} (self : Band)
  (expected_n sigma epsilon : R) (params : SimulationParameters) (rng : G)
  : Strategy * G :=
  let E_W_agg := W_aggregator sigma epsilon expected_n params in
  let E_W_ind := W_independent sigma params in
  let fitness_diff := E_W_agg - E_W_ind in
  let fitness_diff :=
    if (5 <=? length (fitness_history self))%nat then
      let recent_fitness := mean (last_n 5 (fitness_history self)) in
      let long_term_fitness := mean (fitness_history self) in
      if was_aggregator self then
        if Rgt_dec recent_fitness long_term_fitness
        then fitness_diff + 0.05 else fitness_diff - 0.05
      else
        if Rgt_dec recent_fitness long_term_fitness
        then fitness_diff - 0.05 else fitness_diff + 0.05
    else fitness_diff in
  let temperature := 10 in
  let p_aggregate := 1 / (1 + exp (- temperature * fitness_diff)) in
  let '(u, rng1) := random rng in
  if Rlt_dec u p_aggregate then (AGGREGATOR, rng1) else (INDEPENDENT, rng1).

Definition calculate_travel_cost (self : Band) (destination : R * R)
  (cost_per_km : R) : R :=
  let dx := fst destination - fst (home_location self) in
  let dy := snd destination - snd (home_location self) in
  let distance := sqrt (dx ^ 2 + dy ^ 2) in
  distance * cost_per_km.

Definition invest_in_monument {G} `{Generator G} (self : Band)
  (investment_rate : R) (rng : G) : R * Band * G :=
  if Rlt_dec (resources self) 0.3 then (0, self, rng)
  else
    let base_investment := IZR (size self) * investment_rate * resources self in
    let '(u, rng1) := random rng in
    let investment := base_investment * (0.8 + 0.4 * u) in
    let self1 :=
      set_monument_contributions self (monument_contributions self + investment) in
    let self2 := set_prestige self1 (prestige self1 + investment * 0.1) in
    (investment, self2, rng1).

(** [prestige / (1 + prestige)] is taken as the real quotient: at a
    prestige of exactly [-1] the code raises [ZeroDivisionError] there,
    which is outside the model. *)
Definition acquire_exotic {G} `{Generator G} (self : Band)
  (acquisition_cost : R) (rng : G) : bool * Band * G :=
  if Rlt_dec (resources self) (acquisition_cost + 0.2) then (false, self, rng)
  else
    let p_acquire := 0.3 * (1 + prestige self / (1 + prestige self)) in
    let '(u, rng1) := random rng in
    if Rlt_dec u p_acquire then
      let self1 := set_exotic_goods self (exotic_goods self + 1) in
      let self2 := set_resources self1 (resources self1 - acquisition_cost) in
      let self3 := set_prestige self2 (prestige self2 + 0.15) in
      (true, self3, rng1)
    else (false, self, rng1).

Definition form_obligation (self : Band) (partner_id : Z) (strength : R)
  : Band :=
  let v :=
    match dict_get (obligations self) partner_id with
    | Some s => s + strength
    | None => strength
    end in
  set_obligations self (dict_set (obligations self) partner_id (Rmin 1 v)).

Definition call_obligation (self : Band) (partner_id : Z) (need : R)
  : R * Band :=
  match dict_get (obligations self) partner_id with
  | None => (0, self)
  | Some s =>
      let help_received := Rmin need (s * 0.5) in
      let obligations1 := dict_set (obligations self) partner_id (s * 0.7) in
      let obligations2 :=
        if Rlt_dec (s * 0.7) 0.05 then dict_del obligations1 partner_id
        else obligations1 in
      (help_received, set_obligations self obligations2)
  end.

Definition reproduce {G} `{Generator G} (self : Band)
  (fitness birth_rate death_rate : R) (rng : G) : result (Band * G) :=
  let effective_birth_rate := birth_rate * fitness * (0.5 + resources self) in
  '(births, rng1) <- binomial (size self) effective_birth_rate rng ;;
  '(deaths, rng2) <- binomial (size self) death_rate rng1 ;;
  Ok (set_size self (Z.max 1 (size self + births - deaths)), rng2).

Definition suffer_shortfall {G} `{Generator G} (self : Band)
  (vulnerability sigma : R) (rng : G) : result (Z * Band * G) :=
  let mortality_rate := vulnerability * sigma in
  '(deaths, rng1) <- binomial (size self) mortality_rate rng ;;
  Ok (deaths, set_size self (Z.max 1 (size self - deaths)), rng1).

(** ** AggregationSite

    The fields [name] and [exotic_sources] are never read or written by the
    engine and are left out. *)

Record AggregationSite : Type := mkAggregationSite {
  site_id : Z;
  location : R * R;
  ecotone_advantage : R;
  monument_level : R;
  monument_history : list R;
  attending_bands : list Z;
  current_population : Z;
  total_exotics : Z
}.

Definition n_attending (self : AggregationSite) : Z :=
  Z.of_nat (length (attending_bands self)).

Definition calculate_cooperation_benefits (self : AggregationSite)
  (params : SimulationParameters) : R :=
  cooperation_benefit (IZR (n_attending self)) (cooperation params).

Definition add_attending_band (self : AggregationSite) (band : Band)
  : AggregationSite :=
  if existsb (Z.eqb (band_id band)) (attending_bands self) then self
  else
    mkAggregationSite (site_id self) (location self) (ecotone_advantage self)
      (monument_level self) (monument_history self)
      (attending_bands self ++ [band_id band])
      (current_population self + size band)
      (total_exotics self + exotic_goods band).

Definition record_construction (self : AggregationSite) (investment : R)
  : AggregationSite :=
  let level := monument_level self + investment in
  mkAggregationSite (site_id self) (location self) (ecotone_advantage self)
    level (monument_history self ++ [level])
    (attending_bands self) (current_population self) (total_exotics self).

Definition reset_annual_state (self : AggregationSite) : AggregationSite :=
  mkAggregationSite (site_id self) (location self) (ecotone_advantage self)
    (monument_level self) (monument_history self) [] 0 (total_exotics self).

(** The loop of [create_bands] from the index [i] on.  The size is the sum
    of the Python [int] [initial_size] and the [np.int64] that
    [rng.integers] returns: an [np.int64], which wraps around.  (An
    [initial_size] that is itself outside the range of an [np.int64] is
    outside the model.) *)
Fixpoint create_bands_from {G} `{Generator G} (i : Z) (count : nat)
  (initial_size : Z) (region_size : R) (rng : G) : list Band * G :=
  match count with
  | O => ([], rng)
  | S count1 =>
      let '(x, rng1) := uniform 0 region_size rng in
      let '(y, rng2) := uniform 0 region_size rng1 in
      let '(u, rng3) := random rng2 in
      let strategy := if Rlt_dec u 0.4 then AGGREGATOR else INDEPENDENT in
      let '(d, rng4) := integers (-5) 6 rng3 in
      let '(r, rng5) := random rng4 in
      let band :=
        mkBand i (int64 (initial_size + d)) (x, y) strategy (0.4 + 0.2 * r)
          0 0 0 [] [] [] [] in
      let '(bands, rng6) :=
        create_bands_from (i + 1) count1 initial_size region_size rng5 in
      (band :: bands, rng6)
  end.

Definition create_bands {G} `{Generator G} (n_bands initial_size : Z)
  (region_size : R) (rng : G) : list Band * G :=
  create_bands_from 0 (Z.to_nat n_bands) initial_size region_size rng.

Definition create_aggregation_site (location : R * R) (epsilon : R)
  : AggregationSite :=
  mkAggregationSite 0 location epsilon 0 [] [] 0 0.

(* ================================================================== *)
(** * core_simulation.py *)

Module YearlyState.
Record t : Type := mk {
  year : Z;
  total_population : Z;
  n_bands : Z;
  mean_band_size : R;
  n_aggregators : Z;
  n_independents : Z;
  strategy_dominance : R;
  aggregation_size : Z;
  aggregation_population : Z;
  monument_level : R;
  annual_construction : R;
  total_exotics : Z;
  sigma_effective : R;
  in_shortfall : bool;
  shortfall_magnitude : R;
  mean_fitness_aggregators : R;
  mean_fitness_independents : R
}.
End YearlyState.

Module SimulationResults.
Record t : Type := mk {
  sigma : R;
  epsilon : R;
  seed : Z;
  yearly_states : list YearlyState.t;
  final_strategy_dominance : R;
  mean_aggregation_size : R;
  final_monument_level : R;
  total_exotics : Z;
  mean_population : R;
  sigma_star_theoretical : R
}.
End SimulationResults.

Definition append_yearly_state (r : SimulationResults.t) (s : YearlyState.t)
  : SimulationResults.t :=
  SimulationResults.mk (SimulationResults.sigma r) (SimulationResults.epsilon r)
    (SimulationResults.seed r) (SimulationResults.yearly_states r ++ [s])
    (SimulationResults.final_strategy_dominance r)
    (SimulationResults.mean_aggregation_size r)
    (SimulationResults.final_monument_level r)
    (SimulationResults.total_exotics r)
    (SimulationResults.mean_population r)
    (SimulationResults.sigma_star_theoretical r).

Definition set_sigma_star_theoretical (r : SimulationResults.t) (v : R)
  : SimulationResults.t :=
  SimulationResults.mk (SimulationResults.sigma r) (SimulationResults.epsilon r)
    (SimulationResults.seed r) (SimulationResults.yearly_states r)
    (SimulationResults.final_strategy_dominance r)
    (SimulationResults.mean_aggregation_size r)
    (SimulationResults.final_monument_level r)
    (SimulationResults.total_exotics r)
    (SimulationResults.mean_population r) v.

Definition compute_summary (self : SimulationResults.t) (burn_in : Z)
  : SimulationResults.t :=
  let analysis_states :=
    filter (fun s => (burn_in <=? YearlyState.year s)%Z)
      (SimulationResults.yearly_states self) in
  match analysis_states with
  | [] => self
  | first :: _ =>
      let final := last analysis_states first in
      SimulationResults.mk (SimulationResults.sigma self)
        (SimulationResults.epsilon self) (SimulationResults.seed self)
        (SimulationResults.yearly_states self)
        (mean (map YearlyState.strategy_dominance analysis_states))
        (mean (map (fun s => IZR (YearlyState.aggregation_size s))
                 analysis_states))
        (YearlyState.monument_level final)
        (YearlyState.total_exotics final)
        (mean (map (fun s => IZR (YearlyState.total_population s))
                 analysis_states))
        (SimulationResults.sigma_star_theoretical self)
  end.

Record PovertyPointSimulation (G : Type) : Type := mkPovertyPointSimulation {
  params : SimulationParameters;
  rng : G;
  bands : list Band;
  aggregation_site : AggregationSite;
  year : Z;
  in_shortfall : bool;
  shortfall_remaining : Z;
  shortfall_magnitude : R;
  results : SimulationResults.t
}.

Arguments mkPovertyPointSimulation {G}.
Arguments params {G}.
Arguments rng {G}.
Arguments bands {G}.
Arguments aggregation_site {G}.
Arguments year {G}.
Arguments in_shortfall {G}.
Arguments shortfall_remaining {G}.
Arguments shortfall_magnitude {G}.
Arguments results {G}.

Definition set_rng {G} (s : PovertyPointSimulation G) (v : G) :=
  mkPovertyPointSimulation (params s) v (bands s) (aggregation_site s)
    (year s) (in_shortfall s) (shortfall_remaining s) (shortfall_magnitude s)
    (results s).

Definition set_bands {G} (s : PovertyPointSimulation G) (v : list Band) :=
  mkPovertyPointSimulation (params s) (rng s) v (aggregation_site s)
    (year s) (in_shortfall s) (shortfall_remaining s) (shortfall_magnitude s)
    (results s).

Definition set_aggregation_site {G} (s : PovertyPointSimulation G)
  (v : AggregationSite) :=
  mkPovertyPointSimulation (params s) (rng s) (bands s) v
    (year s) (in_shortfall s) (shortfall_remaining s) (shortfall_magnitude s)
    (results s).

Definition set_year {G} (s : PovertyPointSimulation G) (v : Z) :=
  mkPovertyPointSimulation (params s) (rng s) (bands s) (aggregation_site s)
    v (in_shortfall s) (shortfall_remaining s) (shortfall_magnitude s)
    (results s).

Definition set_in_shortfall {G} (s : PovertyPointSimulation G) (v : bool) :=
  mkPovertyPointSimulation (params s) (rng s) (bands s) (aggregation_site s)
    (year s) v (shortfall_remaining s) (shortfall_magnitude s) (results s).

Definition set_shortfall_remaining {G} (s : PovertyPointSimulation G) (v : Z) :=
  mkPovertyPointSimulation (params s) (rng s) (bands s) (aggregation_site s)
    (year s) (in_shortfall s) v (shortfall_magnitude s) (results s).

Definition set_shortfall_magnitude {G} (s : PovertyPointSimulation G) (v : R) :=
  mkPovertyPointSimulation (params s) (rng s) (bands s) (aggregation_site s)
    (year s) (in_shortfall s) (shortfall_remaining s) v (results s).

Definition set_results {G} (s : PovertyPointSimulation G)
  (v : SimulationResults.t) :=
  mkPovertyPointSimulation (params s) (rng s) (bands s) (aggregation_site s)
    (year s) (in_shortfall s) (shortfall_remaining s) (shortfall_magnitude s)
    v.

(** [for band in self.bands: ...]: the body updates the band and the state
    it shares with the other iterations. *)
Fixpoint for_each_band {S : Type} (body : Band -> S -> Band * S)
  (bands : list Band) (st : S) : list Band * S :=
  match bands with
  | [] => ([], st)
  | band :: rest =>
      let '(band1, st1) := body band st in
      let '(rest1, st2) := for_each_band body rest st1 in
      (band1 :: rest1, st2)
  end.

(** The same loop with a body that can raise. *)
Fixpoint try_each_band {S : Type} (body : Band -> S -> result (Band * S))
  (bands : list Band) (st : S) : result (list Band * S) :=
  match bands with
  | [] => Ok ([], st)
  | band :: rest =>
      '(band1, st1) <- body band st ;;
      '(rest1, st2) <- try_each_band body rest st1 ;;
      Ok (band1 :: rest1, st2)
  end.

Definition __init__ {G} `{Generator G} (params : SimulationParameters)
  : PovertyPointSimulation G :=
  let rng := default_rng (seed params) in
  let '(bands, rng1) :=
    create_bands (n_bands (population params))
      (initial_band_size (population params))
      (region_size (environment params)) rng in
  let center := region_size (environment params) / 2 in
  let aggregation_site :=
    create_aggregation_site (center, center) (epsilon params) in
  mkPovertyPointSimulation params rng1 bands aggregation_site 0 false 0 0
    (SimulationResults.mk (sigma params) (epsilon params) (seed params)
       [] 0 0 0 0 0 0).

Definition _generate_shortfall {G} `{Generator G}
  (self : PovertyPointSimulation G) : result (bool * R * Z * G) :=
  let sigma := sigma (params self) in
  let mean_interval := 20 * (1 - sigma) + 5 in
  p_shortfall <- fdiv 1 mean_interval ;;
  let '(u, rng1) := random (rng self) in
  if Rlt_dec u p_shortfall then
    let '(noise, rng2) := normal 0 0.1 rng1 in
    let magnitude := 0.3 + 0.5 * sigma + noise in
    let magnitude := clip magnitude 0.2 0.9 in
    let duration := Z.max 1 (int (1 + magnitude * 2.5)) in
    Ok (true, magnitude, duration, rng2)
  else Ok (false, 0, 0%Z, rng1).

(** The body of the loop of [_run_dispersal_season]. *)
Definition dispersal_body {G} `{Generator G} (self : PovertyPointSimulation G)
  (band : Band) (rng : G) : Band * G :=
  let '(u, rng1) := random rng in
  let base_harvest := 0.4 + 0.2 * u in
  let base_harvest :=
    if in_shortfall self then base_harvest * (1 - shortfall_magnitude self)
    else base_harvest in
  let harvest :=
    match strategy band with
    | AGGREGATOR => base_harvest * (1 - C_opportunity (costs (params self)))
    | INDEPENDENT => base_harvest
    end in
  let consumption := IZR (size band) * 0.02 in
  let resources1 := resources band + (harvest - consumption) in
  (set_resources band (clip resources1 0 1), rng1).

Definition _run_dispersal_season {G} `{Generator G}
  (self : PovertyPointSimulation G) : PovertyPointSimulation G :=
  let '(bands1, rng1) :=
    for_each_band (dispersal_body self) (bands self) (rng self) in
  set_rng (set_bands self bands1) rng1.

(** The body of the loop of [_run_strategy_decisions]. *)
Definition decision_body {G} `{Generator G} (self : PovertyPointSimulation G)
  (expected_n : Z) (band : Band) (rng : G) : Band * G :=
  let '(choice, rng1) :=
    decide_strategy band (IZR expected_n) (sigma (params self))
      (epsilon (params self)) (params self) rng in
  let band1 := set_strategy band choice in
  (set_strategy_history band1 (strategy_history band1 ++ [choice]), rng1).

Definition _run_strategy_decisions {G} `{Generator G}
  (self : PovertyPointSimulation G) : PovertyPointSimulation G :=
  let last_n := n_attending (aggregation_site self) in
  let expected_n := Z.max 5 last_n in
  let '(bands1, rng1) :=
    for_each_band (decision_body self expected_n) (bands self) (rng self) in
  set_rng (set_bands self bands1) rng1.

(** The body of the loop of [_run_aggregation_season].  The state the
    iterations share is the site, the running [total_construction] and the
    generator. *)
Definition aggregation_body {G} `{Generator G}
  (self : PovertyPointSimulation G) (band : Band)
  (st : AggregationSite * R * G) : Band * (AggregationSite * R * G) :=
  let '(site, total_construction, rng) := st in
  match strategy band with
  | AGGREGATOR =>
      let travel_cost := calculate_travel_cost band (location site) 0.0005 in
      let band1 :=
        set_resources band
          (resources band - Rmin travel_cost (resources band * 0.5)) in
      let site1 := add_attending_band site band1 in
      let band2 :=
        set_aggregation_history band1 (aggregation_history band1 ++ [true]) in
      let '(investment, band3, rng1) :=
        invest_in_monument band2 (C_signal (costs (params self))) rng in
      let total_construction1 := total_construction + investment in
      let '(_, band4, rng2) := acquire_exotic band3 0.1 rng1 in
      if (1 <? length (attending_bands site1))%nat then
        let potential_partners :=
          filter (fun b_id => negb (b_id =? band_id band4)%Z)
            (attending_bands site1) in
        match potential_partners with
        | [] => (band4, (site1, total_construction1, rng2))
        | _ :: _ =>
            let '(u, rng3) := random rng2 in
            if Rlt_dec u 0.3 then
              let '(partner_id, rng4) := choice potential_partners rng3 in
              (form_obligation band4 partner_id 0.1,
               (site1, total_construction1, rng4))
            else (band4, (site1, total_construction1, rng3))
        end
      else (band4, (site1, total_construction1, rng2))
  | INDEPENDENT =>
      let extra_harvest :=
        0.1 * (if in_shortfall self then 1 - shortfall_magnitude self else 1) in
      let band1 := set_resources band (resources band + extra_harvest) in
      let band2 := set_resources band1 (Rmin 1 (resources band1)) in
      (set_aggregation_history band2 (aggregation_history band2 ++ [false]),
       (site, total_construction, rng))
  end.

Definition _run_aggregation_season {G} `{Generator G}
  (self : PovertyPointSimulation G) : PovertyPointSimulation G :=
  let site := reset_annual_state (aggregation_site self) in
  let '(bands1, (site1, total_construction, rng1)) :=
    for_each_band (aggregation_body self) (bands self) (site, 0, rng self) in
  set_rng
    (set_bands
       (set_aggregation_site self (record_construction site1 total_construction))
       bands1)
    rng1.

(** The body of the loop of [_apply_shortfall_mortality]. *)
Definition mortality_body {G} `{Generator G} (self : PovertyPointSimulation G)
  (band : Band) (rng : G) : result (Band * G) :=
  let '(sigma_eff, vulnerability) :=
    match strategy band with
    | AGGREGATOR =>
        (sigma (params self) * (1 - epsilon (params self)),
         alpha_agg (vulnerability (params self)))
    | INDEPENDENT =>
        (sigma (params self), beta_ind (vulnerability (params self)))
    end in
  '(_, band1, rng1) <- suffer_shortfall band vulnerability sigma_eff rng ;;
  match strategy band1, obligations band1 with
  | AGGREGATOR, _ :: _ =>
      let '(partner_id, rng2) := choice (dict_keys (obligations band1)) rng1 in
      let '(help_received, band2) := call_obligation band1 partner_id 0.2 in
      Ok (set_resources band2 (resources band2 + help_received), rng2)
  | _, _ => Ok (band1, rng1)
  end.

Definition _apply_shortfall_mortality {G} `{Generator G}
  (self : PovertyPointSimulation G) : result (PovertyPointSimulation G) :=
  if negb (in_shortfall self) then Ok self
  else
    '(bands1, rng1) <-
      try_each_band (mortality_body self) (bands self) (rng self) ;;
    Ok (set_rng (set_bands self bands1) rng1).

(** "Band dissolution/fission" at the end of the body of the loop of
    [_apply_reproduction]. *)
Definition clamp_band_size (params : SimulationParameters) (band : Band)
  : Band :=
  if (size band <? min_band_size (population params))%Z
  then set_size band (min_band_size (population params))
  else if (max_band_size (population params) <? size band)%Z
  then set_size band (max_band_size (population params))
  else band.

(** The body of the loop of [_apply_reproduction]. *)
Definition reproduction_body {G} `{Generator G}
  (self : PovertyPointSimulation G) (band : Band) (rng : G)
  : result (Band * G) :=
  let fitness :=
    match aggregation_history band with
    | _ :: _ =>
        if was_aggregator band then
          W_aggregator (sigma (params self)) (epsilon (params self))
            (IZR (n_attending (aggregation_site self))) (params self)
        else W_independent (sigma (params self)) (params self)
    | [] => W_independent (sigma (params self)) (params self)
    end in
  let band1 := set_fitness_history band (fitness_history band ++ [fitness]) in
  '(band2, rng1) <-
    reproduce band1 fitness (birth_rate (population (params self)))
      (death_rate (population (params self))) rng ;;
  Ok (clamp_band_size (params self) band2, rng1).

Definition _apply_reproduction {G} `{Generator G}
  (self : PovertyPointSimulation G) : result (PovertyPointSimulation G) :=
  '(bands1, rng1) <-
    try_each_band (reproduction_body self) (bands self) (rng self) ;;
  Ok (set_rng (set_bands self bands1) rng1).

Definition Zsum (l : list Z) : Z := fold_right Z.add 0%Z l.

(** [b.fitness_history[-1]] of the bands of one strategy that have a
    history. *)
Definition latest_fitness (which : Strategy) (bands : list Band) : list R :=
  map (fun b => last (fitness_history b) 0)
    (filter (fun b => Strategy_eqb (strategy b) which
                      && negb (length (fitness_history b) =? 0)%nat)
       bands).

Definition mean_or_zero (l : list R) : R :=
  match l with
  | [] => 0
  | _ :: _ => mean l
  end.

Definition _record_state {G} (self : PovertyPointSimulation G)
  : PovertyPointSimulation G * YearlyState.t :=
  let n_agg :=
    Z.of_nat (length (filter (fun b => Strategy_eqb (strategy b) AGGREGATOR)
                        (bands self))) in
  let n_total := Z.of_nat (length (bands self)) in
  let n_ind := (n_total - n_agg)%Z in
  let dominance :=
    if (0 <? n_total)%Z then IZR (n_agg - n_ind) / IZR n_total else 0 in
  let agg_fitness := latest_fitness AGGREGATOR (bands self) in
  let ind_fitness := latest_fitness INDEPENDENT (bands self) in
  let site := aggregation_site self in
  let history := monument_history site in
  let state :=
    YearlyState.mk
      (year self)
      (Zsum (map size (bands self)))
      n_total
      (mean (map (fun b => IZR (size b)) (bands self)))
      n_agg
      n_ind
      dominance
      (n_attending site)
      (current_population site)
      (monument_level site)
      (if (1 <? length history)%nat
       then last history 0 - last (removelast history) 0
       else monument_level site)
      (Zsum (map exotic_goods (bands self)))
      (sigma (params self) * (1 - epsilon (params self)))
      (in_shortfall self)
      (shortfall_magnitude self)
      (mean_or_zero agg_fitness)
      (mean_or_zero ind_fitness) in
  (set_results self (append_yearly_state (results self) state), state).

(** Part 1 of [step], "Shortfall determination". *)
Definition determine_shortfall {G} `{Generator G}
  (self : PovertyPointSimulation G) : result (PovertyPointSimulation G) :=
  if (0 <? shortfall_remaining self)%Z then
    let self1 := set_shortfall_remaining self (shortfall_remaining self - 1) in
    if (shortfall_remaining self1 =? 0)%Z
    then Ok (set_shortfall_magnitude (set_in_shortfall self1 false) 0)
    else Ok self1
  else
    '(new_shortfall, magnitude, duration, rng1) <- _generate_shortfall self ;;
    let self1 := set_rng self rng1 in
    if new_shortfall : bool
    then Ok (set_shortfall_remaining
               (set_shortfall_magnitude (set_in_shortfall self1 true) magnitude)
               duration)
    else Ok self1.

Definition step {G} `{Generator G} (self : PovertyPointSimulation G)
  : result (PovertyPointSimulation G * YearlyState.t) :=
  self1 <- determine_shortfall self ;;
  let self2 := _run_dispersal_season self1 in
  let self3 := _run_strategy_decisions self2 in
  let self4 := _run_aggregation_season self3 in
  self5 <- _apply_shortfall_mortality self4 ;;
  self6 <- _apply_reproduction self5 ;;
  let '(self7, state) := _record_state self6 in
  Ok (set_year self7 (year self7 + 1), state).

(** The order of two snapshots by their monument level. *)
Definition level_le (a b : YearlyState.t) : Prop :=
  YearlyState.monument_level a <= YearlyState.monument_level b.

(** [for _ in range(k): self.step()]. *)
Fixpoint run_loop {G} `{Generator G} (k : nat)
  (self : PovertyPointSimulation G) : result (PovertyPointSimulation G) :=
  match k with
  | O => Ok self
  | S k1 =>
      '(self1, _) <- step self ;;
      run_loop k1 self1
  end.

Definition run {G} `{Generator G} (self : PovertyPointSimulation G)
  : result SimulationResults.t :=
  self1 <- run_loop (Z.to_nat (duration (params self))) self ;;
  let results1 := compute_summary (results self1) (burn_in (params self1)) in
  sigma_star <-
    critical_threshold (epsilon (params self1))
      (IZR (n_optimal (cooperation (params self1)))) (params self1) ;;
  Ok (set_sigma_star_theoretical results1 sigma_star).

(** The snapshots a run of at most [k] years leaves in
    [self.results.yearly_states], whether the loop of [run] completes or an
    exception ends it: a year that raises appends nothing. *)
Fixpoint recorded_states {G} `{Generator G} (k : nat)
  (self : PovertyPointSimulation G) : list YearlyState.t :=
  match k with
  | O => SimulationResults.yearly_states (results self)
  | S k1 =>
      match step self with
      | Ok (self1, _) => recorded_states k1 self1
      | Raise _ => SimulationResults.yearly_states (results self)
      end
  end.

(* ================================================================== *)
(** * environment.py *)

Module environment.

Inductive ResourceZone : Type :=
| AQUATIC
| TERRESTRIAL
| MAST
| ECOTONE.

Definition ResourceZone_eqb (a b : ResourceZone) : bool :=
  match a, b with
  | AQUATIC, AQUATIC => true
  | TERRESTRIAL, TERRESTRIAL => true
  | MAST, MAST => true
  | ECOTONE, ECOTONE => true
  | _, _ => false
  end.

(** [for zone in ResourceZone], in declaration order. *)
Definition all_zones : list ResourceZone :=
  [AQUATIC; TERRESTRIAL; MAST; ECOTONE].

Record SeasonalProfile : Type := mkSeasonalProfile {
  spring : R;
  summer : R;
  fall : R;
  winter : R
}.

Definition get_multiplier (self : SeasonalProfile) (month : Z) : R :=
  if existsb (Z.eqb month) [3; 4; 5]%Z then spring self
  else if existsb (Z.eqb month) [6; 7; 8]%Z then summer self
  else if existsb (Z.eqb month) [9; 10; 11]%Z then fall self
  else winter self.

Definition SEASONAL_PROFILES (zone : ResourceZone) : SeasonalProfile :=
  match zone with
  | AQUATIC => mkSeasonalProfile 1.5 1.3 0.8 0.5
  | TERRESTRIAL => mkSeasonalProfile 0.7 0.8 1.4 1.1
  | MAST => mkSeasonalProfile 0.0 0.1 2.0 0.5
  | ECOTONE => mkSeasonalProfile 1.0 1.0 1.2 0.8
  end.

Record EcologicalPatch : Type := mkEcologicalPatch {
  patch_id : Z;
  zone_type : ResourceZone;
  location : R * R;
  base_productivity : R;
  variability : R;
  current_productivity : R;
  annual_shock : R
}.

(** [get_seasonal_productivity] also stores its result in the patch. *)
Definition get_seasonal_productivity (self : EcologicalPatch) (month : Z)
  : R * EcologicalPatch :=
  let seasonal_mult := get_multiplier (SEASONAL_PROFILES (zone_type self)) month in
  let productivity :=
    Rmax 0 (base_productivity self * seasonal_mult + annual_shock self) in
  (productivity,
   mkEcologicalPatch (patch_id self) (zone_type self) (location self)
     (base_productivity self) (variability self) productivity
     (annual_shock self)).

Record EnvironmentConfig : Type := mkEnvironmentConfig {
  region_size : R;
  n_aquatic_patches : Z;
  n_terrestrial_patches : Z;
  n_mast_patches : Z;
  n_ecotone_patches : Z;
  aquatic_base_productivity : R;
  terrestrial_base_productivity : R;
  mast_base_productivity : R;
  ecotone_base_productivity : R;
  aquatic_variability : R;
  terrestrial_variability : R;
  mast_variability : R;
  ecotone_variability : R;
  aquatic_terrestrial_cov : R;
  aquatic_mast_cov : R;
  terrestrial_mast_cov : R
}.

Definition default_config : EnvironmentConfig :=
  mkEnvironmentConfig 500 10 12 8 5 0.7 0.6 0.5 0.65 0.15 0.10 0.30 0.12
    (-0.3) 0.1 0.2.

(** An [n] by [n] [np.ndarray] is a function of two indices, read below
    [n]. *)
Definition matrix : Type := nat -> nat -> R.

(** [np.eye(n)]. *)
Definition eye : matrix := fun i j => if (i =? j)%nat then 1 else 0.

(** [M[i, j] = v]. *)
Definition mset (M : matrix) (i j : nat) (v : R) : matrix :=
  fun a b => if ((a =? i) && (b =? j))%nat then v else M a b.

Definition madd (A B : matrix) : matrix := fun i j => A i j + B i j.

Definition mscale (A : matrix) (c : R) : matrix := fun i j => A i j * c.

(** Of the attributes of [Environment], the generator is used only by the
    patch placement, the yearly shocks and the site search, which are not
    embedded; it is left out. *)
Record Environment : Type := mkEnvironment {
  config : EnvironmentConfig;
  year : Z;
  month : Z;
  patches : list EcologicalPatch;
  cov_matrix : matrix
}.

Definition set_patches (self : Environment) (v : list EcologicalPatch)
  : Environment :=
  mkEnvironment (config self) (year self) (month self) v (cov_matrix self).

Definition enumerate {A : Type} (l : list A) : list (nat * A) :=
  combine (seq 0 (length l)) l.

(** [zones == {x, y}] for the set [zones = {a, b}] and two distinct zones
    [x] and [y]. *)
Definition zones_are (a b x y : ResourceZone) : bool :=
  (ResourceZone_eqb a x && ResourceZone_eqb b y)
  || (ResourceZone_eqb a y && ResourceZone_eqb b x).

(** The [if]/[elif] chain choosing [cov_val] in [_build_covariance_matrix]. *)
Definition cov_val (config : EnvironmentConfig) (zone_i zone_j : ResourceZone)
  : R :=
  if zones_are zone_i zone_j AQUATIC TERRESTRIAL
  then aquatic_terrestrial_cov config
  else if zones_are zone_i zone_j AQUATIC MAST then aquatic_mast_cov config
  else if zones_are zone_i zone_j TERRESTRIAL MAST
  then terrestrial_mast_cov config
  else if ResourceZone_eqb zone_i zone_j then 0.5
  else 0.1.

(** The body of the inner loop of [_build_covariance_matrix]. *)
Definition covariance_inner (config : EnvironmentConfig) (i : nat)
  (patch_i : EcologicalPatch) (cov : matrix) (jp : nat * EcologicalPatch)
  : matrix :=
  let '(j, patch_j) := jp in
  if (j <=? i)%nat then cov
  else
    let var_i := variability patch_i ^ 2 in
    let var_j := variability patch_j ^ 2 in
    let v :=
      cov_val config (zone_type patch_i) (zone_type patch_j)
      * sqrt (var_i * var_j) in
    mset (mset cov i j v) j i v.

(** The two nested loops of [_build_covariance_matrix], from [np.eye(n)]. *)
Definition covariance_entries (self : Environment) : matrix :=
  fold_left
    (fun cov ip =>
       fold_left (covariance_inner (config self) (fst ip) (snd ip))
         (enumerate (patches self)) cov)
    (enumerate (patches self)) eye.

(** [a.min()] on an array: NumPy raises [ValueError] on an empty one. *)
Definition array_min (a : list R) : result R :=
  match a with
  | [] => Raise ValueError
  | x :: rest => Ok (fold_left Rmin rest x)
  end.

(** [_build_covariance_matrix], with [np.linalg.eigvalsh] as a parameter:
    [eigvalsh n M] is the array of eigenvalues LAPACK returns for the [n] by
    [n] matrix [M]. *)
Definition _build_covariance_matrix (eigvalsh : nat -> matrix -> list R)
  (self : Environment) : result matrix :=
  let n := length (patches self) in
  let cov := covariance_entries self in
  let eigvals := eigvalsh n cov in
  eigvals_min <- array_min eigvals ;;
  if Rlt_dec eigvals_min 0
  then Ok (madd cov (mscale eye (Rabs eigvals_min + 0.01)))
  else Ok cov.

(** Eigenvalues of an [n] by [n] matrix: [lam] with a non-zero vector [v]
    such that [M v = lam v]. *)
Definition mat_vec (n : nat) (M : matrix) (v : nat -> R) (i : nat) : R :=
  Rsum (map (fun j => M i j * v j) (seq 0 n)).

Definition eigenpair (n : nat) (M : matrix) (lam : R) (v : nat -> R) : Prop :=
  (exists i, (i < n)%nat /\ v i <> 0)
  /\ forall i, (i < n)%nat -> mat_vec n M v i = lam * v i.

Definition get_zone_productivity (self : Environment) (zone : ResourceZone)
  : R * Environment :=
  let in_zone := fun p => ResourceZone_eqb (zone_type p) zone in
  match filter in_zone (patches self) with
  | [] => (0, self)
  | zone_patches =>
      (mean (map (fun p => fst (get_seasonal_productivity p (month self)))
               zone_patches),
       set_patches self
         (map (fun p =>
                 if in_zone p
                 then snd (get_seasonal_productivity p (month self))
                 else p)
            (patches self)))
  end.

End environment.

(* ================================================================== *)
(** * integrated_simulation.py: the shortfall hazard *)

Module integrated_simulation.

(** [ShortfallParams] of [environmental_scenarios.py]. *)
Record ShortfallParams : Type := mkShortfallParams {
  mean_interval : R;
  magnitude_mean : R;
  magnitude_std : R;
  duration_scale : R
}.

Definition default_shortfall_params : ShortfallParams :=
  mkShortfallParams 10 0.5 0.15 2.5.

(** The attributes of [IntegratedSimulation] that [_evaluate_shortfall]
    reads or writes. *)
Record IntegratedSimulation (G : Type) : Type := mkIntegratedSimulation {
  shortfall_params : ShortfallParams;
  rng : G;
  environment : environment.Environment;
  annual_productivities : list R;
  shortfall_severity : R;
  shortfall_remaining : Z
}.

Arguments mkIntegratedSimulation {G}.
Arguments shortfall_params {G}.
Arguments rng {G}.
Arguments environment {G}.
Arguments annual_productivities {G}.
Arguments shortfall_severity {G}.
Arguments shortfall_remaining {G}.

(** The loop over the zones at the head of [_evaluate_shortfall]. *)
Definition zone_loop_body
  (st : environment.Environment * R * Z) (zone : environment.ResourceZone)
  : environment.Environment * R * Z :=
  let '(env, mean_prod, n_zones) := st in
  let '(zone_prod, env1) := environment.get_zone_productivity env zone in
  if Rgt_dec zone_prod 0 then (env1, mean_prod + zone_prod, (n_zones + 1)%Z)
  else (env1, mean_prod, n_zones).

Definition _evaluate_shortfall {G} `{Generator G}
  (self : IntegratedSimulation G)
  : result (bool * R * IntegratedSimulation G) :=
  let '(env1, mean_prod, n_zones) :=
    fold_left zone_loop_body environment.all_zones (environment self, 0, 0%Z) in
  let mean_prod :=
    if (0 <? n_zones)%Z then mean_prod / IZR n_zones else mean_prod in
  let productivities1 := annual_productivities self ++ [mean_prod] in
  if (0 <? shortfall_remaining self)%Z then
    Ok (true, shortfall_severity self,
        mkIntegratedSimulation (shortfall_params self) (rng self) env1
          productivities1 (shortfall_severity self)
          (shortfall_remaining self - 1))
  else
    p_shortfall <- fdiv 1 (mean_interval (shortfall_params self)) ;;
    let '(u, rng1) := random (rng self) in
    if Rlt_dec u p_shortfall then
      '(noise, rng2) <-
        normal_checked 0 (magnitude_std (shortfall_params self)) rng1 ;;
      let magnitude := magnitude_mean (shortfall_params self) + noise in
      let magnitude := clip magnitude 0.1 0.9 in
      let duration :=
        Z.max 1 (int (1 + magnitude * duration_scale (shortfall_params self))) in
      Ok (true, magnitude,
          mkIntegratedSimulation (shortfall_params self) rng2 env1
            productivities1 (shortfall_severity self) (duration - 1))
    else
      Ok (false, 0,
          mkIntegratedSimulation (shortfall_params self) rng1 env1
            productivities1 (shortfall_severity self)
            (shortfall_remaining self)).

End integrated_simulation.

(* ================================================================== *)
(** * Relations between a band before and after *)

(** What a completed year does to a band's identity and histories. *)
Definition year_of_band (before after : Band) : Prop :=
  band_id after = band_id before
  /\ home_location after = home_location before
  /\ strategy_history after = strategy_history before ++ [strategy after]
  /\ aggregation_history after
     = aggregation_history before ++ [Strategy_eqb (strategy after) AGGREGATOR]
  /\ exists fitness,
       fitness_history after = fitness_history before ++ [fitness]
       /\ 0 <= fitness.

(** What the phases of [step] do to them: nothing, a strategy noted, an
    attendance noted, a fitness noted. *)
Definition histories_kept (b b1 : Band) : Prop :=
  band_id b1 = band_id b
  /\ home_location b1 = home_location b
  /\ strategy b1 = strategy b
  /\ strategy_history b1 = strategy_history b
  /\ aggregation_history b1 = aggregation_history b
  /\ fitness_history b1 = fitness_history b.

Definition strategy_decided (b b1 : Band) : Prop :=
  band_id b1 = band_id b
  /\ home_location b1 = home_location b
  /\ strategy_history b1 = strategy_history b ++ [strategy b1]
  /\ aggregation_history b1 = aggregation_history b
  /\ fitness_history b1 = fitness_history b.

Definition attendance_noted (b b1 : Band) : Prop :=
  band_id b1 = band_id b
  /\ home_location b1 = home_location b
  /\ strategy b1 = strategy b
  /\ strategy_history b1 = strategy_history b
  /\ aggregation_history b1
     = aggregation_history b ++ [Strategy_eqb (strategy b) AGGREGATOR]
  /\ fitness_history b1 = fitness_history b.

Definition fitness_noted (b b1 : Band) : Prop :=
  band_id b1 = band_id b
  /\ home_location b1 = home_location b
  /\ strategy b1 = strategy b
  /\ strategy_history b1 = strategy_history b
  /\ aggregation_history b1 = aggregation_history b
  /\ exists fitness,
       fitness_history b1 = fitness_history b ++ [fitness] /\ 0 <= fitness.

(* ================================================================== *)
(** * Sample objects *)

(** The replaying generator, seeded with the empty script. *)
#[global] Instance replay : Generator (list outcome) :=
  script_generator (fun _ => []).

(** An aggregating band of ten at the aggregation site, well supplied and
    holding one full-strength obligation from band 1. *)
Definition sample_band : Band :=
  mkBand 0 10 (250, 250) AGGREGATOR 0.9 0 0 0 [(1%Z, 1)] [true] [] [AGGREGATOR].

(** A shortfall year of magnitude [0.5] at the default parameters, with
    [sample_band] as the only band, seen after the aggregation season. *)
Definition sample_simulation (script : list outcome)
  : PovertyPointSimulation (list outcome) :=
  mkPovertyPointSimulation (default_parameters 0.5 0.35 42) script
    [sample_band]
    (mkAggregationSite 0 (250, 250) 0.35 0 [0] [0%Z] 10 0)
    0 true 2 0.5
    (SimulationResults.mk 0.5 0.35 42 [] 0 0 0 0 0 0).

(** The year that [step] runs from [sample_simulation] under the empty
    script, phase by phase: the simulation around one band and the site. *)
Definition sample_year (band : Band) (site : AggregationSite)
  : PovertyPointSimulation (list outcome) :=
  mkPovertyPointSimulation (default_parameters 0.5 0.35 42) [] [band] site
    0 true 1 0.5 (SimulationResults.mk 0.5 0.35 42 [] 0 0 0 0 0 0).

Definition sample_site : AggregationSite :=
  mkAggregationSite 0 (250, 250) 0.35 0 [0] [0%Z] 10 0.

Definition sample_site_built : AggregationSite :=
  mkAggregationSite 0 (250, 250) 0.35 1.26144 [0; 1.26144] [0%Z] 10 0.

Definition sample_band_dispersed : Band :=
  mkBand 0 10 (250, 250) AGGREGATOR 0.876 0 0 0 [(1%Z, 1)] [true] []
    [AGGREGATOR].

Definition sample_band_decided : Band :=
  mkBand 0 10 (250, 250) AGGREGATOR 0.876 0 0 0 [(1%Z, 1)] [true] []
    [AGGREGATOR; AGGREGATOR].

Definition sample_band_aggregated : Band :=
  mkBand 0 10 (250, 250) AGGREGATOR 0.776 0.276144 1.26144 1 [(1%Z, 1)]
    [true; true] [] [AGGREGATOR; AGGREGATOR].

Definition sample_band_aided : Band :=
  mkBand 0 10 (250, 250) AGGREGATOR 0.976 0.276144 1.26144 1 [(1%Z, 0.7)]
    [true; true] [] [AGGREGATOR; AGGREGATOR].

Definition sample_band_reproduced : Band :=
  mkBand 0 10 (250, 250) AGGREGATOR 0.976 0.276144 1.26144 1 [(1%Z, 0.7)]
    [true; true] [0.52983] [AGGREGATOR; AGGREGATOR].

(** An integrated simulation outside a shortfall, at the default shortfall
    parameters, over an environment without patches. *)
Definition sample_integrated (script : list outcome)
  : integrated_simulation.IntegratedSimulation (list outcome) :=
  integrated_simulation.mkIntegratedSimulation
    integrated_simulation.default_shortfall_params script
    (environment.mkEnvironment environment.default_config 0 1 []
       environment.eye)
    [] 0 0.

(** An environment of one aquatic and one terrestrial patch of unit
    variability whose configured covariance, [-2], makes the matrix
    [[1, -2], [-2, 1]] indefinite: its eigenvalues are [-1] and [3]. *)
Definition sample_environment : environment.Environment :=
  environment.mkEnvironment
    (environment.mkEnvironmentConfig 500 1 1 0 0 0.7 0.6 0.5 0.65 1 1 0.30 0.12
       (-2) 0.1 0.2)
    0 1
    [environment.mkEcologicalPatch 0 environment.AQUATIC (250, 100) 0.7 1 0 0;
     environment.mkEcologicalPatch 1 environment.TERRESTRIAL (100, 300) 0.6 1 0 0]
    environment.eye.

(** The eigenvalue routine on [sample_environment]. *)
Definition sample_eigvalsh (n : nat) (M : environment.matrix) : list R :=
  [-1; 3].



(** A simulation of one band under the empty script. *)
Definition one_band (p : SimulationParameters) (band : Band)
  (site : AggregationSite) (year : Z) (in_shortfall : bool)
  (shortfall_remaining : Z) (shortfall_magnitude : R)
  (results : SimulationResults.t) : PovertyPointSimulation (list outcome) :=
  mkPovertyPointSimulation p [] [band] site year in_shortfall
    shortfall_remaining shortfall_magnitude results.


(** The default parameters with a negative signalling cost. *)
Definition refund_parameters : SimulationParameters :=
  mkSimulationParameters
    (mkCostParameters 0.12 (-0.18) 0.12)
    (mkVulnerabilityParameters 0.40 0.75)
    (mkCooperationParameters 0.08 25 0.015 0.05 1.10)
    (mkEnvironmentParameters 500 50 10 12 8 5)
    (mkPopulationParameters 50 25 0.03 0.02 5 50)
    600 100 42 0.5 0.35.

(** The band and the site of [sample_simulation] through two years at
    [refund_parameters], phase by phase. *)
Definition refund_band_aggregated : Band :=
  mkBand 0 10 (250, 250) AGGREGATOR 0.776 0.023856 (-1.26144) 1 [(1%Z, 1)]
    [true; true] [] [AGGREGATOR; AGGREGATOR].

Definition refund_band_aided : Band :=
  mkBand 0 10 (250, 250) AGGREGATOR 0.976 0.023856 (-1.26144) 1 [(1%Z, 0.7)]
    [true; true] [] [AGGREGATOR; AGGREGATOR].

Definition refund_band_reproduced : Band :=
  mkBand 0 10 (250, 250) AGGREGATOR 0.976 0.023856 (-1.26144) 1 [(1%Z, 0.7)]
    [true; true] [0.85869] [AGGREGATOR; AGGREGATOR].

Definition refund_site_first : AggregationSite :=
  mkAggregationSite 0 (250, 250) 0.35 (-1.26144) [0; -1.26144] [0%Z] 10 0.

Definition refund_band_dispersed2 : Band :=
  mkBand 0 10 (250, 250) AGGREGATOR 1 0.023856 (-1.26144) 1 [(1%Z, 0.7)]
    [true; true] [0.85869] [AGGREGATOR; AGGREGATOR].

Definition refund_band_decided2 : Band :=
  mkBand 0 10 (250, 250) AGGREGATOR 1 0.023856 (-1.26144) 1 [(1%Z, 0.7)]
    [true; true] [0.85869] [AGGREGATOR; AGGREGATOR; AGGREGATOR].

Definition refund_band_aggregated2 : Band :=
  mkBand 0 10 (250, 250) AGGREGATOR 0.9 0.029856 (-2.70144) 2 [(1%Z, 0.7)]
    [true; true; true] [0.85869] [AGGREGATOR; AGGREGATOR; AGGREGATOR].

Definition refund_band_reproduced2 : Band :=
  mkBand 0 10 (250, 250) AGGREGATOR 0.9 0.029856 (-2.70144) 2 [(1%Z, 0.7)]
    [true; true; true] [0.85869; 0.85869]
    [AGGREGATOR; AGGREGATOR; AGGREGATOR].

Definition refund_site_second : AggregationSite :=
  mkAggregationSite 0 (250, 250) 0.35 (-2.70144) [0; -1.26144; -2.70144]
    [0%Z] 10 1.

(* ================================================================== *)
(** * Invariants of the annual cycle *)

(** The shortfall episode as [step] and [_generate_shortfall] leave it: in
    a shortfall at least one year remains and the magnitude is the clipped
    one; outside a shortfall both fields are zero. *)
Definition shortfall_consistent {G} (self : PovertyPointSimulation G) : Prop :=
  if in_shortfall self
  then (1 <= shortfall_remaining self)%Z /\ 0.2 <= shortfall_magnitude self <= 0.9
  else shortfall_remaining self = 0%Z /\ shortfall_magnitude self = 0.

(** Resources between [0] and [hi], obligation strengths in [[0.05, 1]]. *)
Definition band_in_range (hi : R) (b : Band) : Prop :=
  0 <= resources b <= hi /\ strengths_bounded (obligations b).

(** The three fields of the shortfall episode are those of [a]. *)
Definition same_shortfall {G} (a b : PovertyPointSimulation G) : Prop :=
  in_shortfall b = in_shortfall a
  /\ shortfall_remaining b = shortfall_remaining a
  /\ shortfall_magnitude b = shortfall_magnitude a.

(** The cost, vulnerability, cooperation and population blocks that
    [SimulationParameters()] builds, with an environmental uncertainty and
    an ecotone advantage in [[0, 1]]; the duration, the burn-in, the seed and
    the environment block are free. *)
Definition default_blocks (p : SimulationParameters) : Prop :=
  costs p = mkCostParameters 0.12 0.18 0.12
  /\ vulnerability p = mkVulnerabilityParameters 0.40 0.75
  /\ cooperation p = mkCooperationParameters 0.08 25 0.015 0.05 1.10
  /\ population p = mkPopulationParameters 50 25 0.03 0.02 5 50
  /\ 0 <= sigma p <= 1
  /\ 0 <= epsilon p <= 1.

(** The states from which the year of the model returns: the default
    blocks, a consistent shortfall episode, no negative size and obligation
    strengths in range. *)
Definition year_can_run {G} (self : PovertyPointSimulation G) : Prop :=
  default_blocks (params self)
  /\ shortfall_consistent self
  /\ Forall (fun b => (0 <= size b)%Z) (bands self)
  /\ Forall (fun b => strengths_bounded (obligations b)) (bands self).



(** [band.strategy == Strategy.AGGREGATOR]. *)
Definition is_aggregator (b : Band) : bool :=
  Strategy_eqb (strategy b) AGGREGATOR.

(** Bands that pair up with the same id and strategy. *)
Definition same_band (b b1 : Band) : Prop :=
  band_id b1 = band_id b /\ strategy b1 = strategy b.

(** A symmetric matrix with ones on its diagonal. *)
Definition symmetric_unit (M : environment.matrix) : Prop :=
  (forall i j, M i j = M j i) /\ (forall i, M i i = 1).

(** The default parameters for a run of one year, shorter than the
    burn-in. *)
Definition short_run_parameters : SimulationParameters :=
  mkSimulationParameters
    (mkCostParameters 0.12 0.18 0.12)
    (mkVulnerabilityParameters 0.40 0.75)
    (mkCooperationParameters 0.08 25 0.015 0.05 1.10)
    (mkEnvironmentParameters 500 50 10 12 8 5)
    (mkPopulationParameters 50 25 0.03 0.02 5 50)
    1 100 42 0.5 0.35.

(* ================================================================== *)
(** * Properties of the fitness model *)

Lemma cooperation_benefit_ge_1 n params :
  1 <= cooperation_benefit n params.
Proof.
  unfold cooperation_benefit.
  destruct (Rle_dec n 1); [lra|].
  apply Rmax_l.
Qed.



Lemma cooperation_benefit_solo params : cooperation_benefit 1 params = 1.
Proof.
  unfold cooperation_benefit.
  destruct (Rle_dec 1 1); [reflexivity | lra].
Qed.





(** An aggregation of one band reaches neither [np.log] nor the square:
    whatever the two library calls compute, the threshold and the
    aggregator's fitness are those with the stand-in. *)
Lemma solo_calls_no_library (np_log square : float -> float)
  (sigma epsilon : float) (params : binary64.SimulationParameters) :
  binary64.critical_threshold np_log square epsilon 1 params
  = binary64.critical_threshold binary64.not_called binary64.not_called
      epsilon 1 params
  /\ binary64.W_aggregator np_log square sigma epsilon 1 params
     = binary64.W_aggregator binary64.not_called binary64.not_called
         sigma epsilon 1 params.
Proof. split; reflexivity. Qed.




(* ================================================================== *)
(** * Reciprocal obligations *)

Lemma dict_get_set_same d k v : dict_get (dict_set d k v) k = Some v.
Proof.
  induction d as [| [k1 v1] d IH]; cbn.
  - now rewrite Z.eqb_refl.
  - destruct (k1 =? k)%Z eqn:E; cbn.
    + now rewrite Z.eqb_refl.
    + now rewrite E.
Qed.

Lemma dict_get_set_other d k v k' :
  k' <> k -> dict_get (dict_set d k v) k' = dict_get d k'.
Proof.
  intros Hne.
  induction d as [| [k1 v1] d IH]; cbn.
  - destruct (k =? k')%Z eqn:E; [apply Z.eqb_eq in E; congruence | reflexivity].
  - destruct (k1 =? k)%Z eqn:E; cbn.
    + apply Z.eqb_eq in E. subst k1.
      destruct (k =? k')%Z eqn:E'; [apply Z.eqb_eq in E'; congruence | reflexivity].
    + destruct (k1 =? k')%Z; [reflexivity | exact IH].
Qed.

Lemma dict_get_del_same d k : dict_get (dict_del d k) k = None.
Proof.
  unfold dict_del.
  induction d as [| [k1 v1] d IH]; cbn; [reflexivity |].
  destruct (k1 =? k)%Z eqn:E; cbn; [exact IH |].
  now rewrite E.
Qed.

Lemma dict_get_del_other d k k' :
  k' <> k -> dict_get (dict_del d k) k' = dict_get d k'.
Proof.
  intros Hne. unfold dict_del.
  induction d as [| [k1 v1] d IH]; cbn; [reflexivity |].
  destruct (k1 =? k)%Z eqn:E; cbn.
  - apply Z.eqb_eq in E. subst k1.
    destruct (k =? k')%Z eqn:E'; [apply Z.eqb_eq in E'; congruence | exact IH].
  - destruct (k1 =? k')%Z; [reflexivity | exact IH].
Qed.

(** C4, as the code has it: on a partner present with strength [s], one call
    returns the need capped by [0.5 * s], leaves the edge at [0.7 * s], or
    removes it when [0.7 * s < 0.05], and touches no other edge. *)
Theorem call_obligation_decay (self : Band) (partner_id : Z) (need s : R) :
  dict_get (obligations self) partner_id = Some s ->
  fst (call_obligation self partner_id need) = Rmin need (s * 0.5)
  /\ dict_get (obligations (snd (call_obligation self partner_id need)))
       partner_id
     = (if Rlt_dec (s * 0.7) 0.05 then None else Some (s * 0.7))
  /\ forall other, other <> partner_id ->
       dict_get (obligations (snd (call_obligation self partner_id need))) other
       = dict_get (obligations self) other.
Proof.
  intros Hs. unfold call_obligation. rewrite Hs. cbn.
  split; [reflexivity |].
  destruct (Rlt_dec (s * 0.7) 0.05).
  - split.
    + apply dict_get_del_same.
    + intros other Hne.
      rewrite dict_get_del_other by exact Hne.
      now apply dict_get_set_other.
  - split.
    + apply dict_get_set_same.
    + intros other Hne. now apply dict_get_set_other.
Qed.

(** The claim of C4 says the stored strength is halved.  A call on the
    full-strength edge of [sample_band] leaves it at [0.7], not at [0.5]. *)
Lemma call_obligation_not_halved :
  dict_get (obligations sample_band) 1 = Some 1
  /\ dict_get (obligations (snd (call_obligation sample_band 1 0.2))) 1
     = Some (1 * 0.7)
  /\ dict_get (obligations (snd (call_obligation sample_band 1 0.2))) 1
     <> Some (1 / 2).
Proof.
  assert (E : dict_get (obligations (snd (call_obligation sample_band 1 0.2))) 1
              = Some (1 * 0.7)).
  { unfold call_obligation. cbn.
    destruct (Rlt_dec (1 * 0.7) 0.05); [exfalso; lra | reflexivity]. }
  split; [reflexivity |]. split; [exact E |].
  rewrite E. intros H. injection H as H. lra.
Qed.

Lemma call_obligation_decay_witness :
  fst (call_obligation sample_band 1 0.2) = Rmin 0.2 (1 * 0.5)
  /\ dict_get (obligations (snd (call_obligation sample_band 1 0.2))) 1
     = (if Rlt_dec (1 * 0.7) 0.05 then None else Some (1 * 0.7))
  /\ forall other, other <> 1%Z ->
       dict_get (obligations (snd (call_obligation sample_band 1 0.2))) other
       = dict_get (obligations sample_band) other.
Proof.
  apply call_obligation_decay. reflexivity.
Defined.

(* ================================================================== *)
(** * The replaying generator obeys the laws *)

Lemma unit_interval_range x : 0 <= unit_interval x < 1.
Proof.
  unfold unit_interval.
  destruct (Rle_dec 0 x); [destruct (Rlt_dec x 1) |]; lra.
Qed.

Lemma unit_interval_id x : 0 <= x < 1 -> unit_interval x = x.
Proof.
  intros Hx. unfold unit_interval.
  destruct (Rle_dec 0 x); [destruct (Rlt_dec x 1) |]; lra.
Qed.

#[global] Instance script_generator_laws seeding :
  @GeneratorLaws (list outcome) (script_generator seeding).
Proof.
  constructor; cbn.
  - intros [| [x | k] g]; cbn; try lra. apply unit_interval_range.
  - intros lo hi [| [x | k] g] Hlt; cbn; try lia.
    destruct (lo <=? k)%Z eqn:E1; destruct (k <? hi)%Z eqn:E2; cbn; lia.
  - intros n p [| [x | k] g] Hn Hp; cbn; try lia.
    destruct (0 <=? k)%Z eqn:E1; destruct (k <=? n)%Z eqn:E2; cbn; lia.
  - intros n [| [x | k] g] Hn; cbn; try lia.
    destruct (0 <=? k)%Z eqn:E1; destruct (k <? Z.of_nat n)%Z eqn:E2; cbn; lia.
Qed.

(* ================================================================== *)
(** * Monument investment *)

Lemma invest_in_monument_poor {G} `{Generator G} (self : Band) rate (rng : G) :
  resources self < 0.3 -> invest_in_monument self rate rng = (0, self, rng).
Proof.
  intros Hr. unfold invest_in_monument.
  destruct (Rlt_dec (resources self) 0.3); [reflexivity | contradiction].
Qed.

Lemma invest_in_monument_rich {G} `{Generator G} (self : Band) rate (rng : G) :
  ~ resources self < 0.3 ->
  invest_in_monument self rate rng =
  (let investment :=
     IZR (size self) * rate * resources self * (0.8 + 0.4 * fst (random rng)) in
   (investment,
    set_prestige
      (set_monument_contributions self (monument_contributions self + investment))
      (prestige self + investment * 0.1),
    snd (random rng))).
Proof.
  intros Hr. unfold invest_in_monument.
  destruct (Rlt_dec (resources self) 0.3); [contradiction |].
  destruct (random rng) as [u rng1]. reflexivity.
Qed.

(** C10, as the code has it: below [0.3] resources the call returns 0 and
    changes neither the band nor the generator; otherwise it adds the noisy
    investment to [monument_contributions] and a tenth of it to [prestige],
    and leaves every other field of the band as it was, the resources in
    particular.  The investment is non-negative when size times rate is. *)
Theorem invest_in_monument_frame {G} `{GeneratorLaws G}
  (self : Band) (investment_rate : R) (rng : G) :
  let '(investment, self1, rng1) := invest_in_monument self investment_rate rng in
  (resources self < 0.3 -> investment = 0 /\ self1 = self /\ rng1 = rng)
  /\ (~ resources self < 0.3 ->
      investment
      = IZR (size self) * investment_rate * resources self
        * (0.8 + 0.4 * fst (random rng))
      /\ monument_contributions self1 = monument_contributions self + investment
      /\ prestige self1 = prestige self + investment * 0.1
      /\ (0 <= IZR (size self) * investment_rate -> 0 <= investment))
  /\ resources self1 = resources self
  /\ size self1 = size self
  /\ exotic_goods self1 = exotic_goods self
  /\ obligations self1 = obligations self
  /\ aggregation_history self1 = aggregation_history self
  /\ fitness_history self1 = fitness_history self
  /\ strategy_history self1 = strategy_history self
  /\ band_id self1 = band_id self
  /\ home_location self1 = home_location self
  /\ strategy self1 = strategy self.
Proof.
  destruct (Rlt_dec (resources self) 0.3) as [Hr | Hr].
  - rewrite invest_in_monument_poor by exact Hr.
    repeat split; try reflexivity; contradiction.
  - rewrite invest_in_monument_rich by exact Hr. cbv zeta.
    split; [intros; contradiction |].
    split; [| repeat split; reflexivity].
    intros _. repeat split.
    intros Hsr.
    pose proof (random_range rng) as Hu.
    assert (0 <= resources self) by lra.
    apply Rmult_le_pos; [apply Rmult_le_pos; [exact Hsr | lra] | lra].
Qed.

Lemma sample_band_invests :
  invest_in_monument sample_band 0.18 [Float 0.5]
  = (10 * 0.18 * 0.9 * (0.8 + 0.4 * 0.5),
     set_prestige
       (set_monument_contributions sample_band
          (0 + 10 * 0.18 * 0.9 * (0.8 + 0.4 * 0.5)))
       (0 + 10 * 0.18 * 0.9 * (0.8 + 0.4 * 0.5) * 0.1),
     []).
Proof.
  rewrite invest_in_monument_rich by (cbn; lra).
  cbn. rewrite unit_interval_id by lra. reflexivity.
Qed.

(** The claim of C10 says prestige grows by the investment.  [sample_band]
    invests [1.62] and gains [0.162] prestige. *)
Lemma invest_in_monument_prestige_tenth :
  fst (fst (invest_in_monument sample_band 0.18 [Float 0.5])) = 1.62
  /\ prestige (snd (fst (invest_in_monument sample_band 0.18 [Float 0.5])))
     = 0.162
  /\ prestige (snd (fst (invest_in_monument sample_band 0.18 [Float 0.5])))
     <> prestige sample_band
        + fst (fst (invest_in_monument sample_band 0.18 [Float 0.5])).
Proof.
  rewrite sample_band_invests. cbn. repeat split; lra.
Qed.

Lemma invest_in_monument_frame_witness :
  ~ resources sample_band < 0.3
  /\ fst (fst (invest_in_monument sample_band 0.18 [Float 0.5]))
     = IZR (size sample_band) * 0.18 * resources sample_band
       * (0.8 + 0.4 * fst (random [Float 0.5]))
  /\ prestige (snd (fst (invest_in_monument sample_band 0.18 [Float 0.5])))
     = prestige sample_band
       + fst (fst (invest_in_monument sample_band 0.18 [Float 0.5])) * 0.1
  /\ resources (snd (fst (invest_in_monument sample_band 0.18 [Float 0.5])))
     = resources sample_band.
Proof.
  assert (Hr : ~ resources sample_band < 0.3) by (cbn; lra).
  pose proof (@invest_in_monument_frame _ replay (script_generator_laws _)
                sample_band 0.18 [Float 0.5]) as F.
  destruct (invest_in_monument sample_band 0.18 [Float 0.5])
    as [[investment self1] rng1].
  destruct F as (_ & Frich & Fres & _).
  destruct (Frich Hr) as (Finv & _ & Fpre & _).
  cbn [fst snd]. repeat split; assumption.
Defined.

(* ================================================================== *)
(** * Shortfall duration *)

Lemma clip_range x lo hi : lo <= hi -> lo <= clip x lo hi <= hi.
Proof.
  intros H. unfold clip, Rmin, Rmax.
  destruct (Rle_dec x lo); destruct (Rle_dec _ hi); lra.
Qed.

Lemma clip_id x lo hi : lo <= x <= hi -> clip x lo hi = x.
Proof.
  intros H. unfold clip, Rmin, Rmax.
  destruct (Rle_dec x lo); destruct (Rle_dec _ hi); lra.
Qed.








Lemma zone_loop_no_patches env zones mean_prod n_zones :
  environment.patches env = [] ->
  fold_left integrated_simulation.zone_loop_body zones (env, mean_prod, n_zones)
  = (env, mean_prod, n_zones).
Proof.
  intros He. induction zones as [| zone zones IH]; [reflexivity |].
  cbn [fold_left]. unfold integrated_simulation.zone_loop_body at 2.
  unfold environment.get_zone_productivity. rewrite He. cbn [filter].
  destruct (Rgt_dec 0 0) as [F | _]; [exfalso; lra | exact IH].
Qed.

(** [_evaluate_shortfall] on a script whose first draw starts a shortfall
    and whose second is the standard normal deviate [z]. *)
Lemma evaluate_shortfall_sample z :
  0.1 <= 0.5 + 0.15 * z <= 0.9 ->
  exists self1,
    integrated_simulation._evaluate_shortfall
      (sample_integrated [Float 0; Float z])
    = Ok (true, 0.5 + (0 + 0.15 * z), self1).
Proof.
  intros Hz.
  unfold integrated_simulation._evaluate_shortfall.
  rewrite zone_loop_no_patches by reflexivity.
  cbn [sample_integrated integrated_simulation.shortfall_remaining
       integrated_simulation.shortfall_params
       integrated_simulation.mean_interval
       integrated_simulation.default_shortfall_params
       Z.ltb Z.compare integrated_simulation.rng].
  unfold fdiv.
  destruct (Req_dec_T 10 0) as [E | _]; [exfalso; lra |].
  cbn [bind random replay script_generator script_random].
  rewrite unit_interval_id by lra.
  destruct (Rlt_dec 0 (1 / 10)) as [_ | N]; [| exfalso; apply N; lra].
  unfold normal_checked.
  cbn [integrated_simulation.magnitude_std integrated_simulation.magnitude_mean
       integrated_simulation.duration_scale
       integrated_simulation.default_shortfall_params].
  destruct (Rlt_dec 0.15 0) as [F | _]; [exfalso; lra |].
  cbn [bind normal replay script_generator script_normal].
  rewrite clip_id by lra.
  eexists. reflexivity.
Qed.


(* ================================================================== *)
(** * The covariance matrix of the environment *)

Lemma Rsum_map_add {A} (f g : A -> R) l :
  Rsum (map (fun j => f j + g j) l) = Rsum (map f l) + Rsum (map g l).
Proof.
  unfold Rsum. induction l as [| a l IH]; cbn; [lra | rewrite IH; lra].
Qed.

Lemma Rsum_map_ext {A} (f g : A -> R) l :
  (forall a, In a l -> f a = g a) -> Rsum (map f l) = Rsum (map g l).
Proof.
  intros H. unfold Rsum. induction l as [| a l IH]; cbn; [reflexivity |].
  rewrite H by now left. rewrite IH; [reflexivity |].
  intros b Hb. apply H. now right.
Qed.

Lemma Rsum_diagonal (c : R) (v : nat -> R) (i start len : nat) :
  Rsum (map (fun j => environment.eye i j * c * v j) (seq start len))
  = if ((start <=? i) && (i <? start + len))%nat then c * v i else 0.
Proof.
  revert start. induction len as [| len IH]; intros start; cbn [seq map Rsum fold_right].
  - destruct (start <=? i)%nat eqn:E1; destruct (i <? start + 0)%nat eqn:E2; cbn; try reflexivity.
    apply Nat.leb_le in E1. apply Nat.ltb_lt in E2. lia.
  - fold (Rsum (map (fun j => environment.eye i j * c * v j) (seq (S start) len))).
    rewrite IH. unfold environment.eye.
    destruct (i =? start)%nat eqn:E.
    + apply Nat.eqb_eq in E. subst i.
      replace (S start <=? start)%nat with false by (symmetry; apply Nat.leb_gt; lia).
      replace (start <=? start)%nat with true by (symmetry; apply Nat.leb_le; lia).
      replace (start <? start + S len)%nat with true by (symmetry; apply Nat.ltb_lt; lia).
      cbn. lra.
    + apply Nat.eqb_neq in E.
      destruct (start <=? i)%nat eqn:E1; destruct (S start <=? i)%nat eqn:E1';
      destruct (i <? start + S len)%nat eqn:E2; destruct (i <? S start + len)%nat eqn:E2'; cbn; try lra;
      repeat match goal with
      | H : (_ <=? _)%nat = true |- _ => apply Nat.leb_le in H
      | H : (_ <=? _)%nat = false |- _ => apply Nat.leb_gt in H
      | H : (_ <? _)%nat = true |- _ => apply Nat.ltb_lt in H
      | H : (_ <? _)%nat = false |- _ => apply Nat.ltb_ge in H
      end; lia.
Qed.

Lemma mat_vec_shift n M c v i :
  (i < n)%nat ->
  environment.mat_vec n (environment.madd M (environment.mscale environment.eye c)) v i = environment.mat_vec n M v i + c * v i.
Proof.
  intros Hi. unfold environment.mat_vec, environment.madd, environment.mscale.
  rewrite (Rsum_map_ext _ (fun j => M i j * v j + environment.eye i j * c * v j))
    by (intros; lra).
  rewrite Rsum_map_add, Rsum_diagonal.
  replace ((0 <=? i) && (i <? 0 + n))%nat with true; [reflexivity |].
  symmetry. apply andb_true_iff. split; [apply Nat.leb_le | apply Nat.ltb_lt]; lia.
Qed.

Lemma eigenpair_shift n M c lam v :
  environment.eigenpair n (environment.madd M (environment.mscale environment.eye c)) lam v -> environment.eigenpair n M (lam - c) v.
Proof.
  intros [Hv He]. split; [exact Hv |].
  intros i Hi. specialize (He i Hi). rewrite mat_vec_shift in He by exact Hi. lra.
Qed.

Lemma fold_Rmin_le rest x : fold_left Rmin rest x <= x.
Proof.
  revert x. induction rest as [| y rest IH]; intros x; cbn; [lra |].
  eapply Rle_trans; [apply IH | apply Rmin_l].
Qed.

Lemma fold_Rmin_le_In rest x y : In y rest -> fold_left Rmin rest x <= y.
Proof.
  revert x. induction rest as [| z rest IH]; intros x; cbn; [contradiction |].
  intros [-> | Hy].
  - eapply Rle_trans; [apply fold_Rmin_le | apply Rmin_r].
  - now apply IH.
Qed.

Lemma array_min_le a m x : environment.array_min a = Ok m -> In x a -> m <= x.
Proof.
  destruct a as [| x0 rest]; cbn; [discriminate |].
  intros E. injection E as <-. intros [-> | Hx].
  - apply fold_Rmin_le.
  - now apply fold_Rmin_le_In.
Qed.

(** C9: when [np.linalg.eigvalsh] returns at least the eigenvalues of the
    matrix it is given, the matrix [_build_covariance_matrix] returns, after
    its diagonal correction, has no negative eigenvalue, for every patch
    collection and configuration. *)
Theorem covariance_no_negative_eigenvalue
  (eigvalsh : nat -> environment.matrix -> list R) (self : environment.Environment) (cov : environment.matrix) :
  (forall lam v,
      environment.eigenpair (length (environment.patches self)) (environment.covariance_entries self) lam v ->
      In lam (eigvalsh (length (environment.patches self)) (environment.covariance_entries self))) ->
  environment._build_covariance_matrix eigvalsh self = Ok cov ->
  forall lam v, environment.eigenpair (length (environment.patches self)) cov lam v -> 0 <= lam.
Proof.
  intros Hspec. unfold environment._build_covariance_matrix.
  destruct (environment.array_min _) as [m |] eqn:Em; cbn [bind]; [| discriminate].
  destruct (Rlt_dec m 0) as [Hneg | Hpos]; intros E; injection E as <-;
    intros lam v Hp.
  - apply eigenpair_shift in Hp. apply Hspec in Hp.
    pose proof (array_min_le _ _ _ Em Hp) as Hle.
    rewrite Rabs_left in Hle by exact Hneg. lra.
  - apply Hspec in Hp. pose proof (array_min_le _ _ _ Em Hp). lra.
Qed.

Lemma sample_entries :
  environment.covariance_entries sample_environment 0%nat 0%nat = 1
  /\ environment.covariance_entries sample_environment 0%nat 1%nat = -2
  /\ environment.covariance_entries sample_environment 1%nat 0%nat = -2
  /\ environment.covariance_entries sample_environment 1%nat 1%nat = 1.
Proof.
  unfold environment.covariance_entries, sample_environment,
    environment.enumerate.
  cbn. unfold environment.mset, environment.eye. cbn.
  replace (1 * (1 * 1) * (1 * (1 * 1))) with 1 by lra.
  rewrite sqrt_1. repeat split; lra.
Qed.

Lemma sample_spectrum lam v :
  environment.eigenpair 2 (environment.covariance_entries sample_environment) lam v ->
  In lam (sample_eigvalsh 2 (environment.covariance_entries sample_environment)).
Proof.
  intros [[i [Hi Hv]] He].
  pose proof (He 0%nat ltac:(lia)) as E0.
  pose proof (He 1%nat ltac:(lia)) as E1.
  unfold environment.mat_vec, Rsum in E0, E1. cbn [seq map fold_right] in E0, E1.
  destruct sample_entries as (A00 & A01 & A10 & A11).
  rewrite A00, A01 in E0. rewrite A10, A11 in E1.
  assert (Hq : (lam + 1) * (lam - 3) = 0).
  { assert (Hi' : i = 0%nat \/ i = 1%nat) by lia.
    destruct Hi' as [-> | ->].
    - apply (Rmult_eq_reg_r (v 0%nat)); [nra | exact Hv].
    - apply (Rmult_eq_reg_r (v 1%nat)); [nra | exact Hv]. }
  apply Rmult_integral in Hq. unfold sample_eigvalsh. cbn [In].
  destruct Hq; [left | right; left]; lra.
Qed.

(** On [sample_environment] the least eigenvalue is [-1]: the matrix is
    corrected by [1.01] times the identity, and what is returned has no
    negative eigenvalue. *)
Lemma covariance_no_negative_eigenvalue_witness :
  environment._build_covariance_matrix sample_eigvalsh sample_environment
  = Ok (environment.madd (environment.covariance_entries sample_environment)
          (environment.mscale environment.eye (Rabs (-1) + 0.01)))
  /\ forall lam v,
       environment.eigenpair 2
         (environment.madd (environment.covariance_entries sample_environment)
            (environment.mscale environment.eye (Rabs (-1) + 0.01))) lam v ->
       0 <= lam.
Proof.
  assert (E : environment._build_covariance_matrix sample_eigvalsh sample_environment
              = Ok (environment.madd (environment.covariance_entries sample_environment)
                      (environment.mscale environment.eye (Rabs (-1) + 0.01)))).
  { unfold environment._build_covariance_matrix, sample_eigvalsh, environment.array_min.
    cbn [fold_left bind].
    replace (Rmin (-1) 3) with (-1)
      by (unfold Rmin; destruct (Rle_dec (-1) 3); lra).
    destruct (Rlt_dec (-1) 0); [reflexivity | exfalso; lra]. }
  split; [exact E |].
  apply (covariance_no_negative_eigenvalue sample_eigvalsh sample_environment).
  - exact sample_spectrum.
  - exact E.
Defined.

(* ================================================================== *)
(** * Resources under shortfall aid *)

Lemma binomial_ok {G} `{Generator G} n p (g : G) :
  (0 <= n)%Z -> 0 <= p <= 1 -> binomial n p g = Ok (binomial_draw n p g).
Proof.
  intros Hn Hp. unfold binomial.
  destruct (n <? 0)%Z eqn:E; [apply Z.ltb_lt in E; lia |].
  destruct (Rlt_dec p 0); [lra |].
  destruct (Rgt_dec p 1); [lra | reflexivity].
Qed.

(** C2 fails on the code.  In [sample_simulation] the only band holds
    resources [0.9], within [[0, 1]]; [_apply_shortfall_mortality] adds the
    help of its obligation, [min(0.2, 0.5 * 1)], without clamping, and leaves
    the band at [1.1]. *)
Theorem shortfall_aid_exceeds_unit :
  (forall b, In b (bands (sample_simulation [Int 0; Int 0])) ->
             0 <= resources b <= 1)
  /\ exists self1 band1,
       _apply_shortfall_mortality (sample_simulation [Int 0; Int 0]) = Ok self1
       /\ bands self1 = [band1]
       /\ resources band1 = 1.1.
Proof.
  split.
  { intros b [<- | []]. cbn. lra. }
  unfold _apply_shortfall_mortality.
  cbn [sample_simulation in_shortfall negb bands rng try_each_band].
  unfold mortality_body at 1.
  cbn [strategy sample_band params default_parameters sigma epsilon
       vulnerability alpha_agg].
  unfold suffer_shortfall.
  rewrite binomial_ok by (cbn; try lia; lra).
  cbn. unfold call_obligation. cbn.
  destruct (Rlt_dec (1 * 0.7) 0.05) as [F | _]; [exfalso; lra |].
  cbn. eexists. eexists. split; [reflexivity |]. split; [reflexivity |].
  cbn. unfold Rmin. destruct (Rle_dec 0.2 (1 * 0.5)); lra.
Qed.

(* ================================================================== *)
(** * One year of [sample_simulation], phase by phase *)

Lemma Rlt_dec_true {A} a b (x y : A) :
  a < b -> (if Rlt_dec a b then x else y) = x.
Proof. intros. destruct (Rlt_dec a b); [reflexivity | contradiction]. Qed.

Lemma Rlt_dec_false {A} a b (x y : A) :
  ~ a < b -> (if Rlt_dec a b then x else y) = y.
Proof. intros. destruct (Rlt_dec a b); [contradiction | reflexivity]. Qed.

(** Equality of two sample records whose float fields are equal as reals. *)
Ltac real_fields :=
  cbv beta iota zeta delta
    [sample_year sample_band sample_band_dispersed sample_band_decided
     sample_band_aggregated sample_band_aided sample_band_reproduced
     sample_site sample_site_built
     set_rng set_bands set_aggregation_site set_results set_year
     set_size set_strategy set_resources set_prestige
     set_monument_contributions set_exotic_goods set_obligations
     set_aggregation_history set_fitness_history set_strategy_history
     record_construction
     band_id size home_location strategy resources prestige
     monument_contributions exotic_goods obligations aggregation_history
     fitness_history strategy_history
     site_id location ecotone_advantage monument_level monument_history
     attending_bands current_population total_exotics
     params rng bands aggregation_site year in_shortfall shortfall_remaining
     shortfall_magnitude results app];
  repeat (f_equal; try lra).

Lemma sample_determine_shortfall :
  determine_shortfall (sample_simulation [])
  = Ok (sample_year sample_band sample_site).
Proof. reflexivity. Qed.

Lemma sample_dispersal :
  _run_dispersal_season (sample_year sample_band sample_site)
  = sample_year sample_band_dispersed sample_site.
Proof.
  unfold _run_dispersal_season, dispersal_body.
  cbn -[clip Rmin Rmax].
  rewrite clip_id by lra.
  real_fields.
Qed.

Lemma sample_decisions :
  _run_strategy_decisions (sample_year sample_band_dispersed sample_site)
  = sample_year sample_band_decided sample_site.
Proof.
  unfold _run_strategy_decisions, decision_body, decide_strategy.
  cbn -[clip Rmin Rmax W_aggregator W_independent exp].
  rewrite Rlt_dec_true
    by (apply Rdiv_lt_0_compat;
        [lra
        | match goal with
          | |- 0 < 1 + exp ?x => pose proof (exp_pos x); lra
          end]).
  reflexivity.
Qed.

Lemma sample_aggregation :
  _run_aggregation_season (sample_year sample_band_decided sample_site)
  = sample_year sample_band_aggregated sample_site_built.
Proof.
  unfold _run_aggregation_season, aggregation_body, calculate_travel_cost.
  cbn -[clip Rmin Rmax sqrt invest_in_monument acquire_exotic].
  replace ((250 - 250) * ((250 - 250) * 1) + (250 - 250) * ((250 - 250) * 1))
    with 0 by lra.
  rewrite sqrt_0.
  rewrite Rmin_left by lra.
  rewrite invest_in_monument_rich by (cbn; lra).
  cbn -[clip Rmin Rmax acquire_exotic].
  unfold acquire_exotic.
  cbn -[clip Rmin Rmax].
  rewrite Rlt_dec_false by lra.
  rewrite Rlt_dec_true by lra.
  cbn -[clip Rmin Rmax].
  real_fields.
Qed.

Lemma sample_mortality :
  _apply_shortfall_mortality (sample_year sample_band_aggregated sample_site_built)
  = Ok (sample_year sample_band_aided sample_site_built).
Proof.
  unfold _apply_shortfall_mortality, mortality_body, suffer_shortfall.
  cbn -[clip Rmin Rmax binomial call_obligation].
  rewrite binomial_ok by (cbn; try lia; lra).
  cbn -[clip Rmin Rmax call_obligation].
  unfold call_obligation.
  cbn -[clip Rmin Rmax].
  rewrite Rlt_dec_false by lra.
  rewrite Rmin_left by lra.
  cbn -[clip Rmin Rmax].
  real_fields.
Qed.

Lemma W_aggregator_default_solo :
  W_aggregator 0.5 0.35 1 (default_parameters 0.5 0.35 42) = 0.58 * 0.87 * 1.05.
Proof.
  unfold W_aggregator. rewrite cooperation_benefit_solo.
  unfold C_total. cbn. rewrite Rmax_right by lra. lra.
Qed.

Lemma sample_reproduction :
  _apply_reproduction (sample_year sample_band_aided sample_site_built)
  = Ok (sample_year sample_band_reproduced sample_site_built).
Proof.
  unfold _apply_reproduction, reproduction_body, reproduce.
  cbn -[clip Rmin Rmax binomial W_aggregator Z.add Z.sub Z.max].
  rewrite W_aggregator_default_solo.
  rewrite binomial_ok by (try lia; lra).
  cbn -[clip Rmin Rmax binomial Z.add Z.sub Z.max].
  rewrite binomial_ok by (try lia; lra).
  cbn -[clip Rmin Rmax].
  real_fields.
Qed.

(** The year completes: the band ends it at size 10 and the site at a
    monument level of [1.26144]. *)
Lemma sample_step :
  exists self1 state,
    step (sample_simulation []) = Ok (self1, state)
    /\ bands self1 = [sample_band_reproduced]
    /\ aggregation_site self1 = sample_site_built
    /\ SimulationResults.yearly_states (results self1) = [state]
    /\ YearlyState.monument_level state = 1.26144.
Proof.
  unfold step. rewrite sample_determine_shortfall.
  cbv beta iota zeta delta [bind].
  rewrite sample_dispersal, sample_decisions, sample_aggregation,
    sample_mortality, sample_reproduction.
  unfold _record_state. eexists. eexists. repeat split; reflexivity.
Qed.

(* ================================================================== *)
(** * Band sizes at the yearly snapshot *)

Lemma bind_Ok {A B} (m : result A) (k : A -> result B) b :
  bind m k = Ok b -> exists a, m = Ok a /\ k a = Ok b.
Proof. destruct m as [a | e]; cbn; [eauto | discriminate]. Qed.

Lemma try_each_band_Forall {S} (P : Band -> Prop)
  (body : Band -> S -> result (Band * S)) :
  (forall b st b1 st1, body b st = Ok (b1, st1) -> P b1) ->
  forall bs st bs1 st1,
    try_each_band body bs st = Ok (bs1, st1) -> Forall P bs1.
Proof.
  intros Hbody. induction bs as [| b bs IH]; intros st bs1 st1; cbn.
  - intros E. injection E as <- <-. constructor.
  - intros E. apply bind_Ok in E as [[b1 st2] [Eb E]].
    apply bind_Ok in E as [[rest1 st3] [Er E]].
    injection E as <- <-.
    constructor; [eapply Hbody; eassumption | eapply IH; eassumption].
Qed.

Lemma clamp_band_size_floor params band :
  (min_band_size (population params) <= max_band_size (population params))%Z ->
  (min_band_size (population params) <= size (clamp_band_size params band))%Z.
Proof.
  intros Hmm. unfold clamp_band_size.
  destruct (size band <? _)%Z eqn:E1; [cbn; lia |].
  destruct (_ <? size band)%Z eqn:E2; [cbn; lia |].
  apply Z.ltb_ge in E1. exact E1.
Qed.

Lemma reproduction_body_floor {G} `{Generator G}
  (self : PovertyPointSimulation G) band rng band1 rng1 :
  (min_band_size (population (params self))
   <= max_band_size (population (params self)))%Z ->
  reproduction_body self band rng = Ok (band1, rng1) ->
  (min_band_size (population (params self)) <= size band1)%Z.
Proof.
  intros Hmm. unfold reproduction_body.
  intros E. apply bind_Ok in E as [[band2 rng2] [_ E]].
  injection E as <- <-. now apply clamp_band_size_floor.
Qed.

Lemma apply_reproduction_floor {G} `{Generator G}
  (self self1 : PovertyPointSimulation G) :
  (min_band_size (population (params self))
   <= max_band_size (population (params self)))%Z ->
  _apply_reproduction self = Ok self1 ->
  params self1 = params self
  /\ Forall (fun b => (min_band_size (population (params self)) <= size b)%Z)
       (bands self1).
Proof.
  intros Hmm. unfold _apply_reproduction.
  intros E. apply bind_Ok in E as [[bands1 rng1] [Eb E]].
  injection E as <-. split; [reflexivity |]. cbn.
  eapply try_each_band_Forall; [| exact Eb].
  intros b st b1 st1. now apply reproduction_body_floor.
Qed.

Lemma determine_shortfall_params {G} `{Generator G}
  (self self1 : PovertyPointSimulation G) :
  determine_shortfall self = Ok self1 -> params self1 = params self.
Proof.
  unfold determine_shortfall.
  destruct (0 <? shortfall_remaining self)%Z.
  - cbn. destruct (_ =? 0)%Z; intros E; injection E as <-; reflexivity.
  - intros E. apply bind_Ok in E as [[[[new_shortfall magnitude] duration] rng1] [_ E]].
    destruct new_shortfall; injection E as <-; reflexivity.
Qed.

Lemma run_dispersal_season_params {G} `{Generator G}
  (self : PovertyPointSimulation G) :
  params (_run_dispersal_season self) = params self.
Proof.
  unfold _run_dispersal_season.
  destruct (for_each_band _ _ _) as [bands1 rng1]. reflexivity.
Qed.

Lemma run_strategy_decisions_params {G} `{Generator G}
  (self : PovertyPointSimulation G) :
  params (_run_strategy_decisions self) = params self.
Proof.
  unfold _run_strategy_decisions.
  destruct (for_each_band _ _ _) as [bands1 rng1]. reflexivity.
Qed.

Lemma run_aggregation_season_params {G} `{Generator G}
  (self : PovertyPointSimulation G) :
  params (_run_aggregation_season self) = params self.
Proof.
  unfold _run_aggregation_season.
  destruct (for_each_band _ _ _) as [bands1 [[site1 total] rng1]]. reflexivity.
Qed.

Lemma apply_shortfall_mortality_params {G} `{Generator G}
  (self self1 : PovertyPointSimulation G) :
  _apply_shortfall_mortality self = Ok self1 -> params self1 = params self.
Proof.
  unfold _apply_shortfall_mortality.
  destruct (negb (in_shortfall self)).
  - intros E. injection E as <-. reflexivity.
  - intros E. apply bind_Ok in E as [[bands1 rng1] [_ E]].
    injection E as <-. reflexivity.
Qed.













(* ================================================================== *)
(** * The monument level over a run *)

Lemma for_each_band_invariant {S} (P : Band -> Prop) (Q : S -> Prop)
  (body : Band -> S -> Band * S) :
  (forall b st, P b -> Q st -> Q (snd (body b st))) ->
  forall bs st, Forall P bs -> Q st -> Q (snd (for_each_band body bs st)).
Proof.
  intros Hbody. induction bs as [| b bs IH]; intros st HP HQ; cbn; [exact HQ |].
  inversion HP as [| ? ? Hb Hbs]; subst.
  pose proof (Hbody b st Hb HQ) as HQ1.
  destruct (body b st) as [b1 st1]. cbn in HQ1.
  specialize (IH st1 Hbs HQ1).
  destruct (for_each_band body bs st1) as [rest1 st2]. exact IH.
Qed.

Lemma for_each_band_map {S A} (f : Band -> A) (body : Band -> S -> Band * S) :
  (forall b st, f (fst (body b st)) = f b) ->
  forall bs st, map f (fst (for_each_band body bs st)) = map f bs.
Proof.
  intros Hbody. induction bs as [| b bs IH]; intros st; cbn; [reflexivity |].
  pose proof (Hbody b st) as Hb.
  destruct (body b st) as [b1 st1]. cbn in Hb.
  specialize (IH st1).
  destruct (for_each_band body bs st1) as [rest1 st2]. cbn in *.
  now rewrite Hb, IH.
Qed.

Lemma try_each_band_inputs {S} (P : Band -> Prop)
  (body : Band -> S -> result (Band * S)) :
  (forall b st r, body b st = Ok r -> P b) ->
  forall bs st r, try_each_band body bs st = Ok r -> Forall P bs.
Proof.
  intros Hbody. induction bs as [| b bs IH]; intros st r; cbn; [constructor |].
  intros E. apply bind_Ok in E as [[b1 st1] [Eb E]].
  apply bind_Ok in E as [[rest1 st2] [Er _]].
  constructor; [eapply Hbody; eassumption | eapply IH; eassumption].
Qed.

Lemma binomial_Ok_size {G} `{Generator G} n p (g : G) r :
  binomial n p g = Ok r -> (0 <= n)%Z.
Proof.
  unfold binomial. destruct (n <? 0)%Z eqn:E; [discriminate |].
  intros _. now apply Z.ltb_ge in E.
Qed.

Lemma mortality_body_size {G} `{Generator G}
  (self : PovertyPointSimulation G) band rng r :
  mortality_body self band rng = Ok r -> (0 <= size band)%Z.
Proof.
  unfold mortality_body, suffer_shortfall.
  destruct (strategy band); intros E;
    apply bind_Ok in E as [[[deaths b1] g1] [E _]];
    apply bind_Ok in E as [[d g0] [E _]];
    eapply binomial_Ok_size; eassumption.
Qed.

Lemma reproduction_body_size {G} `{Generator G}
  (self : PovertyPointSimulation G) band rng r :
  reproduction_body self band rng = Ok r -> (0 <= size band)%Z.
Proof.
  unfold reproduction_body, reproduce. intros E.
  apply bind_Ok in E as [[b2 g1] [E _]].
  apply bind_Ok in E as [[births g0] [E _]].
  apply binomial_Ok_size in E. exact E.
Qed.

Lemma invest_in_monument_size {G} `{Generator G} (b : Band) rate (g : G) :
  size (snd (fst (invest_in_monument b rate g))) = size b.
Proof.
  unfold invest_in_monument. destruct (Rlt_dec _ _); [reflexivity |].
  destruct (random g). reflexivity.
Qed.

Lemma acquire_exotic_size {G} `{Generator G} (b : Band) cost (g : G) :
  size (snd (fst (acquire_exotic b cost g))) = size b.
Proof.
  unfold acquire_exotic. destruct (Rlt_dec _ _); [reflexivity |].
  destruct (random g). destruct (Rlt_dec _ _); reflexivity.
Qed.

Lemma invest_in_monument_nonneg {G} `{GeneratorLaws G} (b : Band) rate (g : G) :
  (0 <= size b)%Z -> 0 <= rate ->
  0 <= fst (fst (invest_in_monument b rate g)).
Proof.
  intros Hs Hr. unfold invest_in_monument.
  destruct (Rlt_dec (resources b) 0.3) as [| Hres]; [cbn; lra |].
  pose proof (random_range g) as Hu.
  destruct (random g) as [u g1]. cbn in *.
  apply IZR_le in Hs.
  apply Rmult_le_pos; [apply Rmult_le_pos; [apply Rmult_le_pos |] |]; lra.
Qed.

Lemma add_attending_band_level site band :
  monument_level (add_attending_band site band) = monument_level site.
Proof.
  unfold add_attending_band. destruct (existsb _ _); reflexivity.
Qed.

Lemma aggregation_body_size {G} `{Generator G}
  (self : PovertyPointSimulation G) band st :
  size (fst (aggregation_body self band st)) = size band.
Proof.
  unfold aggregation_body. destruct st as [[site total] g].
  destruct (strategy band); [| reflexivity].
  match goal with |- context [invest_in_monument ?b ?r ?g] =>
    pose proof (invest_in_monument_size b r g) as Hi;
    destruct (invest_in_monument b r g) as [[inv b3] g1] end.
  match goal with |- context [acquire_exotic ?b ?c ?g] =>
    pose proof (acquire_exotic_size b c g) as Ha;
    destruct (acquire_exotic b c g) as [[got b4] g2] end.
  cbn in Hi, Ha.
  destruct (1 <? _)%nat; [| cbn; congruence].
  destruct (filter _ _); [cbn; congruence |].
  destruct (random g2) as [u g3].
  destruct (Rlt_dec u 0.3); [| cbn; congruence].
  destruct (choice _ g3) as [pid g4]. cbn. congruence.
Qed.

Lemma aggregation_body_total {G} `{GeneratorLaws G}
  (self : PovertyPointSimulation G) (m : R) band st :
  0 <= C_signal (costs (params self)) ->
  (0 <= size band)%Z ->
  0 <= snd (fst st) /\ monument_level (fst (fst st)) = m ->
  0 <= snd (fst (snd (aggregation_body self band st)))
  /\ monument_level (fst (fst (snd (aggregation_body self band st)))) = m.
Proof.
  intros Hc Hs [Ht Hm]. unfold aggregation_body.
  destruct st as [[site total] g]. cbn in Ht, Hm.
  destruct (strategy band); [| cbn; auto].
  match goal with |- context [invest_in_monument ?b ?r ?g] =>
    pose proof (invest_in_monument_nonneg b r g Hs Hc) as Hi;
    destruct (invest_in_monument b r g) as [[inv b3] g1] end.
  destruct (acquire_exotic b3 0.1 g1) as [[got b4] g2].
  cbn in Hi.
  assert (Hgoal : 0 <= total + inv
                  /\ monument_level
                       (add_attending_band site
                          (set_resources band
                             (resources band
                              - Rmin (calculate_travel_cost band (location site) 0.0005)
                                  (resources band * 0.5)))) = m).
  { rewrite add_attending_band_level. split; [lra | exact Hm]. }
  destruct (1 <? _)%nat; [| exact Hgoal].
  destruct (filter _ _); [exact Hgoal |].
  destruct (random g2) as [u g3].
  destruct (Rlt_dec u 0.3); [| exact Hgoal].
  destruct (choice _ g3) as [pid g4]. exact Hgoal.
Qed.

Lemma run_aggregation_season_monument {G} `{GeneratorLaws G}
  (self : PovertyPointSimulation G) :
  0 <= C_signal (costs (params self)) ->
  Forall (fun b => (0 <= size b)%Z) (bands self) ->
  monument_level (aggregation_site self)
  <= monument_level (aggregation_site (_run_aggregation_season self)).
Proof.
  intros Hc Hs. unfold _run_aggregation_season.
  pose proof (for_each_band_invariant (fun b => (0 <= size b)%Z)
                (fun st => 0 <= snd (fst st)
                           /\ monument_level (fst (fst st))
                              = monument_level (aggregation_site self))
                (aggregation_body self)
                (fun b st Hb HQ => aggregation_body_total self _ b st Hc Hb HQ)
                (bands self)
                (reset_annual_state (aggregation_site self), 0, rng self)
                Hs (conj (Rle_refl 0) eq_refl)) as HQ.
  destruct (for_each_band _ _ _) as [bands1 [[site1 total] rng1]].
  cbn in HQ. destruct HQ as [Ht Hm]. cbn. lra.
Qed.

Lemma run_aggregation_season_sizes {G} `{Generator G}
  (self : PovertyPointSimulation G) :
  map size (bands (_run_aggregation_season self)) = map size (bands self).
Proof.
  unfold _run_aggregation_season.
  pose proof (for_each_band_map size (aggregation_body self)
                (aggregation_body_size self) (bands self)
                (reset_annual_state (aggregation_site self), 0, rng self)) as Hm.
  destruct (for_each_band _ _ _) as [bands1 [[site1 total] rng1]].
  exact Hm.
Qed.

Lemma run_dispersal_season_frame {G} `{Generator G}
  (self : PovertyPointSimulation G) :
  map size (bands (_run_dispersal_season self)) = map size (bands self)
  /\ aggregation_site (_run_dispersal_season self) = aggregation_site self.
Proof.
  unfold _run_dispersal_season.
  pose proof (for_each_band_map size (dispersal_body self)) as Hm.
  specialize (Hm ltac:(intros b st; unfold dispersal_body;
                       destruct (random st); reflexivity)
                (bands self) (rng self)).
  destruct (for_each_band _ _ _) as [bands1 rng1]. split; [exact Hm | reflexivity].
Qed.

Lemma run_strategy_decisions_frame {G} `{Generator G}
  (self : PovertyPointSimulation G) :
  map size (bands (_run_strategy_decisions self)) = map size (bands self)
  /\ aggregation_site (_run_strategy_decisions self) = aggregation_site self.
Proof.
  unfold _run_strategy_decisions.
  pose proof (for_each_band_map size
                (decision_body self
                   (Z.max 5 (n_attending (aggregation_site self))))) as Hm.
  specialize (Hm ltac:(intros b st; unfold decision_body;
                       destruct (decide_strategy _ _ _ _ _ _); reflexivity)
                (bands self) (rng self)).
  destruct (for_each_band _ _ _) as [bands1 rng1]. split; [exact Hm | reflexivity].
Qed.

Lemma determine_shortfall_frame {G} `{Generator G}
  (self self1 : PovertyPointSimulation G) :
  determine_shortfall self = Ok self1 ->
  bands self1 = bands self
  /\ aggregation_site self1 = aggregation_site self
  /\ results self1 = results self.
Proof.
  unfold determine_shortfall.
  destruct (0 <? shortfall_remaining self)%Z.
  - cbn. destruct (_ =? 0)%Z; intros E; injection E as <-; auto.
  - intros E.
    apply bind_Ok in E as [[[[new_shortfall magnitude] duration] rng1] [_ E]].
    destruct new_shortfall; injection E as <-; auto.
Qed.

Lemma apply_shortfall_mortality_frame {G} `{Generator G}
  (self self1 : PovertyPointSimulation G) :
  _apply_shortfall_mortality self = Ok self1 ->
  aggregation_site self1 = aggregation_site self
  /\ results self1 = results self
  /\ (in_shortfall self = true ->
      Forall (fun b => (0 <= size b)%Z) (bands self))
  /\ (in_shortfall self = false -> self1 = self).
Proof.
  unfold _apply_shortfall_mortality.
  destruct (in_shortfall self); cbn [negb].
  - intros E. apply bind_Ok in E as [[bands1 rng1] [Eb E]].
    injection E as <-. repeat split; try discriminate.
    intros _. eapply try_each_band_inputs; [| exact Eb].
    intros b st r. apply mortality_body_size.
  - intros E. injection E as <-. repeat split; auto. discriminate.
Qed.

Lemma apply_reproduction_frame {G} `{Generator G}
  (self self1 : PovertyPointSimulation G) :
  _apply_reproduction self = Ok self1 ->
  aggregation_site self1 = aggregation_site self
  /\ results self1 = results self
  /\ Forall (fun b => (0 <= size b)%Z) (bands self).
Proof.
  unfold _apply_reproduction. intros E.
  apply bind_Ok in E as [[bands1 rng1] [Eb E]].
  injection E as <-. repeat split.
  eapply try_each_band_inputs; [| exact Eb].
  intros b st r. apply reproduction_body_size.
Qed.

Lemma apply_reproduction_params {G} `{Generator G}
  (self self1 : PovertyPointSimulation G) :
  _apply_reproduction self = Ok self1 -> params self1 = params self.
Proof.
  unfold _apply_reproduction. intros E.
  apply bind_Ok in E as [[bands1 rng1] [_ E]].
  injection E as <-. reflexivity.
Qed.

Lemma Forall_map_size (l1 l2 : list Band) :
  map size l1 = map size l2 ->
  Forall (fun b => (0 <= size b)%Z) l1 ->
  Forall (fun b => (0 <= size b)%Z) l2.
Proof.
  intros E H. apply Forall_map. rewrite <- E. now apply Forall_map in H.
Qed.

Lemma step_monument {G} `{GeneratorLaws G}
  (self self1 : PovertyPointSimulation G) (state : YearlyState.t) :
  0 <= C_signal (costs (params self)) ->
  step self = Ok (self1, state) ->
  params self1 = params self
  /\ SimulationResults.yearly_states (results self1)
     = SimulationResults.yearly_states (results self) ++ [state]
  /\ YearlyState.monument_level state
     = monument_level (aggregation_site self1)
  /\ monument_level (aggregation_site self)
     <= monument_level (aggregation_site self1).
Proof.
  intros Hc. unfold step. intros E.
  apply bind_Ok in E as [self2 [E1 E]].
  apply bind_Ok in E as [self5 [E5 E]].
  apply bind_Ok in E as [self6 [E6 E]].
  pose proof (determine_shortfall_params _ _ E1) as P1.
  pose proof (apply_shortfall_mortality_params _ _ E5) as P5.
  rewrite run_aggregation_season_params, run_strategy_decisions_params,
    run_dispersal_season_params, P1 in P5.
  pose proof (apply_reproduction_params _ _ E6) as P6.
  apply determine_shortfall_frame in E1 as (B1 & S1 & R1).
  apply apply_shortfall_mortality_frame in E5 as (S5 & R5 & F5 & N5).
  apply apply_reproduction_frame in E6 as (S6 & R6 & F6).
  unfold _record_state in E. injection E as <- <-.
  cbn. rewrite P6, P5, R6, R5, S6, S5.
  set (self3 := _run_strategy_decisions (_run_dispersal_season self2)) in *.
  assert (R4 : results (_run_aggregation_season self3) = results self).
  { unfold _run_aggregation_season.
    destruct (for_each_band _ _ _) as [b [[s t] g]]. cbn.
    unfold self3, _run_strategy_decisions.
    destruct (for_each_band _ _ _) as [b' g']. cbn.
    unfold _run_dispersal_season.
    destruct (for_each_band _ _ _) as [b'' g'']. cbn. exact R1. }
  rewrite R4. repeat split.
  assert (Hsizes : Forall (fun b => (0 <= size b)%Z)
                     (bands (_run_aggregation_season self3))).
  { destruct (in_shortfall (_run_aggregation_season self3)) eqn:Es.
    - now apply F5.
    - rewrite (N5 eq_refl) in F6. exact F6. }
  apply (Forall_map_size _ (bands self3)) in Hsizes;
    [| apply run_aggregation_season_sizes].
  eapply Rle_trans; [| apply run_aggregation_season_monument].
  - unfold self3.
    rewrite (proj2 (run_strategy_decisions_frame _)),
      (proj2 (run_dispersal_season_frame _)), S1. apply Rle_refl.
  - unfold self3.
    rewrite run_strategy_decisions_params, run_dispersal_season_params, P1.
    exact Hc.
  - exact Hsizes.
Qed.

Lemma Sorted_snoc (l : list YearlyState.t) (y : YearlyState.t) :
  Sorted level_le l ->
  (forall a, In a l -> level_le a y) ->
  Sorted level_le (l ++ [y]).
Proof.
  induction l as [| a l IH]; intros Hs Hy; cbn.
  - repeat constructor.
  - apply Sorted_inv in Hs as [Hs Hd].
    constructor.
    + apply IH; [exact Hs | intros b Hb; apply Hy; now right].
    + destruct l as [| b l]; cbn.
      * constructor. apply Hy. now left.
      * constructor. now apply HdRel_inv in Hd.
Qed.

Lemma recorded_states_sorted {G} `{GeneratorLaws G} (k : nat) :
  forall self : PovertyPointSimulation G,
    0 <= C_signal (costs (params self)) ->
    Sorted level_le (SimulationResults.yearly_states (results self)) ->
    (forall a, In a (SimulationResults.yearly_states (results self)) ->
               YearlyState.monument_level a
               <= monument_level (aggregation_site self)) ->
    Sorted level_le (recorded_states k self).
Proof.
  induction k as [| k IH]; intros self Hc Hs Hb; cbn; [exact Hs |].
  destruct (step self) as [[self1 state] |] eqn:E; [| exact Hs].
  destruct (step_monument _ _ _ Hc E) as (P & Y & L & M).
  apply IH.
  - now rewrite P.
  - rewrite Y. apply Sorted_snoc; [exact Hs |].
    intros a Ha. unfold level_le. rewrite L. specialize (Hb a Ha). lra.
  - rewrite Y. intros a Ha. apply in_app_or in Ha as [Ha | [<- | []]].
    + specialize (Hb a Ha). lra.
    + rewrite L. apply Rle_refl.
Qed.

Lemma init_results {G} `{Generator G} p :
  SimulationResults.yearly_states (results (__init__ p)) = []
  /\ params (__init__ p) = p.
Proof.
  unfold __init__. destruct (create_bands _ _ _ _) as [b g]. split; reflexivity.
Qed.

(** C3: for a non-negative signalling cost and a generator within its
    documented ranges, the snapshots a run of any length records, completed
    or ended by an exception, are ordered by monument level: each snapshot's
    level is at most that of the next. *)
Theorem monument_level_never_decreases {G} `{GeneratorLaws G}
  (p : SimulationParameters) (k : nat) :
  0 <= C_signal (costs p) ->
  Sorted level_le (recorded_states k (__init__ p)).
Proof.
  intros Hc. destruct (init_results p) as [Y P].
  apply recorded_states_sorted.
  - now rewrite P.
  - rewrite Y. constructor.
  - rewrite Y. intros a [].
Qed.

Lemma run_loop_recorded {G} `{Generator G} (k : nat) :
  forall self self1 : PovertyPointSimulation G,
    run_loop k self = Ok self1 ->
    recorded_states k self = SimulationResults.yearly_states (results self1).
Proof.
  induction k as [| k IH]; intros self self1; cbn.
  - intros E. injection E as <-. reflexivity.
  - intros E. apply bind_Ok in E as [[self2 state] [E1 E]].
    rewrite E1. now apply IH.
Qed.

(** The default parameters have a signalling cost of [0.18]. *)
Lemma monument_level_never_decreases_witness :
  Sorted level_le
    (recorded_states 600 (__init__ (default_parameters 0.5 0.35 42))).
Proof.
  apply (@monument_level_never_decreases _ replay (script_generator_laws _)).
  cbn. lra.
Defined.

Ltac refund_fields :=
  unfold one_band, refund_band_aggregated, refund_band_aided,
    refund_band_reproduced, refund_site_first, refund_band_dispersed2,
    refund_band_decided2, refund_band_aggregated2, refund_band_reproduced2,
    refund_site_second;
  real_fields.

(** The acquisition probability [0.3 * (1 + p / (1 + p))] is positive for a
    prestige [p] above [-0.5]. *)
Lemma acquire_probability_positive (p : R) :
  -0.5 < p -> 0 < 0.3 * (1 + p / (1 + p)).
Proof.
  intros Hp. apply Rmult_lt_0_compat; [lra |].
  assert (Hq : -1 < p / (1 + p)).
  { apply Rmult_lt_reg_r with (1 + p); [lra |].
    unfold Rdiv. rewrite Rmult_assoc, Rinv_l by lra. lra. }
  lra.
Qed.

Lemma refund_determine_shortfall y r :
  determine_shortfall (one_band refund_parameters sample_band sample_site
                         y true 2 0.5 r)
  = Ok (one_band refund_parameters sample_band sample_site y true 1 0.5 r).
Proof. reflexivity. Qed.

Lemma refund_dispersal y r :
  _run_dispersal_season
    (one_band refund_parameters sample_band sample_site y true 1 0.5 r)
  = one_band refund_parameters sample_band_dispersed sample_site
      y true 1 0.5 r.
Proof.
  unfold _run_dispersal_season, dispersal_body.
  cbn -[clip Rmin Rmax].
  rewrite clip_id by lra.
  refund_fields.
Qed.

Lemma refund_decisions y r :
  _run_strategy_decisions
    (one_band refund_parameters sample_band_dispersed sample_site
       y true 1 0.5 r)
  = one_band refund_parameters sample_band_decided sample_site
      y true 1 0.5 r.
Proof.
  unfold _run_strategy_decisions, decision_body, decide_strategy.
  cbn -[clip Rmin Rmax W_aggregator W_independent exp].
  rewrite Rlt_dec_true
    by (apply Rdiv_lt_0_compat;
        [lra
        | match goal with
          | |- 0 < 1 + exp ?x => pose proof (exp_pos x); lra
          end]).
  reflexivity.
Qed.

Lemma refund_aggregation y r :
  _run_aggregation_season
    (one_band refund_parameters sample_band_decided sample_site
       y true 1 0.5 r)
  = one_band refund_parameters refund_band_aggregated refund_site_first
      y true 1 0.5 r.
Proof.
  unfold _run_aggregation_season, aggregation_body, calculate_travel_cost.
  cbn -[clip Rmin Rmax sqrt invest_in_monument acquire_exotic].
  replace ((250 - 250) * ((250 - 250) * 1) + (250 - 250) * ((250 - 250) * 1))
    with 0 by lra.
  rewrite sqrt_0.
  rewrite Rmin_left by lra.
  rewrite invest_in_monument_rich by (cbn; lra).
  cbn -[clip Rmin Rmax acquire_exotic].
  unfold acquire_exotic.
  cbn -[clip Rmin Rmax].
  rewrite Rlt_dec_false by lra.
  rewrite Rlt_dec_true by (apply acquire_probability_positive; lra).
  cbn -[clip Rmin Rmax].
  refund_fields.
Qed.

Lemma refund_mortality y r :
  _apply_shortfall_mortality
    (one_band refund_parameters refund_band_aggregated refund_site_first
       y true 1 0.5 r)
  = Ok (one_band refund_parameters refund_band_aided refund_site_first
          y true 1 0.5 r).
Proof.
  unfold _apply_shortfall_mortality, mortality_body, suffer_shortfall.
  cbn -[clip Rmin Rmax binomial call_obligation].
  rewrite binomial_ok by (cbn; try lia; lra).
  cbn -[clip Rmin Rmax call_obligation].
  unfold call_obligation.
  cbn -[clip Rmin Rmax].
  rewrite Rlt_dec_false by lra.
  rewrite Rmin_left by lra.
  cbn -[clip Rmin Rmax].
  refund_fields.
Qed.

Lemma W_aggregator_refund_solo :
  W_aggregator 0.5 0.35 1 refund_parameters = 0.85869.
Proof.
  unfold W_aggregator. rewrite cooperation_benefit_solo.
  unfold C_total. cbn. rewrite Rmax_right by lra. lra.
Qed.

Lemma refund_reproduction y r :
  _apply_reproduction
    (one_band refund_parameters refund_band_aided refund_site_first
       y true 1 0.5 r)
  = Ok (one_band refund_parameters refund_band_reproduced refund_site_first
          y true 1 0.5 r).
Proof.
  unfold _apply_reproduction, reproduction_body, reproduce.
  cbn -[clip Rmin Rmax binomial W_aggregator Z.add Z.sub Z.max].
  rewrite W_aggregator_refund_solo.
  rewrite binomial_ok by (try lia; lra).
  cbn -[clip Rmin Rmax binomial Z.add Z.sub Z.max].
  rewrite binomial_ok by (try lia; lra).
  cbn -[clip Rmin Rmax].
  refund_fields.
Qed.

(** The second year: the shortfall ends. *)
Lemma refund_determine_shortfall2 y r :
  determine_shortfall
    (one_band refund_parameters refund_band_reproduced refund_site_first
       y true 1 0.5 r)
  = Ok (one_band refund_parameters refund_band_reproduced refund_site_first
          y false 0 0 r).
Proof. reflexivity. Qed.

Lemma refund_dispersal2 y r :
  _run_dispersal_season
    (one_band refund_parameters refund_band_reproduced refund_site_first
       y false 0 0 r)
  = one_band refund_parameters refund_band_dispersed2 refund_site_first
      y false 0 0 r.
Proof.
  unfold _run_dispersal_season, dispersal_body.
  cbn -[clip Rmin Rmax].
  unfold clip. rewrite Rmax_left by lra. rewrite Rmin_right by lra.
  refund_fields.
Qed.

Lemma refund_decisions2 y r :
  _run_strategy_decisions
    (one_band refund_parameters refund_band_dispersed2 refund_site_first
       y false 0 0 r)
  = one_band refund_parameters refund_band_decided2 refund_site_first
      y false 0 0 r.
Proof.
  unfold _run_strategy_decisions, decision_body, decide_strategy.
  cbn -[clip Rmin Rmax W_aggregator W_independent exp].
  rewrite Rlt_dec_true
    by (apply Rdiv_lt_0_compat;
        [lra
        | match goal with
          | |- 0 < 1 + exp ?x => pose proof (exp_pos x); lra
          end]).
  reflexivity.
Qed.

Lemma refund_aggregation2 y r :
  _run_aggregation_season
    (one_band refund_parameters refund_band_decided2 refund_site_first
       y false 0 0 r)
  = one_band refund_parameters refund_band_aggregated2 refund_site_second
      y false 0 0 r.
Proof.
  unfold _run_aggregation_season, aggregation_body, calculate_travel_cost.
  cbn -[clip Rmin Rmax sqrt invest_in_monument acquire_exotic].
  replace ((250 - 250) * ((250 - 250) * 1) + (250 - 250) * ((250 - 250) * 1))
    with 0 by lra.
  rewrite sqrt_0.
  rewrite Rmin_left by lra.
  rewrite invest_in_monument_rich by (cbn; lra).
  cbn -[clip Rmin Rmax acquire_exotic].
  unfold acquire_exotic.
  cbn -[clip Rmin Rmax].
  rewrite Rlt_dec_false by lra.
  rewrite Rlt_dec_true by (apply acquire_probability_positive; lra).
  cbn -[clip Rmin Rmax].
  refund_fields.
Qed.

Lemma refund_mortality2 y r :
  _apply_shortfall_mortality
    (one_band refund_parameters refund_band_aggregated2 refund_site_second
       y false 0 0 r)
  = Ok (one_band refund_parameters refund_band_aggregated2 refund_site_second
          y false 0 0 r).
Proof. reflexivity. Qed.

Lemma refund_reproduction2 y r :
  _apply_reproduction
    (one_band refund_parameters refund_band_aggregated2 refund_site_second
       y false 0 0 r)
  = Ok (one_band refund_parameters refund_band_reproduced2 refund_site_second
          y false 0 0 r).
Proof.
  unfold _apply_reproduction, reproduction_body, reproduce.
  cbn -[clip Rmin Rmax binomial W_aggregator Z.add Z.sub Z.max].
  rewrite W_aggregator_refund_solo.
  rewrite binomial_ok by (try lia; lra).
  cbn -[clip Rmin Rmax binomial Z.add Z.sub Z.max].
  rewrite binomial_ok by (try lia; lra).
  cbn -[clip Rmin Rmax].
  refund_fields.
Qed.

Lemma refund_first_year y r :
  step (one_band refund_parameters sample_band sample_site y true 2 0.5 r)
  = Ok (one_band refund_parameters refund_band_reproduced refund_site_first
          (y + 1) true 1 0.5
          (append_yearly_state r
             (snd (_record_state
                     (one_band refund_parameters refund_band_reproduced
                        refund_site_first y true 1 0.5 r)))),
        snd (_record_state
               (one_band refund_parameters refund_band_reproduced
                  refund_site_first y true 1 0.5 r))).
Proof.
  unfold step. rewrite refund_determine_shortfall.
  cbv beta iota zeta delta [bind].
  rewrite refund_dispersal, refund_decisions, refund_aggregation,
    refund_mortality, refund_reproduction.
  reflexivity.
Qed.

Lemma refund_second_year y r :
  step (one_band refund_parameters refund_band_reproduced refund_site_first
          y true 1 0.5 r)
  = Ok (one_band refund_parameters refund_band_reproduced2 refund_site_second
          (y + 1) false 0 0
          (append_yearly_state r
             (snd (_record_state
                     (one_band refund_parameters refund_band_reproduced2
                        refund_site_second y false 0 0 r)))),
        snd (_record_state
               (one_band refund_parameters refund_band_reproduced2
                  refund_site_second y false 0 0 r))).
Proof.
  unfold step. rewrite refund_determine_shortfall2.
  cbv beta iota zeta delta [bind].
  rewrite refund_dispersal2, refund_decisions2, refund_aggregation2,
    refund_mortality2.
  cbv beta iota zeta delta [bind].
  rewrite refund_reproduction2.
  reflexivity.
Qed.

(** C3 fails for a negative signalling cost.  Neither [invest_in_monument]
    nor [record_construction] looks at the sign of the investment: at a
    cost of [-0.18] the band of ten "invests" [-1.26144] in the first year
    and [-1.44] in the second, and the level recorded by the second snapshot
    is below that of the first. *)
Lemma monument_level_decreases :
  exists first second,
    recorded_states 2
      (one_band refund_parameters sample_band sample_site 0 true 2 0.5
         (SimulationResults.mk 0.5 0.35 42 [] 0 0 0 0 0 0))
    = [first; second]
    /\ YearlyState.monument_level first = -1.26144
    /\ YearlyState.monument_level second = -2.70144
    /\ YearlyState.monument_level second < YearlyState.monument_level first.
Proof.
  cbn [recorded_states].
  rewrite refund_first_year, refund_second_year.
  eexists. eexists. split; [reflexivity |].
  cbn [_record_state snd YearlyState.monument_level aggregation_site one_band
       monument_level refund_site_first refund_site_second].
  repeat split; lra.
Qed.

(* ================================================================== *)
(** * Further properties of the fitness model *)


Lemma Rmax_0_monotone x y : x <= y -> Rmax 0 x <= Rmax 0 y.
Proof. intros. apply Rle_max_compat_l. assumption. Qed.








Lemma cooperation_benefit_uncrowded n params :
  1 < n -> n <= IZR (n_optimal params) -> 0 <= b_coop params ->
  cooperation_benefit n params = 1 + b_coop params * ln n.
Proof.
  intros H1 Hn Hb. unfold cooperation_benefit.
  destruct (Rle_dec n 1); [lra |].
  destruct (Rgt_dec n (IZR (n_optimal params))); [lra |].
  apply Rmax_right.
  assert (0 < ln n) by (rewrite <- ln_1; apply ln_increasing; lra).
  nra.
Qed.

(** X4: for a non-negative [b_coop], [cooperation_benefit] is at least 1 and
    does not decrease as the aggregation grows up to [n_optimal]. *)
Theorem cooperation_benefit_grows_to_optimum n1 n2 params :
  0 <= b_coop params ->
  n1 <= n2 -> n2 <= IZR (n_optimal params) ->
  1 <= cooperation_benefit n1 params
  /\ cooperation_benefit n1 params <= cooperation_benefit n2 params.
Proof.
  intros Hb H12 Hopt. split; [apply cooperation_benefit_ge_1 |].
  destruct (Rle_dec n1 1) as [H1 | H1].
  - replace (cooperation_benefit n1 params) with 1.
    + apply cooperation_benefit_ge_1.
    + unfold cooperation_benefit. destruct (Rle_dec n1 1); [reflexivity | lra].
  - rewrite !cooperation_benefit_uncrowded by lra.
    assert (ln n1 <= ln n2).
    { destruct (Req_dec n1 n2) as [-> | Hne]; [apply Rle_refl |].
      left. apply ln_increasing; lra. }
    nra.
Qed.

Lemma cooperation_benefit_grows_to_optimum_witness :
  1 <= cooperation_benefit 5 (cooperation (default_parameters 0.5 0.35 42))
  /\ cooperation_benefit 5 (cooperation (default_parameters 0.5 0.35 42))
     <= cooperation_benefit 25 (cooperation (default_parameters 0.5 0.35 42)).
Proof.
  apply cooperation_benefit_grows_to_optimum; cbn; lra.
Defined.

(** X3: both fitness functions are non-negative, and for parameters in
    their documented ranges neither increases with the uncertainty. *)
Theorem fitness_decreases_with_uncertainty sigma1 sigma2 epsilon n params :
  sigma1 <= sigma2 ->
  (0 <= R_ind (cooperation params) -> 0 <= beta_ind (vulnerability params) ->
   0 <= W_independent sigma2 params <= W_independent sigma1 params)
  /\ (0 <= alpha_agg (vulnerability params) -> epsilon <= 1 ->
      C_total (costs params) <= 1 -> -1 <= B_recip (cooperation params) ->
      0 <= W_aggregator sigma2 epsilon n params
        <= W_aggregator sigma1 epsilon n params).
Proof.
  intros Hs. split.
  - intros Hr Hb. unfold W_independent. cbv zeta.
    split; [apply Rmax_l | apply Rmax_0_monotone].
    assert (0 <= R_ind (cooperation params) * beta_ind (vulnerability params))
      by (apply Rmult_le_pos; assumption).
    nra.
  - intros Ha He Hc Hb. unfold W_aggregator. cbv zeta.
    split; [apply Rmax_l | apply Rmax_0_monotone].
    pose proof (cooperation_benefit_ge_1 n (cooperation params)) as Hf.
    set (f := cooperation_benefit n (cooperation params)) in *.
    assert (Hk : 0 <= (1 - C_total (costs params)) * f
                      * (1 + B_recip (cooperation params))).
    { apply Rmult_le_pos; [apply Rmult_le_pos |]; lra. }
    assert (Hsurv : alpha_agg (vulnerability params) * (sigma1 * (1 - epsilon))
                    <= alpha_agg (vulnerability params) * (sigma2 * (1 - epsilon))).
    { apply Rmult_le_compat_l; [exact Ha |].
      apply Rmult_le_compat_r; lra. }
    nra.
Qed.

Lemma fitness_decreases_with_uncertainty_witness :
  0 <= W_independent 0.7 (default_parameters 0.5 0.35 42)
    <= W_independent 0.2 (default_parameters 0.5 0.35 42)
  /\ 0 <= W_aggregator 0.7 0.35 1 (default_parameters 0.5 0.35 42)
       <= W_aggregator 0.2 0.35 1 (default_parameters 0.5 0.35 42).
Proof.
  destruct (fitness_decreases_with_uncertainty 0.2 0.7 0.35 1
              (default_parameters 0.5 0.35 42)) as [Hi Ha]; [lra |].
  split.
  - apply Hi; cbn; lra.
  - apply Ha; unfold C_total; cbn; lra.
Defined.

(* ================================================================== *)
(** * Further properties of the agents *)

Lemma dict_get_In d k v : dict_get d k = Some v -> In (k, v) d.
Proof.
  induction d as [| [k1 v1] d IH]; cbn; [discriminate |].
  destruct (k1 =? k)%Z eqn:E.
  - apply Z.eqb_eq in E. intros H. injection H as <-. subst. now left.
  - intros H. right. now apply IH.
Qed.

Lemma dict_set_Forall (P : Z * R -> Prop) d k v :
  Forall P d -> P (k, v) -> Forall P (dict_set d k v).
Proof.
  intros Hd Hv. induction d as [| [k1 v1] d IH]; cbn.
  - constructor; [exact Hv | constructor].
  - inversion Hd as [| ? ? H1 Hrest]; subst.
    destruct (k1 =? k)%Z; constructor; auto.
Qed.

Lemma dict_del_Forall (P : Z * R -> Prop) d k :
  Forall P d -> Forall P (dict_del d k).
Proof.
  intros Hd. unfold dict_del. induction Hd as [| kv d H1 Hrest IH]; cbn.
  - constructor.
  - destruct (negb _); [constructor |]; assumption.
Qed.

Lemma dict_keys_set_In d k v x :
  In x (dict_keys (dict_set d k v)) -> x = k \/ In x (dict_keys d).
Proof.
  unfold dict_keys. induction d as [| [k1 v1] d IH]; cbn.
  - intros [<- | []]. now left.
  - destruct (k1 =? k)%Z eqn:E; cbn.
    + intros [<- | H]; [now left | right; now right].
    + intros [<- | H]; [right; now left |].
      destruct (IH H); [now left | right; now right].
Qed.

Lemma dict_set_NoDup d k v :
  NoDup (dict_keys d) -> NoDup (dict_keys (dict_set d k v)).
Proof.
  unfold dict_keys. induction d as [| [k1 v1] d IH]; cbn; intros Hd.
  - constructor; [intros [] | constructor].
  - inversion Hd as [| ? ? Hnin Hrest]; subst.
    destruct (k1 =? k)%Z eqn:E; cbn.
    + apply Z.eqb_eq in E. subst k1. constructor; assumption.
    + constructor; [| now apply IH].
      intros Hin. apply dict_keys_set_In in Hin as [-> | Hin].
      * rewrite Z.eqb_refl in E. discriminate.
      * contradiction.
Qed.

Lemma dict_del_NoDup d k :
  NoDup (dict_keys d) -> NoDup (dict_keys (dict_del d k)).
Proof.
  unfold dict_keys, dict_del. induction d as [| [k1 v1] d IH]; cbn; intros Hd.
  - constructor.
  - inversion Hd as [| ? ? Hnin Hrest]; subst.
    destruct (negb _); cbn; [| now apply IH].
    constructor; [| now apply IH].
    intros Hin. apply Hnin. apply in_map_iff in Hin as [kv [Ek Hin]].
    apply filter_In in Hin as [Hin _]. apply in_map_iff. now exists kv.
Qed.

Lemma dict_del_set d k v : dict_del (dict_set d k v) k = dict_del d k.
Proof.
  unfold dict_del. induction d as [| [k1 v1] d IH]; cbn.
  - now rewrite Z.eqb_refl.
  - destruct (k1 =? k)%Z eqn:E; cbn.
    + rewrite Z.eqb_refl. cbn. reflexivity.
    + rewrite E. cbn. now rewrite IH.
Qed.

Lemma strengths_bounded_get d k s :
  strengths_bounded d -> dict_get d k = Some s -> 0.05 <= s <= 1.
Proof.
  intros Hb E. apply dict_get_In in E.
  unfold strengths_bounded in Hb. rewrite Forall_forall in Hb.
  exact (Hb _ E).
Qed.

(** X5: obligation strengths stay in [[0.05, 1]] and partner ids stay
    distinct: [form_obligation] with a strength of at least [0.05] and
    [call_obligation] both keep the two properties. *)
Theorem obligations_stay_bounded (self : Band) (partner_id : Z)
  (strength need : R) :
  strengths_bounded (obligations self) ->
  NoDup (dict_keys (obligations self)) ->
  (0.05 <= strength ->
   strengths_bounded (obligations (form_obligation self partner_id strength))
   /\ NoDup (dict_keys (obligations (form_obligation self partner_id strength))))
  /\ strengths_bounded
       (obligations (snd (call_obligation self partner_id need)))
  /\ NoDup (dict_keys (obligations (snd (call_obligation self partner_id need)))).
Proof.
  intros Hb Hn. split.
  - intros Hs. unfold form_obligation. cbn [obligations set_obligations].
    split; [| now apply dict_set_NoDup].
    apply dict_set_Forall; [exact Hb |]. cbn [snd].
    destruct (dict_get (obligations self) partner_id) as [s |] eqn:E.
    + pose proof (strengths_bounded_get _ _ _ Hb E).
      unfold Rmin. destruct (Rle_dec 1 (s + strength)); lra.
    + unfold Rmin. destruct (Rle_dec 1 strength); lra.
  - unfold call_obligation.
    destruct (dict_get (obligations self) partner_id) as [s |] eqn:E;
      [| split; assumption].
    cbn [snd obligations set_obligations].
    pose proof (strengths_bounded_get _ _ _ Hb E).
    destruct (Rlt_dec (s * 0.7) 0.05).
    + rewrite dict_del_set. split.
      * now apply dict_del_Forall.
      * now apply dict_del_NoDup.
    + split.
      * apply dict_set_Forall; [exact Hb | cbn; lra].
      * now apply dict_set_NoDup.
Qed.

Lemma obligations_stay_bounded_witness :
  (strengths_bounded (obligations (form_obligation sample_band 2 0.1))
   /\ NoDup (dict_keys (obligations (form_obligation sample_band 2 0.1))))
  /\ strengths_bounded (obligations (snd (call_obligation sample_band 1 0.2)))
  /\ NoDup (dict_keys (obligations (snd (call_obligation sample_band 1 0.2)))).
Proof.
  assert (Hb : strengths_bounded (obligations sample_band)).
  { repeat constructor; cbn; lra. }
  assert (Hn : NoDup (dict_keys (obligations sample_band))).
  { repeat constructor. intros []. }
  split.
  - apply (proj1 (obligations_stay_bounded sample_band 2 0.1 0.2 Hb Hn)). lra.
  - apply (proj2 (obligations_stay_bounded sample_band 1 0.1 0.2 Hb Hn)).
Defined.

(** X6: an obligation formed with a new partner at a strength in
    [[0.1, 1]] and called at once gives [min(need, strength / 2)] and is
    left at [0.7] of its strength. *)
Theorem form_then_call_obligation (self : Band) (partner_id : Z)
  (strength need : R) :
  dict_get (obligations self) partner_id = None ->
  0.1 <= strength <= 1 ->
  fst (call_obligation (form_obligation self partner_id strength)
         partner_id need)
  = Rmin need (strength * 0.5)
  /\ dict_get
       (obligations
          (snd (call_obligation (form_obligation self partner_id strength)
                  partner_id need)))
       partner_id
     = Some (strength * 0.7).
Proof.
  intros Hnone Hs.
  assert (E : dict_get (obligations (form_obligation self partner_id strength))
                partner_id = Some strength).
  { unfold form_obligation. cbn [obligations set_obligations].
    rewrite dict_get_set_same, Hnone. f_equal. apply Rmin_right. lra. }
  unfold call_obligation. rewrite E. cbn [fst snd obligations set_obligations].
  split; [reflexivity |].
  destruct (Rlt_dec (strength * 0.7) 0.05); [lra |].
  apply dict_get_set_same.
Qed.

Lemma form_then_call_obligation_witness :
  fst (call_obligation (form_obligation sample_band 2 0.1) 2 0.2)
  = Rmin 0.2 (0.1 * 0.5)
  /\ dict_get
       (obligations (snd (call_obligation (form_obligation sample_band 2 0.1)
                            2 0.2))) 2
     = Some (0.1 * 0.7).
Proof.
  apply form_then_call_obligation; [reflexivity | lra].
Defined.

Lemma existsb_eqb_In (x : Z) (l : list Z) :
  existsb (Z.eqb x) l = true <-> In x l.
Proof.
  rewrite existsb_exists. split.
  - intros [y [Hy E]]. apply Z.eqb_eq in E. now subst.
  - intros H. exists x. split; [exact H | apply Z.eqb_refl].
Qed.

(** X7: registering a band puts its id on the attendance list once,
    however often it is registered, keeps the ids distinct and leaves the
    monument untouched. *)
Theorem add_attending_band_once (self : AggregationSite) (band again : Band) :
  band_id again = band_id band ->
  NoDup (attending_bands self) ->
  In (band_id band) (attending_bands (add_attending_band self band))
  /\ add_attending_band (add_attending_band self band) again
     = add_attending_band self band
  /\ NoDup (attending_bands (add_attending_band self band))
  /\ monument_level (add_attending_band self band) = monument_level self
  /\ monument_history (add_attending_band self band) = monument_history self.
Proof.
  intros Hid Hn.
  assert (Hin : In (band_id band)
                  (attending_bands (add_attending_band self band))).
  { unfold add_attending_band.
    destruct (existsb _ _) eqn:E.
    - now apply existsb_eqb_In.
    - cbn. apply in_or_app. right. now left. }
  split; [exact Hin |]. split; [| split; [| split]].
  - unfold add_attending_band at 1. rewrite Hid.
    apply existsb_eqb_In in Hin. now rewrite Hin.
  - unfold add_attending_band. destruct (existsb _ _) eqn:E; [exact Hn |].
    cbn. apply NoDup_app; [exact Hn | repeat constructor; intros [] |].
    intros x Hx [<- | []].
    apply existsb_eqb_In in Hx. congruence.
  - unfold add_attending_band. destruct (existsb _ _); reflexivity.
  - unfold add_attending_band. destruct (existsb _ _); reflexivity.
Qed.

Lemma add_attending_band_once_witness :
  In (band_id sample_band)
    (attending_bands (add_attending_band (reset_annual_state sample_site)
                        sample_band))
  /\ add_attending_band
       (add_attending_band (reset_annual_state sample_site) sample_band)
       sample_band_aided
     = add_attending_band (reset_annual_state sample_site) sample_band
  /\ NoDup (attending_bands
              (add_attending_band (reset_annual_state sample_site) sample_band))
  /\ monument_level
       (add_attending_band (reset_annual_state sample_site) sample_band)
     = monument_level (reset_annual_state sample_site)
  /\ monument_history
       (add_attending_band (reset_annual_state sample_site) sample_band)
     = monument_history (reset_annual_state sample_site).
Proof.
  apply add_attending_band_once; [reflexivity | constructor].
Defined.







Lemma int64_id (z : Z) : (- 2 ^ 63 <= z < 2 ^ 63)%Z -> int64 z = z.
Proof.
  intros Hz. unfold int64. rewrite Z.mod_small; lia.
Qed.

Lemma create_bands_from_spec {G} `{GeneratorLaws G} (count : nat) :
  forall (i initial_size : Z) (region_size : R) (rng : G),
    let bands := fst (create_bands_from i count initial_size region_size rng) in
    map band_id bands = map (fun j => (i + Z.of_nat j)%Z) (seq 0 count)
    /\ Forall (fun b =>
                 (exists d, (-5 <= d <= 5)%Z
                            /\ size b = int64 (initial_size + d))
                 /\ 0.4 <= resources b < 0.6
                 /\ prestige b = 0
                 /\ monument_contributions b = 0
                 /\ exotic_goods b = 0%Z
                 /\ obligations b = []
                 /\ aggregation_history b = []
                 /\ fitness_history b = []
                 /\ strategy_history b = []) bands.
Proof.
  induction count as [| count IH]; intros i initial_size region_size rng.
  - cbn. split; constructor.
  - cbn [create_bands_from].
    destruct (uniform 0 region_size rng) as [x rng1].
    destruct (uniform 0 region_size rng1) as [y rng2].
    destruct (random rng2) as [u rng3].
    pose proof (integers_range (-5) 6 rng3 ltac:(lia)) as Hd.
    destruct (integers (-5) 6 rng3) as [d rng4].
    pose proof (random_range rng4) as Hr.
    destruct (random rng4) as [r rng5].
    specialize (IH (i + 1)%Z initial_size region_size rng5).
    destruct (create_bands_from (i + 1) count initial_size region_size rng5)
      as [bands rng6].
    cbn in IH, Hd, Hr |- *. destruct IH as [Hid Hall].
    split.
    + f_equal; [lia |]. rewrite Hid. rewrite <- seq_shift, map_map.
      apply map_ext. intros j. lia.
    + constructor; [| exact Hall].
      cbn. split; [exists d; split; [lia | reflexivity] |].
      repeat split; try reflexivity; lra.
Qed.



(* ================================================================== *)
(** * Further properties of the annual cycle *)

Lemma filter_length_le {A} (f : A -> bool) (l : list A) :
  (length (filter f l) <= length l)%nat.
Proof.
  induction l as [| a l IH]; cbn; [lia |]. destruct (f a); cbn; lia.
Qed.

Lemma ratio_bounds x t : 0 < t -> - t <= x <= t -> -1 <= x / t <= 1.
Proof.
  intros Ht Hx.
  assert (E : x / t * t = x) by (field; lra).
  split; apply Rmult_le_reg_r with t; lra.
Qed.

(** X12: every snapshot [_record_state] takes counts each band as an
    aggregator or an independent, has a strategy dominance in [[-1, 1]]
    (0 without bands), and is appended to the results; the bands, the site
    and the generator are not touched. *)
Theorem record_state_consistent {G} (self : PovertyPointSimulation G) :
  let '(self1, state) := _record_state self in
  (YearlyState.n_aggregators state + YearlyState.n_independents state
   = YearlyState.n_bands state)%Z
  /\ (0 <= YearlyState.n_aggregators state)%Z
  /\ (0 <= YearlyState.n_independents state)%Z
  /\ -1 <= YearlyState.strategy_dominance state <= 1
  /\ YearlyState.n_bands state = Z.of_nat (length (bands self))
  /\ YearlyState.year state = year self
  /\ YearlyState.monument_level state = monument_level (aggregation_site self)
  /\ SimulationResults.yearly_states (results self1)
     = SimulationResults.yearly_states (results self) ++ [state]
  /\ bands self1 = bands self
  /\ aggregation_site self1 = aggregation_site self
  /\ rng self1 = rng self.
Proof.
  unfold _record_state. cbn.
  pose proof (filter_length_le
                (fun b => Strategy_eqb (strategy b) AGGREGATOR) (bands self))
    as Hle.
  set (a := length (filter _ (bands self))) in *.
  set (t := length (bands self)) in *.
  repeat split; try reflexivity; try lia.
  - destruct (0 <? Z.of_nat t)%Z eqn:E; [| lra].
    apply Z.ltb_lt in E. apply ratio_bounds; [apply IZR_lt; lia |].
    rewrite <- opp_IZR. split; apply IZR_le; lia.
  - destruct (0 <? Z.of_nat t)%Z eqn:E; [| lra].
    apply Z.ltb_lt in E. apply ratio_bounds; [apply IZR_lt; lia |].
    rewrite <- opp_IZR. split; apply IZR_le; lia.
Qed.

Lemma for_each_band_Forall2 {S} (Rel : Band -> Band -> Prop)
  (body : Band -> S -> Band * S) :
  (forall b st, Rel b (fst (body b st))) ->
  forall bs st, Forall2 Rel bs (fst (for_each_band body bs st)).
Proof.
  intros Hbody. induction bs as [| b bs IH]; intros st; cbn; [constructor |].
  pose proof (Hbody b st) as Hb.
  destruct (body b st) as [b1 st1]. cbn in Hb.
  specialize (IH st1).
  destruct (for_each_band body bs st1) as [rest1 st2]. cbn in *.
  now constructor.
Qed.

Lemma try_each_band_Forall2 {S} (Rel : Band -> Band -> Prop)
  (body : Band -> S -> result (Band * S)) :
  (forall b st b1 st1, body b st = Ok (b1, st1) -> Rel b b1) ->
  forall bs st bs1 st1,
    try_each_band body bs st = Ok (bs1, st1) -> Forall2 Rel bs bs1.
Proof.
  intros Hbody. induction bs as [| b bs IH]; intros st bs1 st1; cbn.
  - intros E. injection E as <- <-. constructor.
  - intros E. apply bind_Ok in E as [[b1 st2] [Eb E]].
    apply bind_Ok in E as [[rest1 st3] [Er E]].
    injection E as <- <-.
    constructor; [eapply Hbody; eassumption | eapply IH; eassumption].
Qed.

Lemma Forall2_compose {A} (R1 R2 R3 : A -> A -> Prop) :
  (forall a b c, R1 a b -> R2 b c -> R3 a c) ->
  forall l1 l2 l3, Forall2 R1 l1 l2 -> Forall2 R2 l2 l3 -> Forall2 R3 l1 l3.
Proof.
  intros Hc l1 l2 l3 H12. revert l3.
  induction H12 as [| a b l1 l2 Hab H12 IH]; intros l3 H23;
    inversion H23; subst; constructor; eauto.
Qed.

Lemma Forall2_refl_eq {A} (R : A -> A -> Prop) :
  (forall a, R a a) -> forall l, Forall2 R l l.
Proof. intros H l. induction l; constructor; auto. Qed.

Lemma dispersal_histories {G} `{Generator G} (self : PovertyPointSimulation G) :
  Forall2 histories_kept (bands self) (bands (_run_dispersal_season self)).
Proof.
  unfold _run_dispersal_season.
  pose proof (for_each_band_Forall2 histories_kept (dispersal_body self)) as HF.
  specialize (HF ltac:(intros b st; unfold dispersal_body;
                       destruct (random st); repeat split)
                (bands self) (rng self)).
  destruct (for_each_band _ _ _) as [bands1 rng1]. exact HF.
Qed.

Lemma decisions_histories {G} `{Generator G} (self : PovertyPointSimulation G) :
  Forall2 strategy_decided (bands self) (bands (_run_strategy_decisions self)).
Proof.
  unfold _run_strategy_decisions.
  match goal with |- context [for_each_band ?body ?bs ?st] =>
    pose proof (for_each_band_Forall2 strategy_decided body) as HF;
    specialize (HF ltac:(intros b st'; unfold decision_body;
                         destruct (decide_strategy _ _ _ _ _ _);
                         repeat split) bs st);
    destruct (for_each_band body bs st) as [bands1 rng1]
  end.
  exact HF.
Qed.

Lemma invest_in_monument_histories {G} `{Generator G} (b : Band) rate (g : G) :
  histories_kept b (snd (fst (invest_in_monument b rate g))).
Proof.
  unfold invest_in_monument. destruct (Rlt_dec _ _); [repeat split |].
  destruct (random g). repeat split.
Qed.

Lemma acquire_exotic_histories {G} `{Generator G} (b : Band) cost (g : G) :
  histories_kept b (snd (fst (acquire_exotic b cost g))).
Proof.
  unfold acquire_exotic. destruct (Rlt_dec _ _); [repeat split |].
  destruct (random g). destruct (Rlt_dec _ _); repeat split.
Qed.

Lemma aggregation_body_histories {G} `{Generator G}
  (self : PovertyPointSimulation G) band st :
  attendance_noted band (fst (aggregation_body self band st)).
Proof.
  unfold attendance_noted, aggregation_body. destruct st as [[site total] g].
  destruct (strategy band) eqn:Es; [| cbn; rewrite Es; repeat split].
  match goal with |- context [invest_in_monument ?b ?r ?g] =>
    pose proof (invest_in_monument_histories b r g) as Hi;
    destruct (invest_in_monument b r g) as [[inv b3] g1] end.
  match goal with |- context [acquire_exotic ?b ?c ?g] =>
    pose proof (acquire_exotic_histories b c g) as Ha;
    destruct (acquire_exotic b c g) as [[got b4] g2] end.
  unfold histories_kept in Hi, Ha. cbn in Hi, Ha.
  destruct Hi as (I1 & I2 & I3 & I4 & I5 & I6).
  destruct Ha as (A1 & A2 & A3 & A4 & A5 & A6).
  assert (Hb4 : band_id b4 = band_id band
                /\ home_location b4 = home_location band
                /\ strategy b4 = AGGREGATOR
                /\ strategy_history b4 = strategy_history band
                /\ aggregation_history b4 = aggregation_history band ++ [true]
                /\ fitness_history b4 = fitness_history band).
  { repeat split; congruence. }
  destruct (1 <? _)%nat; [| exact Hb4].
  destruct (filter _ _); [exact Hb4 |].
  destruct (random g2) as [u g3].
  destruct (Rlt_dec u 0.3); [| exact Hb4].
  destruct (choice _ g3) as [pid g4]. cbn. exact Hb4.
Qed.

Lemma aggregation_histories {G} `{Generator G} (self : PovertyPointSimulation G) :
  Forall2 attendance_noted (bands self) (bands (_run_aggregation_season self)).
Proof.
  unfold _run_aggregation_season.
  match goal with |- context [for_each_band ?body ?bs ?st] =>
    pose proof (for_each_band_Forall2 attendance_noted body
                  (aggregation_body_histories self) bs st) as HF;
    destruct (for_each_band body bs st) as [bands1 [[site1 total] rng1]]
  end.
  exact HF.
Qed.

Lemma call_obligation_histories (b : Band) pid need :
  histories_kept b (snd (call_obligation b pid need)).
Proof.
  unfold call_obligation. destruct (dict_get _ _); repeat split.
Qed.

Lemma mortality_body_histories {G} `{Generator G}
  (self : PovertyPointSimulation G) b st b1 st1 :
  mortality_body self b st = Ok (b1, st1) -> histories_kept b b1.
Proof.
  unfold mortality_body, suffer_shortfall. intros E.
  destruct (strategy b) eqn:Es.
  - apply bind_Ok in E as [[[deaths b2] g1] [E1 E]].
    apply bind_Ok in E1 as [[d g0] [_ E1]]. injection E1 as <- <- <-.
    cbn in E. rewrite Es in E.
    destruct (obligations b) eqn:Eo.
    + injection E as <- <-. repeat split.
    + destruct (choice _ g0) as [pid g2].
      match type of E with context [call_obligation ?x ?p ?n] =>
        pose proof (call_obligation_histories x p n) as Hc;
        destruct (call_obligation x p n) as [help b3] end.
      injection E as <- <-. unfold histories_kept in *. cbn in *. exact Hc.
  - apply bind_Ok in E as [[[deaths b2] g1] [E1 E]].
    apply bind_Ok in E1 as [[d g0] [_ E1]]. injection E1 as <- <- <-.
    cbn in E. rewrite Es in E. injection E as <- <-. repeat split.
Qed.

Lemma mortality_histories {G} `{Generator G}
  (self self1 : PovertyPointSimulation G) :
  _apply_shortfall_mortality self = Ok self1 ->
  Forall2 histories_kept (bands self) (bands self1).
Proof.
  unfold _apply_shortfall_mortality.
  destruct (negb (in_shortfall self)).
  - intros E. injection E as <-. apply Forall2_refl_eq. intros a. repeat split.
  - intros E. apply bind_Ok in E as [[bands1 rng1] [Eb E]].
    injection E as <-. cbn.
    eapply try_each_band_Forall2; [| exact Eb].
    intros b st b1 st1. apply mortality_body_histories.
Qed.

Lemma W_aggregator_nonneg sigma epsilon n params :
  0 <= W_aggregator sigma epsilon n params.
Proof. unfold W_aggregator. cbv zeta. apply Rmax_l. Qed.

Lemma W_independent_nonneg sigma params : 0 <= W_independent sigma params.
Proof. unfold W_independent. cbv zeta. apply Rmax_l. Qed.

Lemma reproduction_body_histories {G} `{Generator G}
  (self : PovertyPointSimulation G) b st b1 st1 :
  reproduction_body self b st = Ok (b1, st1) -> fitness_noted b b1.
Proof.
  unfold fitness_noted, reproduction_body, reproduce. intros E.
  apply bind_Ok in E as [[b2 g1] [E1 E]].
  apply bind_Ok in E1 as [[births g0] [_ E1]].
  apply bind_Ok in E1 as [[deaths g2] [_ E1]].
  injection E1 as <- <-. injection E as <- <-.
  assert (Hc : forall p x,
             band_id (clamp_band_size p x) = band_id x
             /\ home_location (clamp_band_size p x) = home_location x
             /\ strategy (clamp_band_size p x) = strategy x
             /\ strategy_history (clamp_band_size p x) = strategy_history x
             /\ aggregation_history (clamp_band_size p x) = aggregation_history x
             /\ fitness_history (clamp_band_size p x) = fitness_history x).
  { intros p x. unfold clamp_band_size.
    destruct (_ <? _)%Z; [repeat split |]. destruct (_ <? _)%Z; repeat split. }
  match goal with |- context [clamp_band_size ?p ?x] =>
    destruct (Hc p x) as (C1 & C2 & C3 & C4 & C5 & C6) end.
  rewrite C1, C2, C3, C4, C5, C6. cbn.
  repeat split. eexists. split; [reflexivity |].
  destruct (aggregation_history b); [apply W_independent_nonneg |].
  destruct (was_aggregator b);
    [apply W_aggregator_nonneg | apply W_independent_nonneg].
Qed.

Lemma reproduction_histories {G} `{Generator G}
  (self self1 : PovertyPointSimulation G) :
  _apply_reproduction self = Ok self1 ->
  Forall2 fitness_noted (bands self) (bands self1).
Proof.
  unfold _apply_reproduction. intros E.
  apply bind_Ok in E as [[bands1 rng1] [Eb E]].
  injection E as <-. cbn.
  eapply try_each_band_Forall2; [| exact Eb].
  intros b st b1 st1. apply reproduction_body_histories.
Qed.

(** X13: a year that completes keeps every band, in order, with its id and
    home, and extends each of its three histories by one entry: the strategy
    it chose, whether that strategy was to aggregate, and a non-negative
    fitness.  The year counter advances by one and the snapshot carries the
    year that was run. *)
Theorem step_extends_histories {G} `{Generator G}
  (self self1 : PovertyPointSimulation G) (state : YearlyState.t) :
  step self = Ok (self1, state) ->
  Forall2 year_of_band (bands self) (bands self1)
  /\ year self1 = (year self + 1)%Z
  /\ YearlyState.year state = year self.
Proof.
  unfold step. intros E.
  apply bind_Ok in E as [self2 [E1 E]].
  apply bind_Ok in E as [self5 [E5 E]].
  apply bind_Ok in E as [self6 [E6 E]].
  unfold _record_state in E. injection E as <- <-. cbn.
  assert (Hy : year self6 = year self).
  { unfold _apply_reproduction in E6.
    apply bind_Ok in E6 as [[b6 g6] [_ E6]]. injection E6 as <-. cbn.
    unfold _apply_shortfall_mortality in E5.
    assert (Hy5 : year self5
                  = year (_run_aggregation_season
                            (_run_strategy_decisions
                               (_run_dispersal_season self2)))).
    { destruct (negb _); [injection E5 as <-; reflexivity |].
      apply bind_Ok in E5 as [[b5 g5] [_ E5]]. injection E5 as <-.
      reflexivity. }
    rewrite Hy5. unfold _run_aggregation_season.
    destruct (for_each_band _ _ _) as [b4 [[s4 t4] g4]]. cbn.
    unfold _run_strategy_decisions.
    destruct (for_each_band _ _ _) as [b3 g3]. cbn.
    unfold _run_dispersal_season.
    destruct (for_each_band _ _ _) as [b2 g2]. cbn.
    unfold determine_shortfall in E1.
    destruct (0 <? _)%Z.
    - cbn in E1. destruct (_ =? 0)%Z; injection E1 as <-; reflexivity.
    - apply bind_Ok in E1 as [[[[ns m] d] r1] [_ E1]].
      destruct ns; injection E1 as <-; reflexivity. }
  rewrite Hy. split; [| split; reflexivity].
  apply determine_shortfall_frame in E1 as (B1 & _ & _).
  rewrite <- B1.
  pose proof (dispersal_histories self2) as H2.
  pose proof (decisions_histories (_run_dispersal_season self2)) as H3.
  pose proof (aggregation_histories
                (_run_strategy_decisions (_run_dispersal_season self2))) as H4.
  pose proof (mortality_histories _ _ E5) as H5.
  pose proof (reproduction_histories _ _ E6) as H6.
  assert (H23 : Forall2 strategy_decided (bands self2)
                  (bands (_run_strategy_decisions (_run_dispersal_season self2)))).
  { eapply Forall2_compose; [| exact H2 | exact H3].
    unfold histories_kept, strategy_decided.
    intros a b c (A1 & A2 & A3 & A4 & A5 & A6) (B1' & B2 & B3 & B4 & B5).
    repeat split; congruence. }
  assert (H45 : Forall2 attendance_noted
                  (bands (_run_strategy_decisions (_run_dispersal_season self2)))
                  (bands self5)).
  { eapply Forall2_compose; [| exact H4 | exact H5].
    unfold histories_kept, attendance_noted.
    intros a b c (A1 & A2 & A3 & A4 & A5 & A6) (B1' & B2 & B3 & B4 & B5 & B6).
    repeat split; congruence. }
  assert (H25 : Forall2 (fun b b1 =>
                           band_id b1 = band_id b
                           /\ home_location b1 = home_location b
                           /\ strategy_history b1
                              = strategy_history b ++ [strategy b1]
                           /\ aggregation_history b1
                              = aggregation_history b
                                ++ [Strategy_eqb (strategy b1) AGGREGATOR]
                           /\ fitness_history b1 = fitness_history b)
                  (bands self2) (bands self5)).
  { eapply Forall2_compose; [| exact H23 | exact H45].
    unfold strategy_decided, attendance_noted.
    intros a b c (A1 & A2 & A3 & A4 & A5) (B1' & B2 & B3 & B4 & B5 & B6).
    repeat split; congruence. }
  eapply Forall2_compose; [| exact H25 | exact H6].
  unfold fitness_noted, year_of_band. cbv beta.
  intros a b c (A1 & A2 & A3 & A4 & A5)
    (B1' & B2 & B3 & B4 & B5 & f & B6 & B7).
  repeat split; try congruence.
  exists f. split; [congruence | exact B7].
Qed.

Lemma step_extends_histories_witness :
  exists self1 state,
    step (sample_simulation []) = Ok (self1, state)
    /\ Forall2 year_of_band (bands (sample_simulation [])) (bands self1)
    /\ year self1 = (year (sample_simulation []) + 1)%Z
    /\ YearlyState.year state = year (sample_simulation []).
Proof.
  destruct sample_step as (self1 & state & E & _).
  exists self1, state. split; [exact E |].
  exact (step_extends_histories (sample_simulation []) self1 state E).
Defined.

(* ================================================================== *)
(** * Bounds kept by the annual cycle *)

Lemma for_each_band_Forall {S} (P Q : Band -> Prop)
  (body : Band -> S -> Band * S) :
  (forall b st, P b -> Q (fst (body b st))) ->
  forall bs st, Forall P bs -> Forall Q (fst (for_each_band body bs st)).
Proof.
  intros Hbody. induction bs as [| b bs IH]; intros st HP; cbn; [constructor |].
  inversion HP as [| ? ? Hb Hbs]; subst.
  pose proof (Hbody b st Hb) as Hb1.
  destruct (body b st) as [b1 st1]. cbn in Hb1.
  specialize (IH st1 Hbs).
  destruct (for_each_band body bs st1) as [rest1 st2]. cbn in *.
  now constructor.
Qed.

Lemma try_each_band_Forall_pres {S} (P Q : Band -> Prop)
  (body : Band -> S -> result (Band * S)) :
  (forall b st b1 st1, P b -> body b st = Ok (b1, st1) -> Q b1) ->
  forall bs st bs1 st1,
    Forall P bs -> try_each_band body bs st = Ok (bs1, st1) -> Forall Q bs1.
Proof.
  intros Hbody. induction bs as [| b bs IH]; intros st bs1 st1 HP; cbn.
  - intros E. injection E as <- <-. constructor.
  - inversion HP as [| ? ? Hb Hbs]; subst.
    intros E. apply bind_Ok in E as [[b1 st2] [Eb E]].
    apply bind_Ok in E as [[rest1 st3] [Er E]].
    injection E as <- <-.
    constructor; [eapply Hbody; eassumption | eapply IH; eassumption].
Qed.

Lemma determine_shortfall_consistent {G} `{Generator G}
  (self self1 : PovertyPointSimulation G) :
  shortfall_consistent self ->
  determine_shortfall self = Ok self1 ->
  shortfall_consistent self1.
Proof.
  unfold shortfall_consistent, determine_shortfall. intros Hc.
  destruct (0 <? shortfall_remaining self)%Z eqn:E0.
  - apply Z.ltb_lt in E0. cbn [shortfall_remaining set_shortfall_remaining].
    destruct (shortfall_remaining self - 1 =? 0)%Z eqn:E1;
      intros E; injection E as <-; cbn.
    + apply Z.eqb_eq in E1. split; [lia | reflexivity].
    + apply Z.eqb_neq in E1. destruct (in_shortfall self); [| lia].
      destruct Hc as [Hr Hm]. split; [lia | exact Hm].
  - apply Z.ltb_ge in E0. intros E.
    apply bind_Ok in E as [[[[ns m] d] g1] [Eg E]].
    unfold _generate_shortfall in Eg.
    apply bind_Ok in Eg as [p [_ Eg]].
    destruct (random (rng self)) as [u g2].
    destruct (Rlt_dec u p).
    + destruct (normal 0 0.1 g2) as [noise g3].
      injection Eg as <- <- <- <-. injection E as <-. cbn.
      split; [lia | apply clip_range; lra].
    + injection Eg as <- <- <- <-. injection E as <-. cbn. exact Hc.
Qed.

Lemma dispersal_body_range {G} `{Generator G}
  (self : PovertyPointSimulation G) b st :
  strengths_bounded (obligations b) ->
  band_in_range 1 (fst (dispersal_body self b st)).
Proof.
  intros Hb. unfold dispersal_body. destruct (random st) as [u g1].
  split; [apply clip_range; lra | exact Hb].
Qed.

Lemma decision_body_range {G} `{Generator G}
  (self : PovertyPointSimulation G) n b st :
  band_in_range 1 b -> band_in_range 1 (fst (decision_body self n b st)).
Proof.
  intros Hb. unfold decision_body.
  destruct (decide_strategy _ _ _ _ _ _). exact Hb.
Qed.

Lemma invest_in_monument_range {G} `{Generator G} (b : Band) rate (g : G) :
  resources (snd (fst (invest_in_monument b rate g))) = resources b
  /\ obligations (snd (fst (invest_in_monument b rate g))) = obligations b.
Proof.
  unfold invest_in_monument. destruct (Rlt_dec _ _); [split; reflexivity |].
  destruct (random g). split; reflexivity.
Qed.

Lemma acquire_exotic_range {G} `{Generator G} (b : Band) (g : G) :
  0 <= resources b <= 1 ->
  0 <= resources (snd (fst (acquire_exotic b 0.1 g))) <= 1
  /\ obligations (snd (fst (acquire_exotic b 0.1 g))) = obligations b.
Proof.
  intros Hr. unfold acquire_exotic.
  destruct (Rlt_dec _ _); [split; [exact Hr | reflexivity] |].
  destruct (random g). destruct (Rlt_dec _ _); cbn; split;
    try reflexivity; lra.
Qed.

Lemma form_obligation_range (b : Band) pid :
  band_in_range 1 b -> band_in_range 1 (form_obligation b pid 0.1).
Proof.
  intros [Hr Hb]. split; [exact Hr |].
  unfold form_obligation. cbn [obligations set_obligations].
  apply dict_set_Forall; [exact Hb |]. cbn [snd].
  destruct (dict_get (obligations b) pid) as [s |] eqn:E.
  - pose proof (strengths_bounded_get _ _ _ Hb E).
    unfold Rmin. destruct (Rle_dec 1 (s + 0.1)); lra.
  - unfold Rmin. destruct (Rle_dec 1 0.1); lra.
Qed.

Lemma aggregation_body_range {G} `{Generator G}
  (self : PovertyPointSimulation G) b st :
  (in_shortfall self = true -> shortfall_magnitude self <= 1) ->
  band_in_range 1 b -> band_in_range 1 (fst (aggregation_body self b st)).
Proof.
  intros Hm [Hr Hb]. unfold aggregation_body. destruct st as [[site total] g].
  destruct (strategy b).
  - set (tc := calculate_travel_cost b (location site) 0.0005).
    assert (Htc : 0 <= tc).
    { unfold tc, calculate_travel_cost. apply Rmult_le_pos; [apply sqrt_pos | lra]. }
    clearbody tc.
    set (b1 := set_resources b (resources b - Rmin tc (resources b * 0.5))).
    assert (Hr1 : 0 <= resources b1 <= 1).
    { unfold b1. cbn [resources set_resources]. unfold Rmin.
      destruct (Rle_dec tc (resources b * 0.5)); lra. }
    match goal with |- context [invest_in_monument ?x ?r ?g] =>
      pose proof (invest_in_monument_range x r g) as [Hi1 Hi2];
      destruct (invest_in_monument x r g) as [[inv b3] g1] end.
    cbn in Hi1, Hi2.
    pose proof (acquire_exotic_range b3 g1) as Ha.
    rewrite Hi1 in Ha. specialize (Ha Hr1). destruct Ha as [Ha1 Ha2].
    destruct (acquire_exotic b3 0.1 g1) as [[got b4] g2]. cbn in Ha1, Ha2.
    assert (Hb4 : band_in_range 1 b4).
    { split; [exact Ha1 |]. rewrite Ha2, Hi2. exact Hb. }
    destruct (1 <? _)%nat; [| exact Hb4].
    destruct (filter _ _); [exact Hb4 |].
    destruct (random g2) as [u g3].
    destruct (Rlt_dec u 0.3); [| exact Hb4].
    destruct (choice _ g3) as [pid g4]. cbn. now apply form_obligation_range.
  - cbn [fst resources set_resources set_aggregation_history obligations].
    split; [| exact Hb].
    set (extra := 0.1 * (if in_shortfall self
                         then 1 - shortfall_magnitude self else 1)).
    assert (0 <= extra).
    { unfold extra. destruct (in_shortfall self); [specialize (Hm eq_refl)|]; lra. }
    split; [apply Rmin_glb; lra | apply Rmin_l].
Qed.

Lemma call_obligation_range (b : Band) pid :
  strengths_bounded (obligations b) ->
  0 <= fst (call_obligation b pid 0.2) <= 0.2
  /\ resources (snd (call_obligation b pid 0.2)) = resources b
  /\ strengths_bounded (obligations (snd (call_obligation b pid 0.2))).
Proof.
  intros Hb. unfold call_obligation.
  destruct (dict_get (obligations b) pid) as [s |] eqn:E.
  - pose proof (strengths_bounded_get _ _ _ Hb E).
    cbn [fst snd resources set_obligations obligations].
    split; [unfold Rmin; destruct (Rle_dec _ _); lra |].
    split; [reflexivity |].
    destruct (Rlt_dec (s * 0.7) 0.05).
    + rewrite dict_del_set. now apply dict_del_Forall.
    + apply dict_set_Forall; [exact Hb | cbn; lra].
  - cbn. repeat split; try lra. exact Hb.
Qed.

Lemma mortality_body_range {G} `{Generator G}
  (self : PovertyPointSimulation G) b st b1 st1 :
  band_in_range 1 b ->
  mortality_body self b st = Ok (b1, st1) ->
  band_in_range 1.2 b1.
Proof.
  intros [Hr Hb]. unfold mortality_body, suffer_shortfall. intros E.
  assert (Hkeep : band_in_range 1.2 b) by (split; [lra | exact Hb]).
  destruct (strategy b) eqn:Es.
  - apply bind_Ok in E as [[[deaths b2] g1] [E1 E]].
    apply bind_Ok in E1 as [[d g0] [_ E1]]. injection E1 as <- <- <-.
    cbn in E. rewrite Es in E.
    destruct (obligations b) eqn:Eo.
    + injection E as <- <-. split; cbn; [lra | rewrite Eo; constructor].
    + destruct (choice _ g0) as [pid g2].
      match type of E with context [call_obligation ?x ?p ?n] =>
        pose proof (call_obligation_range x p) as Hc;
        destruct (call_obligation x p n) as [help b3] end.
      cbn in Hc. rewrite Eo in Hc.
      destruct (Hc Hb) as (Hh & Hres & Hob).
      injection E as <- <-. split; cbn; [lra | exact Hob].
  - apply bind_Ok in E as [[[deaths b2] g1] [E1 E]].
    apply bind_Ok in E1 as [[d g0] [_ E1]]. injection E1 as <- <- <-.
    cbn in E. rewrite Es in E. injection E as <- <-. exact Hkeep.
Qed.

Lemma reproduction_body_range {G} `{Generator G}
  (self : PovertyPointSimulation G) hi b st b1 st1 :
  band_in_range hi b ->
  reproduction_body self b st = Ok (b1, st1) ->
  band_in_range hi b1.
Proof.
  intros Hb. unfold reproduction_body, reproduce. intros E.
  apply bind_Ok in E as [[b2 g1] [E1 E]].
  apply bind_Ok in E1 as [[births g0] [_ E1]].
  apply bind_Ok in E1 as [[deaths g2] [_ E1]].
  injection E1 as <- <-. injection E as <- <-.
  unfold clamp_band_size.
  destruct (_ <? _)%Z; [exact Hb |]. destruct (_ <? _)%Z; exact Hb.
Qed.

Lemma shortfall_consistent_same {G} (a b : PovertyPointSimulation G) :
  same_shortfall a b -> shortfall_consistent a -> shortfall_consistent b.
Proof.
  unfold same_shortfall, shortfall_consistent.
  intros (-> & -> & ->). exact (fun x => x).
Qed.

Lemma run_dispersal_season_shortfall {G} `{Generator G}
  (self : PovertyPointSimulation G) :
  same_shortfall self (_run_dispersal_season self).
Proof.
  unfold _run_dispersal_season. destruct (for_each_band _ _ _) as [bs g].
  repeat split.
Qed.

Lemma run_strategy_decisions_shortfall {G} `{Generator G}
  (self : PovertyPointSimulation G) :
  same_shortfall self (_run_strategy_decisions self).
Proof.
  unfold _run_strategy_decisions. destruct (for_each_band _ _ _) as [bs g].
  repeat split.
Qed.

Lemma run_aggregation_season_shortfall {G} `{Generator G}
  (self : PovertyPointSimulation G) :
  same_shortfall self (_run_aggregation_season self).
Proof.
  unfold _run_aggregation_season.
  destruct (for_each_band _ _ _) as [bs [[site total] g]].
  repeat split.
Qed.

Lemma apply_shortfall_mortality_shortfall {G} `{Generator G}
  (self self1 : PovertyPointSimulation G) :
  _apply_shortfall_mortality self = Ok self1 -> same_shortfall self self1.
Proof.
  unfold _apply_shortfall_mortality. destruct (negb _).
  - intros E. injection E as <-. repeat split.
  - intros E. apply bind_Ok in E as [[bs g] [_ E]]. injection E as <-.
    repeat split.
Qed.

Lemma apply_reproduction_shortfall {G} `{Generator G}
  (self self1 : PovertyPointSimulation G) :
  _apply_reproduction self = Ok self1 -> same_shortfall self self1.
Proof.
  unfold _apply_reproduction. intros E.
  apply bind_Ok in E as [[bs g] [_ E]]. injection E as <-. repeat split.
Qed.

Lemma run_dispersal_season_range {G} `{Generator G}
  (self : PovertyPointSimulation G) :
  Forall (fun b => strengths_bounded (obligations b)) (bands self) ->
  Forall (band_in_range 1) (bands (_run_dispersal_season self)).
Proof.
  intros Hb. unfold _run_dispersal_season.
  pose proof (for_each_band_Forall _ (band_in_range 1) (dispersal_body self)
                (dispersal_body_range self) (bands self) (rng self) Hb) as Hf.
  destruct (for_each_band _ _ _) as [bs g]. exact Hf.
Qed.

Lemma run_strategy_decisions_range {G} `{Generator G}
  (self : PovertyPointSimulation G) :
  Forall (band_in_range 1) (bands self) ->
  Forall (band_in_range 1) (bands (_run_strategy_decisions self)).
Proof.
  intros Hb. unfold _run_strategy_decisions.
  match goal with |- context [for_each_band ?body ?bs ?st] =>
    pose proof (for_each_band_Forall (band_in_range 1) (band_in_range 1) body
                  (decision_body_range self _) bs st Hb) as Hf;
    destruct (for_each_band body bs st) as [bs1 g] end.
  exact Hf.
Qed.

Lemma run_aggregation_season_range {G} `{Generator G}
  (self : PovertyPointSimulation G) :
  shortfall_consistent self ->
  Forall (band_in_range 1) (bands self) ->
  Forall (band_in_range 1) (bands (_run_aggregation_season self)).
Proof.
  intros Hc Hb. unfold _run_aggregation_season.
  assert (Hm : in_shortfall self = true -> shortfall_magnitude self <= 1).
  { unfold shortfall_consistent in Hc. intros E. rewrite E in Hc. lra. }
  match goal with |- context [for_each_band ?body ?bs ?st0] =>
    pose proof (for_each_band_Forall (band_in_range 1) (band_in_range 1) body
                  (fun b0 s0 => aggregation_body_range self b0 s0 Hm) bs st0 Hb)
      as Hf;
    destruct (for_each_band body bs st0) as [bs1 [[site total] g]] end.
  exact Hf.
Qed.

Lemma band_in_range_weaken lo hi b :
  lo <= hi -> band_in_range lo b -> band_in_range hi b.
Proof. intros Hle [Hr Hb]. split; [lra | exact Hb]. Qed.

Lemma apply_shortfall_mortality_range {G} `{Generator G}
  (self self1 : PovertyPointSimulation G) :
  Forall (band_in_range 1) (bands self) ->
  _apply_shortfall_mortality self = Ok self1 ->
  Forall (band_in_range 1.2) (bands self1).
Proof.
  intros Hb. unfold _apply_shortfall_mortality. destruct (negb _).
  - intros E. injection E as <-.
    eapply Forall_impl; [| exact Hb].
    intros b. apply band_in_range_weaken. lra.
  - intros E. apply bind_Ok in E as [[bs g] [Eb E]]. injection E as <-.
    cbn. eapply try_each_band_Forall_pres; [| exact Hb | exact Eb].
    intros b st b1 st1. apply mortality_body_range.
Qed.

Lemma apply_reproduction_range {G} `{Generator G}
  (self self1 : PovertyPointSimulation G) hi :
  Forall (band_in_range hi) (bands self) ->
  _apply_reproduction self = Ok self1 ->
  Forall (band_in_range hi) (bands self1).
Proof.
  intros Hb. unfold _apply_reproduction. intros E.
  apply bind_Ok in E as [[bs g] [Eb E]]. injection E as <-.
  cbn. eapply try_each_band_Forall_pres; [| exact Hb | exact Eb].
  intros b st b1 st1. apply reproduction_body_range.
Qed.

(** X14: a year that completes from a state with a consistent shortfall
    episode and obligation strengths in [[0.05, 1]] leaves the episode
    consistent and every band with resources in [[0, 1.2]] and strengths in
    [[0.05, 1]], whatever resources the bands had before: the dispersal
    season clips them into [[0, 1]] and the aid of one called obligation
    adds at most [0.2]. *)
Theorem step_keeps_bands_in_range {G} `{Generator G}
  (self self1 : PovertyPointSimulation G) (state : YearlyState.t) :
  shortfall_consistent self ->
  Forall (fun b => strengths_bounded (obligations b)) (bands self) ->
  step self = Ok (self1, state) ->
  shortfall_consistent self1 /\ Forall (band_in_range 1.2) (bands self1).
Proof.
  intros Hc Hb. unfold step. intros E.
  apply bind_Ok in E as [s1 [E1 E]].
  apply bind_Ok in E as [s5 [E5 E]].
  apply bind_Ok in E as [s6 [E6 E]].
  unfold _record_state in E. injection E as <- _.
  pose proof (determine_shortfall_consistent _ _ Hc E1) as Hc1.
  destruct (determine_shortfall_frame _ _ E1) as (Hb1 & _ & _).
  rewrite <- Hb1 in Hb.
  set (s2 := _run_dispersal_season s1) in *.
  set (s3 := _run_strategy_decisions s2) in *.
  set (s4 := _run_aggregation_season s3) in *.
  assert (Hc3 : shortfall_consistent s3).
  { eapply shortfall_consistent_same;
      [apply run_strategy_decisions_shortfall |].
    eapply shortfall_consistent_same;
      [apply run_dispersal_season_shortfall | exact Hc1]. }
  split.
  - eapply shortfall_consistent_same with (a := s6); [repeat split |].
    eapply shortfall_consistent_same;
      [apply apply_reproduction_shortfall; exact E6 |].
    eapply shortfall_consistent_same;
      [apply apply_shortfall_mortality_shortfall; exact E5 |].
    eapply shortfall_consistent_same;
      [apply run_aggregation_season_shortfall | exact Hc3].
  - cbn [bands set_year set_results].
    eapply apply_reproduction_range; [| exact E6].
    eapply apply_shortfall_mortality_range; [| exact E5].
    apply run_aggregation_season_range; [exact Hc3 |].
    apply run_strategy_decisions_range.
    now apply run_dispersal_season_range.
Qed.

Lemma step_keeps_bands_in_range_witness :
  exists self1 state,
    step (sample_simulation []) = Ok (self1, state)
    /\ shortfall_consistent self1
    /\ Forall (band_in_range 1.2) (bands self1).
Proof.
  destruct sample_step as (self1 & state & E & _).
  exists self1, state. split; [exact E |].
  apply (step_keeps_bands_in_range (sample_simulation []) self1 state).
  - cbn. split; [lia | lra].
  - repeat constructor; cbn; lra.
  - exact E.
Defined.

(* ================================================================== *)
(** * Years that cannot raise *)

Lemma ln_below (n : R) : 1 < n -> ln n < n - 1.
Proof.
  intros Hn. rewrite <- (ln_exp (n - 1)).
  apply ln_increasing; [lra |].
  pose proof (exp_ineq1 (n - 1)). lra.
Qed.

Lemma cooperation_benefit_default_le (n : R) :
  cooperation_benefit n (mkCooperationParameters 0.08 25 0.015 0.05 1.10) <= 4.
Proof.
  unfold cooperation_benefit.
  cbn [b_coop n_optimal c_crowd].
  destruct (Rle_dec n 1); [lra |].
  assert (Hl : ln n < n - 1) by (apply ln_below; lra).
  destruct (Rgt_dec n 25); apply Rmax_lub; try lra.
  pose proof (pow2_ge_0 (n - 25 - 3)). 
  replace ((n - 25) ^ 2) with ((n - 25 - 3) ^ 2 + 6 * (n - 25) - 9) by ring.
  lra.
Qed.

Lemma try_each_band_total {S} (P : Band -> Prop)
  (body : Band -> S -> result (Band * S)) :
  (forall b st, P b -> exists r, body b st = Ok r) ->
  forall bs st, Forall P bs -> exists r, try_each_band body bs st = Ok r.
Proof.
  intros Hbody. induction bs as [| b bs IH]; intros st HP; cbn.
  - eauto.
  - inversion HP as [| ? ? Hb Hbs]; subst.
    destruct (Hbody b st Hb) as [[b1 st1] ->]. cbn.
    destruct (IH st1 Hbs) as [[rest st2] ->]. cbn. eauto.
Qed.

Lemma effective_uncertainty_range sigma0 epsilon0 :
  0 <= sigma0 <= 1 -> 0 <= epsilon0 <= 1 ->
  0 <= sigma0 * (1 - epsilon0) <= 1.
Proof. intros Hs He. nra. Qed.

Lemma mortality_body_total {G} `{Generator G}
  (self : PovertyPointSimulation G) b g :
  default_blocks (params self) -> (0 <= size b)%Z ->
  exists r, mortality_body self b g = Ok r.
Proof.
  intros (_ & Hv & _ & _ & Hs & He) Hn.
  pose proof (effective_uncertainty_range _ _ Hs He) as Heff.
  unfold mortality_body, suffer_shortfall. rewrite Hv.
  cbn [alpha_agg beta_ind].
  destruct (strategy b) eqn:Es.
  - rewrite binomial_ok by (try lia; lra).
    destruct (binomial_draw _ _ g) as [d g1]. cbn. rewrite Es.
    destruct (obligations b); [eauto |].
    destruct (choice _ g1). destruct (call_obligation _ _ _). eauto.
  - rewrite binomial_ok by (try lia; lra).
    destruct (binomial_draw _ _ g) as [d g1]. cbn. rewrite Es. eauto.
Qed.

Lemma fitness_default_range (p : SimulationParameters) (n : R) :
  default_blocks p ->
  0 <= W_aggregator (sigma p) (epsilon p) n p <= 3
  /\ 0 <= W_independent (sigma p) p <= 3.
Proof.
  intros (Hc & Hv & Hco & _ & Hs & He).
  pose proof (effective_uncertainty_range _ _ Hs He) as Heff.
  split; (split; [apply Rmax_l |]).
  - unfold W_aggregator, C_total. rewrite Hc, Hv, Hco.
    cbn [C_travel C_signal C_opportunity alpha_agg B_recip].
    pose proof (cooperation_benefit_default_le n) as Hf.
    pose proof (cooperation_benefit_ge_1 n
                  (mkCooperationParameters 0.08 25 0.015 0.05 1.10)) as Hf1.
    set (f := cooperation_benefit n _) in *.
    set (e := sigma p * (1 - epsilon p)) in *.
    clearbody f e. apply Rmax_lub; [lra |].
    assert (Hsf : (1 - 0.4 * e) * f <= 4).
    { apply Rle_trans with (1 * f); [| lra].
      apply Rmult_le_compat_r; lra. }
    match goal with |- ?a * ?s * f * ?r <= 3 =>
      replace (a * s * f * r) with (a * r * (s * f)) by ring end.
    lra.
  - unfold W_independent. rewrite Hv, Hco. cbn [R_ind beta_ind].
    apply Rmax_lub; [lra |]. nra.
Qed.

Lemma reproduction_body_total {G} `{Generator G}
  (self : PovertyPointSimulation G) b g :
  default_blocks (params self) ->
  (0 <= size b)%Z -> 0 <= resources b <= 1.2 ->
  exists r, reproduction_body self b g = Ok r.
Proof.
  intros Hp Hn Hr.
  unfold reproduction_body.
  set (n := IZR (n_attending (aggregation_site self))).
  destruct (fitness_default_range (params self) n Hp) as [Ha Hi].
  destruct Hp as (_ & _ & _ & Hpop & _ & _). rewrite Hpop.
  cbn [birth_rate death_rate].
  set (fitness := match aggregation_history b with [] => _ | _ :: _ => _ end).
  assert (Hf : 0 <= fitness <= 3).
  { unfold fitness. destruct (aggregation_history b); [exact Hi |].
    destruct (was_aggregator b); assumption. }
  clearbody fitness. unfold reproduce.
  cbn [size resources set_fitness_history].
  rewrite binomial_ok by (try lia; nra).
  destruct (binomial_draw _ _ g) as [births g1]. cbn [bind].
  rewrite binomial_ok by (try lia; lra).
  destruct (binomial_draw _ _ g1) as [deaths g2]. cbn [bind]. eauto.
Qed.

Lemma determine_shortfall_total {G} `{Generator G}
  (self : PovertyPointSimulation G) :
  default_blocks (params self) ->
  exists self1, determine_shortfall self = Ok self1.
Proof.
  intros (_ & _ & _ & _ & Hs & _).
  unfold determine_shortfall.
  destruct (0 <? shortfall_remaining self)%Z.
  - cbv zeta. destruct (_ =? 0)%Z; eauto.
  - unfold _generate_shortfall. cbv zeta. unfold fdiv.
    destruct (Req_dec_T (20 * (1 - sigma (params self)) + 5) 0) as [E | _];
      [lra |].
    cbn [bind]. destruct (random (rng self)) as [u g1].
    destruct (Rlt_dec u _).
    + destruct (normal 0 0.1 g1) as [noise g2]. cbn. eauto.
    + cbn. eauto.
Qed.

Lemma mortality_body_size_after {G} `{Generator G}
  (self : PovertyPointSimulation G) b st b1 st1 :
  mortality_body self b st = Ok (b1, st1) -> (0 <= size b1)%Z.
Proof.
  unfold mortality_body, suffer_shortfall. intros E.
  destruct (strategy b) eqn:Es.
  - apply bind_Ok in E as [[[deaths b2] g1] [E1 E]].
    apply bind_Ok in E1 as [[d g0] [_ E1]]. injection E1 as <- <- <-.
    cbn in E. rewrite Es in E.
    destruct (obligations b) eqn:Eo.
    + injection E as <- <-. cbn. lia.
    + destruct (choice _ g0) as [pid g2].
      unfold call_obligation in E. cbn [obligations set_size] in E.
      destruct (dict_get _ pid); injection E as <- <-; cbn; lia.
  - apply bind_Ok in E as [[[deaths b2] g1] [E1 E]].
    apply bind_Ok in E1 as [[d g0] [_ E1]]. injection E1 as <- <- <-.
    cbn in E. rewrite Es in E. injection E as <- <-. cbn. lia.
Qed.

Lemma apply_shortfall_mortality_total {G} `{Generator G}
  (self : PovertyPointSimulation G) :
  default_blocks (params self) ->
  Forall (fun b => (0 <= size b)%Z) (bands self) ->
  exists self1,
    _apply_shortfall_mortality self = Ok self1
    /\ Forall (fun b => (0 <= size b)%Z) (bands self1).
Proof.
  intros Hp Hn. unfold _apply_shortfall_mortality.
  destruct (negb _); [eauto |].
  destruct (try_each_band_total (fun b => (0 <= size b)%Z)
              (mortality_body self)
              (fun b st => mortality_body_total self b st Hp)
              (bands self) (rng self) Hn) as [[bs g] E].
  rewrite E. cbn [bind]. eexists. split; [reflexivity |].
  cbn [bands set_rng set_bands].
  eapply try_each_band_Forall; [| exact E].
  intros b st b1 st1. apply mortality_body_size_after.
Qed.

Lemma apply_reproduction_total {G} `{Generator G}
  (self : PovertyPointSimulation G) :
  default_blocks (params self) ->
  Forall (fun b => (0 <= size b)%Z) (bands self) ->
  Forall (band_in_range 1.2) (bands self) ->
  exists self1, _apply_reproduction self = Ok self1.
Proof.
  intros Hp Hn Hr. unfold _apply_reproduction.
  destruct (try_each_band_total
              (fun b => (0 <= size b)%Z /\ band_in_range 1.2 b)
              (reproduction_body self)
              (fun b st Hb =>
                 reproduction_body_total self b st Hp (proj1 Hb)
                   (proj1 (proj2 Hb)))
              (bands self) (rng self)) as [[bs g] E].
  { apply Forall_and; assumption. }
  rewrite E. cbn [bind]. eauto.
Qed.

(** A year from a well-formed state completes, and leaves a well-formed
    state with one more snapshot. *)
Lemma step_year_can_run {G} `{Generator G}
  (self : PovertyPointSimulation G) :
  year_can_run self ->
  exists self1 state,
    step self = Ok (self1, state)
    /\ year_can_run self1
    /\ params self1 = params self
    /\ Forall (band_in_range 1.2) (bands self1)
    /\ SimulationResults.yearly_states (results self1)
       = SimulationResults.yearly_states (results self) ++ [state].
Proof.
  intros (Hp & Hc & Hn & Hb).
  destruct (determine_shortfall_total self Hp) as [s1 E1].
  pose proof (determine_shortfall_params _ _ E1) as P1.
  pose proof (determine_shortfall_consistent _ _ Hc E1) as Hc1.
  destruct (determine_shortfall_frame _ _ E1) as (B1 & _ & R1).
  rewrite <- B1 in Hn, Hb.
  set (s2 := _run_dispersal_season s1).
  set (s3 := _run_strategy_decisions s2).
  set (s4 := _run_aggregation_season s3).
  assert (P4 : params s4 = params self).
  { unfold s4, s3, s2.
    now rewrite run_aggregation_season_params, run_strategy_decisions_params,
      run_dispersal_season_params. }
  assert (Hc3 : shortfall_consistent s3).
  { eapply shortfall_consistent_same;
      [apply run_strategy_decisions_shortfall |].
    eapply shortfall_consistent_same;
      [apply run_dispersal_season_shortfall | exact Hc1]. }
  assert (Hc4 : shortfall_consistent s4).
  { eapply shortfall_consistent_same;
      [apply run_aggregation_season_shortfall | exact Hc3]. }
  assert (Hr4 : Forall (band_in_range 1) (bands s4)).
  { apply run_aggregation_season_range; [exact Hc3 |].
    apply run_strategy_decisions_range.
    now apply run_dispersal_season_range. }
  assert (Hn4 : Forall (fun b => (0 <= size b)%Z) (bands s4)).
  { apply (Forall_map_size (bands s1)); [| exact Hn].
    unfold s4, s3, s2.
    now rewrite run_aggregation_season_sizes,
      (proj1 (run_strategy_decisions_frame _)),
      (proj1 (run_dispersal_season_frame _)). }
  assert (R4 : results s4 = results self).
  { unfold s4, _run_aggregation_season.
    destruct (for_each_band _ _ _) as [b [[s t] g]]. cbn.
    unfold s3, _run_strategy_decisions.
    destruct (for_each_band _ _ _) as [b' g']. cbn.
    unfold s2, _run_dispersal_season.
    destruct (for_each_band _ _ _) as [b'' g'']. cbn. exact R1. }
  destruct (apply_shortfall_mortality_total s4) as (s5 & E5 & Hn5);
    [now rewrite P4 | exact Hn4 |].
  pose proof (apply_shortfall_mortality_params _ _ E5) as P5.
  pose proof (apply_shortfall_mortality_range _ _ Hr4 E5) as Hr5.
  destruct (apply_shortfall_mortality_frame _ _ E5) as (_ & R5 & _).
  destruct (apply_reproduction_total s5) as [s6 E6];
    [now rewrite P5, P4 | exact Hn5 | exact Hr5 |].
  pose proof (apply_reproduction_range _ _ _ Hr5 E6) as Hr6.
  destruct (apply_reproduction_frame _ _ E6) as (_ & R6 & _).
  destruct (apply_reproduction_floor s5 s6) as [P6 Hn6]; [| exact E6 |].
  { destruct Hp as (_ & _ & _ & Hpop & _).
    rewrite P5, P4, Hpop. cbn. lia. }
  exists (set_year (fst (_record_state s6)) (year s6 + 1)),
    (snd (_record_state s6)).
  split.
  { unfold step. rewrite E1. cbn [bind]. fold s2 s3 s4.
    rewrite E5. cbn [bind]. rewrite E6. cbn [bind].
    unfold _record_state. reflexivity. }
  unfold _record_state.
  cbn [fst snd set_year set_results bands params results
       append_yearly_state SimulationResults.yearly_states].
  split; [| split; [| split]].
  - unfold year_can_run. split; [| split; [| split]].
    + cbn. now rewrite P6, P5, P4.
    + eapply shortfall_consistent_same with (a := s6); [repeat split |].
      eapply shortfall_consistent_same;
        [apply apply_reproduction_shortfall; exact E6 |].
      eapply shortfall_consistent_same;
        [apply apply_shortfall_mortality_shortfall; exact E5 | exact Hc4].
    + cbn. eapply Forall_impl; [| exact Hn6].
      intros b. rewrite P5, P4.
      destruct Hp as (_ & _ & _ & -> & _). cbn. lia.
    + cbn. eapply Forall_impl; [| exact Hr6]. now intros b [_ Ho].
  - now rewrite P6, P5, P4.
  - exact Hr6.
  - now rewrite R6, R5, R4.
Qed.

(** What a completed year does to the year counter, the parameters and the
    results. *)
Lemma step_record {G} `{Generator G}
  (self self1 : PovertyPointSimulation G) (state : YearlyState.t) :
  step self = Ok (self1, state) ->
  params self1 = params self
  /\ year self1 = (year self + 1)%Z
  /\ YearlyState.year state = year self
  /\ results self1 = append_yearly_state (results self) state.
Proof.
  unfold step. intros E.
  apply bind_Ok in E as [s1 [E1 E]].
  apply bind_Ok in E as [s5 [E5 E]].
  apply bind_Ok in E as [s6 [E6 E]].
  set (s4 := _run_aggregation_season
               (_run_strategy_decisions (_run_dispersal_season s1))) in *.
  assert (H4 : params s4 = params s1 /\ year s4 = year s1
               /\ results s4 = results s1).
  { unfold s4, _run_aggregation_season.
    destruct (for_each_band _ _ _) as [b4 [[st4 t4] g4]]. cbn.
    unfold _run_strategy_decisions.
    destruct (for_each_band _ _ _) as [b3 g3]. cbn.
    unfold _run_dispersal_season.
    destruct (for_each_band _ _ _) as [b2 g2]. cbn. repeat split. }
  assert (H1 : params s1 = params self /\ year s1 = year self
               /\ results s1 = results self).
  { unfold determine_shortfall in E1.
    destruct (0 <? _)%Z.
    - cbn in E1. destruct (_ =? 0)%Z; injection E1 as <-; repeat split.
    - apply bind_Ok in E1 as [[[[ns m] d] r1] [_ E1]].
      destruct ns; injection E1 as <-; repeat split. }
  assert (H5 : params s5 = params s4 /\ year s5 = year s4
               /\ results s5 = results s4).
  { unfold _apply_shortfall_mortality in E5.
    destruct (negb _); [injection E5 as <-; repeat split |].
    apply bind_Ok in E5 as [[b5 g5] [_ E5]]. injection E5 as <-.
    repeat split. }
  assert (H6 : params s6 = params s5 /\ year s6 = year s5
               /\ results s6 = results s5).
  { unfold _apply_reproduction in E6.
    apply bind_Ok in E6 as [[b6 g6] [_ E6]]. injection E6 as <-.
    repeat split. }
  destruct H1 as (P1 & Y1 & R1), H4 as (P4 & Y4 & R4),
           H5 as (P5 & Y5 & R5), H6 as (P6 & Y6 & R6).
  unfold _record_state in E. injection E as <- <-. cbn.
  repeat split; congruence.
Qed.

Lemma fold_append_yearly_states (states : list YearlyState.t) :
  forall r,
    fold_left append_yearly_state states r
    = SimulationResults.mk (SimulationResults.sigma r)
        (SimulationResults.epsilon r) (SimulationResults.seed r)
        (SimulationResults.yearly_states r ++ states)
        (SimulationResults.final_strategy_dominance r)
        (SimulationResults.mean_aggregation_size r)
        (SimulationResults.final_monument_level r)
        (SimulationResults.total_exotics r)
        (SimulationResults.mean_population r)
        (SimulationResults.sigma_star_theoretical r).
Proof.
  induction states as [| s states IH]; intros r; cbn [fold_left].
  - rewrite app_nil_r. now destruct r.
  - rewrite IH. cbn. now rewrite <- app_assoc.
Qed.

(** The snapshots of [k] completed years carry the years
    [year, ..., year + k - 1], in order. *)
Lemma run_loop_record {G} `{Generator G} (k : nat) :
  forall self self1 : PovertyPointSimulation G,
    run_loop k self = Ok self1 ->
    params self1 = params self
    /\ year self1 = (year self + Z.of_nat k)%Z
    /\ exists states,
         results self1 = fold_left append_yearly_state states (results self)
         /\ map YearlyState.year states
            = map (fun i => (year self + Z.of_nat i)%Z) (seq 0 k).
Proof.
  induction k as [| k IH]; intros self self1; cbn [run_loop].
  - intros E. injection E as <-. repeat split; [lia |].
    exists []. split; reflexivity.
  - intros E. apply bind_Ok in E as [[s1 st] [E1 E]].
    destruct (step_record _ _ _ E1) as (P1 & Y1 & Ys & R1).
    destruct (IH _ _ E) as (P2 & Y2 & states & R2 & Hy).
    split; [congruence |]. split; [lia |].
    exists (st :: states). split; [cbn; now rewrite <- R1 |].
    cbn [map seq]. rewrite Ys, Z.add_0_r. f_equal.
    rewrite Hy, <- seq_shift, map_map. apply map_ext.
    intros i. rewrite Y1. lia.
Qed.

Lemma run_loop_year_can_run {G} `{Generator G} (k : nat) :
  forall self : PovertyPointSimulation G,
    year_can_run self ->
    exists self1, run_loop k self = Ok self1 /\ year_can_run self1.
Proof.
  induction k as [| k IH]; intros self Hw; cbn [run_loop].
  - exists self. split; [reflexivity | exact Hw].
  - destruct (step_year_can_run self Hw) as (s1 & st & E & Hw1 & _).
    rewrite E. cbn [bind]. now apply IH.
Qed.

Lemma init_year_can_run {G} `{GeneratorLaws G} (p : SimulationParameters) :
  default_blocks p ->
  year_can_run (__init__ p)
  /\ Forall (fun b => (20 <= size b <= 30)%Z /\ prestige b = 0
                      /\ fitness_history b = [])
       (bands (__init__ p)).
Proof.
  intros Hp. unfold __init__, create_bands.
  pose proof Hp as (Hc & Hv & Hco & Hpop & Hs & He).
  match goal with |- context [create_bands_from ?i ?c ?n ?r ?g] =>
    pose proof (create_bands_from_spec c i n r g) as [_ Hb];
    destruct (create_bands_from i c n r g) as [bs g1] end.
  cbn [fst] in Hb. rewrite Hpop in Hb. cbn [initial_band_size] in Hb.
  assert (Hb' : Forall (fun b => (20 <= size b <= 30)%Z /\ prestige b = 0
                                 /\ fitness_history b = []
                                 /\ obligations b = []) bs).
  { eapply Forall_impl; [| exact Hb].
    intros b ((d & Hd & Hsz) & _ & Hpr & _ & _ & Ho & _ & Hf & _).
    rewrite int64_id in Hsz by lia. repeat split; try assumption; lia. }
  clear Hb. split; [| cbn; eapply Forall_impl; [| exact Hb'];
                      intros b (A & B & C & _); auto].
  unfold year_can_run. split; [exact Hp |]. split; [| split].
  - cbn. split; reflexivity.
  - cbn. eapply Forall_impl; [| exact Hb']. intros b [Hn _]. lia.
  - cbn. eapply Forall_impl; [| exact Hb']. intros b (_ & _ & _ & Ho).
    rewrite Ho. constructor.
Qed.

Lemma critical_threshold_returns epsilon n params :
  exists s, critical_threshold epsilon n params = Ok s.
Proof.
  unfold critical_threshold. cbv zeta.
  destruct (Rle_dec _ 0) as [| Hd]; [eauto |].
  destruct (Rle_dec _ 0); [eauto |].
  unfold fdiv. destruct (Req_dec_T _ 0) as [E | _]; [| cbn; eauto].
  exfalso. apply Hd. rewrite E. apply Rle_refl.
Qed.

Lemma compute_summary_states r b :
  SimulationResults.yearly_states (compute_summary r b)
  = SimulationResults.yearly_states r.
Proof.
  unfold compute_summary. destruct (filter _ _); reflexivity.
Qed.

Lemma init_record {G} `{Generator G} (p : SimulationParameters) :
  params (__init__ p) = p
  /\ year (__init__ p) = 0%Z
  /\ results (__init__ p)
     = SimulationResults.mk (sigma p) (epsilon p) (seed p) [] 0 0 0 0 0 0.
Proof.
  unfold __init__. destruct (create_bands _ _ _ _) as [b g].
  repeat split.
Qed.

(** What [run] returns, when it returns: the results of the loop,
    summarised, with the theoretical threshold. *)
Lemma run_returns {G} `{Generator G} (p : SimulationParameters)
  (results1 : SimulationResults.t) :
  run (__init__ p) = Ok results1 ->
  exists states sigma_star,
    map YearlyState.year states
    = map Z.of_nat (seq 0 (Z.to_nat (duration p)))
    /\ results1
       = set_sigma_star_theoretical
           (compute_summary
              (SimulationResults.mk (sigma p) (epsilon p) (seed p) states
                 0 0 0 0 0 0)
              (burn_in p))
           sigma_star.
Proof.
  destruct (init_record p) as (P0 & Y0 & R0).
  unfold run. rewrite P0. intros E.
  apply bind_Ok in E as [s1 [E1 E]].
  apply bind_Ok in E as [sigma_star [_ E]]. injection E as <-.
  destruct (run_loop_record _ _ _ E1) as (P1 & _ & states & R1 & Hy).
  exists states, sigma_star. split.
  - rewrite Hy, Y0. apply map_ext. intros i. lia.
  - rewrite P1, P0, R1, R0, fold_append_yearly_states. reflexivity.
Qed.

Lemma run_total {G} `{GeneratorLaws G} (p : SimulationParameters) :
  default_blocks p -> exists results1, run (__init__ p) = Ok results1.
Proof.
  intros Hp. destruct (init_year_can_run p Hp) as [Hw _].
  unfold run.
  destruct (run_loop_year_can_run
              (Z.to_nat (duration (params (__init__ p)))) _ Hw)
    as (s1 & E & _).
  rewrite E. cbn [bind].
  destruct (critical_threshold_returns (epsilon (params s1))
              (IZR (n_optimal (cooperation (params s1)))) (params s1))
    as [s Es].
  rewrite Es. cbn [bind]. eauto.
Qed.



















(* ================================================================== *)
(** * The summary of a run *)

Lemma filter_none {A} (f : A -> bool) (l : list A) :
  Forall (fun x => f x = false) l -> filter f l = [].
Proof.
  induction 1 as [| x l Hx _ IH]; [reflexivity |]. cbn. now rewrite Hx.
Qed.

(** X17: a run no longer than its burn-in reports no summary: every
    snapshot is before the burn-in year, [compute_summary] returns early,
    and the five summary statistics keep their initial value 0 whatever the
    run did. *)
Theorem short_run_reports_no_summary {G} `{Generator G}
  (p : SimulationParameters) (results1 : SimulationResults.t) :
  (duration p <= burn_in p)%Z ->
  run (__init__ p) = Ok results1 ->
  SimulationResults.final_strategy_dominance results1 = 0
  /\ SimulationResults.mean_aggregation_size results1 = 0
  /\ SimulationResults.final_monument_level results1 = 0
  /\ SimulationResults.total_exotics results1 = 0%Z
  /\ SimulationResults.mean_population results1 = 0.
Proof.
  intros Hd E.
  destruct (run_returns p results1 E) as (states & s & Hy & ->).
  unfold compute_summary. cbn [SimulationResults.yearly_states].
  rewrite filter_none; [cbn; repeat split |].
  apply Forall_forall. intros st Hin.
  apply Z.leb_gt.
  assert (Hin' : In (YearlyState.year st) (map YearlyState.year states))
    by now apply in_map.
  rewrite Hy in Hin'. apply in_map_iff in Hin' as [i [Hi Hs]].
  apply in_seq in Hs. lia.
Qed.

Lemma short_run_reports_no_summary_witness :
  exists results1,
    run (__init__ short_run_parameters) = Ok results1
    /\ length (SimulationResults.yearly_states results1) = 1%nat
    /\ SimulationResults.final_monument_level results1 = 0
    /\ SimulationResults.mean_population results1 = 0.
Proof.
  destruct (@run_total _ replay (script_generator_laws _)
              short_run_parameters) as [results1 E].
  { unfold default_blocks. cbn. repeat split; lra. }
  exists results1. split; [exact E |].
  destruct (@short_run_reports_no_summary _ replay short_run_parameters
              results1 ltac:(cbn; lia) E) as (_ & _ & A & _ & B).
  destruct (run_returns _ _ E) as (states & s & Hy & ->).
  split; [| split; [exact A | exact B]].
  cbn [SimulationResults.yearly_states set_sigma_star_theoretical].
  rewrite compute_summary_states. cbn.
  apply (f_equal (@length Z)) in Hy. now rewrite length_map in Hy.
Defined.

(** X18: a run longer than its burn-in takes [final_monument_level] and
    [total_exotics] from the snapshot of its last year: the snapshots carry
    the years in order, so the last snapshot at or after the burn-in year is
    the last one recorded. *)
Theorem run_summary_reads_last_year {G} `{Generator G}
  (p : SimulationParameters) (results1 : SimulationResults.t) :
  (0 < duration p)%Z -> (burn_in p < duration p)%Z ->
  run (__init__ p) = Ok results1 ->
  exists earlier final,
    SimulationResults.yearly_states results1 = earlier ++ [final]
    /\ YearlyState.year final = (duration p - 1)%Z
    /\ SimulationResults.final_monument_level results1
       = YearlyState.monument_level final
    /\ SimulationResults.total_exotics results1
       = YearlyState.total_exotics final.
Proof.
  intros Hd Hb E.
  destruct (run_returns p results1 E) as (states & s & Hy & ->).
  destruct (Z.to_nat (duration p)) as [| k] eqn:Ek; [lia |].
  destruct (exists_last (l := states)) as (earlier & final & ->).
  { intros ->. discriminate Hy. }
  rewrite seq_S, !map_app in Hy. cbn [map] in Hy.
  apply app_inj_tail in Hy as [_ Hy]. cbn in Hy.
  exists earlier, final.
  cbn [SimulationResults.yearly_states set_sigma_star_theoretical
       SimulationResults.final_monument_level SimulationResults.total_exotics].
  rewrite compute_summary_states. cbn [SimulationResults.yearly_states].
  split; [reflexivity |]. split; [lia |].
  unfold compute_summary. cbn [SimulationResults.yearly_states].
  rewrite filter_app. cbn [filter].
  replace (burn_in p <=? YearlyState.year final)%Z with true
    by (symmetry; apply Z.leb_le; lia).
  destruct (filter _ earlier ++ [final]) as [| first rest] eqn:Ef.
  { now destruct (filter _ earlier). }
  rewrite <- Ef, last_last. split; reflexivity.
Qed.

Lemma run_summary_reads_last_year_witness :
  exists results1 earlier final,
    run (__init__ (default_parameters 0.5 0.35 42)) = Ok results1
    /\ SimulationResults.yearly_states results1 = earlier ++ [final]
    /\ YearlyState.year final = 599%Z
    /\ SimulationResults.final_monument_level results1
       = YearlyState.monument_level final
    /\ SimulationResults.total_exotics results1
       = YearlyState.total_exotics final.
Proof.
  destruct (@run_total _ replay (script_generator_laws _)
              (default_parameters 0.5 0.35 42)) as [results1 E].
  { unfold default_blocks. cbn. repeat split; lra. }
  destruct (@run_summary_reads_last_year _ replay
              (default_parameters 0.5 0.35 42) results1
              ltac:(cbn; lia) ltac:(cbn; lia) E)
    as (earlier & final & A & B & C & D).
  exists results1, earlier, final. repeat split; assumption.
Defined.

(* ================================================================== *)
(** * Attendance at the aggregation site *)

(** What the body of the aggregation loop does to the attendance list. *)
Lemma aggregation_body_attending {G} `{Generator G}
  (self : PovertyPointSimulation G) band site total (g : G) :
  attending_bands (fst (fst (snd (aggregation_body self band (site, total, g)))))
  = if is_aggregator band
    then if existsb (Z.eqb (band_id band)) (attending_bands site)
         then attending_bands site
         else attending_bands site ++ [band_id band]
    else attending_bands site.
Proof.
  unfold aggregation_body, is_aggregator.
  destruct (strategy band); [| reflexivity]. cbn [Strategy_eqb].
  set (b1 := set_resources band _).
  set (site1 := add_attending_band site b1).
  assert (Hs : attending_bands site1
               = if existsb (Z.eqb (band_id band)) (attending_bands site)
                 then attending_bands site
                 else attending_bands site ++ [band_id band]).
  { unfold site1, add_attending_band. cbn [band_id b1 set_resources].
    destruct (existsb _ _); reflexivity. }
  clearbody site1.
  destruct (invest_in_monument _ _ _) as [[inv b3] g1].
  destruct (acquire_exotic _ _ _) as [[got b4] g2].
  destruct (1 <? _)%nat; [| exact Hs].
  destruct (filter _ _); [exact Hs |].
  destruct (random g2) as [u g3].
  destruct (Rlt_dec u 0.3); [| exact Hs].
  destruct (choice _ g3). exact Hs.
Qed.

Lemma aggregation_loop_attending {G} `{Generator G}
  (self : PovertyPointSimulation G) (bs : list Band) :
  forall site total (g : G),
    NoDup (attending_bands site ++ map band_id (filter is_aggregator bs)) ->
    attending_bands
      (fst (fst (snd (for_each_band (aggregation_body self) bs
                        (site, total, g)))))
    = attending_bands site ++ map band_id (filter is_aggregator bs).
Proof.
  induction bs as [| b bs IH]; intros site total g Hn; cbn [for_each_band].
  - cbn. now rewrite app_nil_r.
  - pose proof (aggregation_body_attending self b site total g) as Hb.
    destruct (aggregation_body self b (site, total, g))
      as [b1 [[site1 total1] g1]].
    cbn [fst snd] in Hb.
    specialize (IH site1 total1 g1).
    destruct (for_each_band _ bs _) as [rest [[site2 total2] g2]].
    cbn [fst snd] in *. cbn [filter] in Hn |- *.
    destruct (is_aggregator b).
    + cbn [map] in Hn |- *.
      destruct (existsb _ _) eqn:Ex.
      * exfalso. apply existsb_eqb_In in Ex.
        apply NoDup_remove_2 in Hn. apply Hn.
        apply in_or_app. now left.
      * rewrite Hb in IH.
        rewrite <- app_assoc in IH. cbn [app] in IH. now apply IH.
    + rewrite Hb in IH. now apply IH.
Qed.

Lemma band_ids_filter_NoDup (keep : Band -> bool) (bs : list Band) :
  NoDup (map band_id bs) -> NoDup (map band_id (filter keep bs)).
Proof.
  intros Hn. induction bs as [| b bs IH]; cbn; [constructor |].
  cbn in Hn. apply NoDup_cons_iff in Hn as [Hnew Hrest].
  destruct (keep b); [| exact (IH Hrest)].
  cbn. apply NoDup_cons; [| exact (IH Hrest)].
  intros Hc. apply Hnew.
  apply in_map_iff in Hc as [b' [Hid Hb']].
  apply filter_In in Hb' as [Hb' _].
  rewrite <- Hid. now apply in_map.
Qed.

Lemma run_aggregation_season_attending {G} `{Generator G}
  (self : PovertyPointSimulation G) :
  NoDup (map band_id (bands self)) ->
  attending_bands (aggregation_site (_run_aggregation_season self))
  = map band_id (filter is_aggregator (bands self)).
Proof.
  intros Hn. unfold _run_aggregation_season.
  pose proof (aggregation_loop_attending self (bands self)
                (reset_annual_state (aggregation_site self)) 0 (rng self))
    as Hl.
  destruct (for_each_band _ _ _) as [bs1 [[site1 total] g1]].
  cbn [fst snd] in Hl. cbn. apply Hl. cbn.
  now apply band_ids_filter_NoDup.
Qed.

Lemma same_band_lists (l l1 : list Band) :
  Forall2 same_band l l1 ->
  map band_id l1 = map band_id l
  /\ map band_id (filter is_aggregator l1)
     = map band_id (filter is_aggregator l).
Proof.
  induction 1 as [| b b1 l l1 [Hi Hs] _ [IH1 IH2]]; [split; reflexivity |].
  cbn [map filter].
  assert (Ha : is_aggregator b1 = is_aggregator b)
    by (unfold is_aggregator; now rewrite Hs).
  rewrite Ha. split; [now rewrite Hi, IH1 |].
  destruct (is_aggregator b); cbn [map]; now rewrite ?Hi, IH2.
Qed.

Lemma Forall2_weaken {A} (R1 R2 : A -> A -> Prop) :
  (forall a b, R1 a b -> R2 a b) ->
  forall l1 l2, Forall2 R1 l1 l2 -> Forall2 R2 l1 l2.
Proof. intros Hw l1 l2. induction 1; constructor; auto. Qed.

(** X19: when the bands' ids are distinct, a year that completes leaves on
    the site's attendance list the ids of the bands that chose to aggregate,
    in band order, so that the snapshot's [aggregation_size] is its
    [n_aggregators]; the ids stay distinct. *)
Theorem snapshot_attendance_counts_aggregators {G} `{Generator G}
  (self self1 : PovertyPointSimulation G) (state : YearlyState.t) :
  NoDup (map band_id (bands self)) ->
  step self = Ok (self1, state) ->
  attending_bands (aggregation_site self1)
  = map band_id (filter is_aggregator (bands self1))
  /\ YearlyState.aggregation_size state = YearlyState.n_aggregators state
  /\ NoDup (map band_id (bands self1)).
Proof.
  intros Hn. unfold step. intros E.
  apply bind_Ok in E as [s1 [E1 E]].
  apply bind_Ok in E as [s5 [E5 E]].
  apply bind_Ok in E as [s6 [E6 E]].
  unfold _record_state in E. injection E as <- <-.
  cbn [aggregation_site bands set_year set_results
       YearlyState.aggregation_size YearlyState.n_aggregators].
  destruct (determine_shortfall_frame _ _ E1) as (B1 & _ & _).
  set (s2 := _run_dispersal_season s1) in *.
  set (s3 := _run_strategy_decisions s2) in *.
  set (s4 := _run_aggregation_season s3) in *.
  assert (H13 : Forall2 (fun b b1 => band_id b1 = band_id b)
                  (bands s1) (bands s3)).
  { eapply Forall2_compose;
      [| apply (dispersal_histories s1) | apply (decisions_histories s2)].
    unfold histories_kept, strategy_decided.
    intros a b c (A1 & _) (C1 & _). congruence. }
  assert (Hid3 : map band_id (bands s3) = map band_id (bands self)).
  { rewrite <- B1. clear -H13.
    induction H13 as [| b b1 l l1 Hb _ IH]; [reflexivity |].
    cbn. now rewrite Hb, IH. }
  assert (Htrans : forall a b c : Band,
             same_band a b -> same_band b c -> same_band a c).
  { intros a b c [A1 A2] [C1 C2]. split; congruence. }
  assert (H34 : Forall2 same_band (bands s3) (bands s4)).
  { eapply Forall2_weaken; [| apply (aggregation_histories s3)].
    unfold attendance_noted, same_band. intros a b (A1 & _ & A3 & _).
    now split. }
  assert (H45 : Forall2 same_band (bands s4) (bands s5)).
  { eapply Forall2_weaken; [| apply (mortality_histories _ _ E5)].
    unfold histories_kept, same_band. intros a b (A1 & _ & A3 & _).
    now split. }
  assert (H56 : Forall2 same_band (bands s5) (bands s6)).
  { eapply Forall2_weaken; [| apply (reproduction_histories _ _ E6)].
    unfold fitness_noted, same_band. intros a b (A1 & _ & A3 & _).
    now split. }
  assert (H36 : Forall2 same_band (bands s3) (bands s6)).
  { eapply (Forall2_compose same_band same_band same_band Htrans);
      [| exact H56].
    eapply (Forall2_compose same_band same_band same_band Htrans);
      [exact H34 | exact H45]. }
  destruct (same_band_lists _ _ H36) as [Hid6 Hagg6].
  destruct (apply_shortfall_mortality_frame _ _ E5) as (S5 & _).
  destruct (apply_reproduction_frame _ _ E6) as (S6 & _).
  assert (Hatt : attending_bands (aggregation_site s6)
                 = map band_id (filter is_aggregator (bands s6))).
  { rewrite S6, S5, Hagg6. apply run_aggregation_season_attending.
    now rewrite Hid3. }
  split; [exact Hatt |]. split.
  - unfold n_attending. rewrite Hatt, length_map. reflexivity.
  - now rewrite Hid6, Hid3.
Qed.

Lemma snapshot_attendance_counts_aggregators_witness :
  exists self1 state,
    step (sample_simulation []) = Ok (self1, state)
    /\ attending_bands (aggregation_site self1)
       = map band_id (filter is_aggregator (bands self1))
    /\ YearlyState.aggregation_size state = YearlyState.n_aggregators state
    /\ NoDup (map band_id (bands self1)).
Proof.
  destruct sample_step as (self1 & state & E & _).
  exists self1, state. split; [exact E |].
  apply (snapshot_attendance_counts_aggregators (sample_simulation []) self1
           state); [| exact E].
  cbn. repeat constructor. intros [].
Defined.

(* ================================================================== *)
(** * Strategy decisions *)







(* ================================================================== *)
(** * Further properties of the environment *)

Lemma fold_left_invariant {A B} (P : A -> Prop) (f : A -> B -> A) :
  (forall a b, P a -> P (f a b)) ->
  forall l a, P a -> P (fold_left f l a).
Proof.
  intros Hf. induction l as [| b l IH]; intros a Ha; cbn; [exact Ha |].
  apply IH, Hf, Ha.
Qed.

Lemma covariance_inner_symmetric_unit config i patch_i cov jp :
  symmetric_unit cov ->
  symmetric_unit (environment.covariance_inner config i patch_i cov jp).
Proof.
  intros [Hs Hd]. unfold environment.covariance_inner.
  destruct jp as [j patch_j].
  destruct (j <=? i)%nat eqn:E; [split; assumption |].
  apply Nat.leb_gt in E. unfold environment.mset. split.
  - intros a b.
    destruct (a =? j)%nat eqn:Eaj, (b =? i)%nat eqn:Ebi,
             (a =? i)%nat eqn:Eai, (b =? j)%nat eqn:Ebj;
      cbn; try reflexivity; try apply Hs;
      repeat match goal with
             | Hx : (_ =? _)%nat = true |- _ => apply Nat.eqb_eq in Hx
             | Hx : (_ =? _)%nat = false |- _ => apply Nat.eqb_neq in Hx
             end; lia.
  - intros a.
    destruct (a =? j)%nat eqn:Eaj, (a =? i)%nat eqn:Eai; cbn;
      try apply Hd;
      repeat match goal with
             | Hx : (_ =? _)%nat = true |- _ => apply Nat.eqb_eq in Hx
             end; lia.
Qed.

Lemma eye_symmetric_unit : symmetric_unit environment.eye.
Proof.
  unfold environment.eye. split.
  - intros i j. rewrite (Nat.eqb_sym i j). reflexivity.
  - intros i. now rewrite Nat.eqb_refl.
Qed.

Lemma covariance_entries_symmetric_unit self :
  symmetric_unit (environment.covariance_entries self).
Proof.
  unfold environment.covariance_entries.
  apply fold_left_invariant; [| exact eye_symmetric_unit].
  intros cov ip Hc. apply fold_left_invariant; [| exact Hc].
  intros cov1 jp. apply covariance_inner_symmetric_unit.
Qed.

(** X21: the matrix [_build_covariance_matrix] returns is symmetric with a
    constant diagonal of at least 1, and off the diagonal it holds what the
    two loops wrote: the correction for a negative eigenvalue is added to the
    diagonal only. *)
Theorem covariance_matrix_symmetric (eigvalsh : nat -> environment.matrix -> list R)
  (self : environment.Environment) (M : environment.matrix) :
  environment._build_covariance_matrix eigvalsh self = Ok M ->
  (forall i j, M i j = M j i)
  /\ (forall i j, M i i = M j j)
  /\ (forall i, 1 <= M i i)
  /\ (forall i j, i <> j -> M i j = environment.covariance_entries self i j).
Proof.
  destruct (covariance_entries_symmetric_unit self) as [Hs Hd].
  unfold environment._build_covariance_matrix. intros E.
  apply bind_Ok in E as [m [_ E]].
  destruct (Rlt_dec m 0).
  - injection E as <-.
    unfold environment.madd, environment.mscale, environment.eye.
    pose proof (Rabs_pos m) as Hm.
    repeat split.
    + intros i j. rewrite (Hs i j), (Nat.eqb_sym i j). reflexivity.
    + intros i j. now rewrite !Hd, !Nat.eqb_refl.
    + intros i. rewrite Hd, Nat.eqb_refl. lra.
    + intros i j Hij. apply Nat.eqb_neq in Hij. rewrite Hij. lra.
  - injection E as <-. repeat split.
    + exact Hs.
    + intros i j. now rewrite !Hd.
    + intros i. rewrite Hd. lra.
Qed.

Lemma sample_covariance_matrix :
  environment._build_covariance_matrix sample_eigvalsh sample_environment
  = Ok (environment.madd (environment.covariance_entries sample_environment)
          (environment.mscale environment.eye (Rabs (-1) + 0.01))).
Proof.
  unfold environment._build_covariance_matrix, sample_eigvalsh,
    environment.array_min.
  cbn [fold_left bind].
  replace (Rmin (-1) 3) with (-1)
    by (unfold Rmin; destruct (Rle_dec (-1) 3); lra).
  destruct (Rlt_dec (-1) 0); [reflexivity | exfalso; lra].
Qed.

Lemma covariance_matrix_symmetric_witness :
  exists M,
    environment._build_covariance_matrix sample_eigvalsh sample_environment
    = Ok M
    /\ (forall i j, M i j = M j i)
    /\ (forall i j, M i i = M j j)
    /\ (forall i, 1 <= M i i)
    /\ (forall i j, i <> j ->
          M i j = environment.covariance_entries sample_environment i j).
Proof.
  eexists. split; [exact sample_covariance_matrix |].
  exact (covariance_matrix_symmetric sample_eigvalsh sample_environment _
           sample_covariance_matrix).
Defined.

Lemma Rsum_nonneg (l : list R) : Forall (fun x => 0 <= x) l -> 0 <= Rsum l.
Proof.
  unfold Rsum. induction 1 as [| x l Hx Hl IH]; cbn; [lra | lra].
Qed.

Lemma mean_nonneg (l : list R) :
  l <> [] -> Forall (fun x => 0 <= x) l -> 0 <= mean l.
Proof.
  intros Hne Hl. unfold mean.
  apply Rmult_le_pos; [now apply Rsum_nonneg |].
  apply Rlt_le, Rinv_0_lt_compat, lt_0_INR.
  destruct l; [congruence | cbn; lia].
Qed.

Lemma get_seasonal_productivity_nonneg p m :
  0 <= fst (environment.get_seasonal_productivity p m).
Proof. unfold environment.get_seasonal_productivity. cbn. apply Rmax_l. Qed.

(** Storing the productivity in the patch does not change what the patch
    answers. *)
Lemma get_seasonal_productivity_stored p m m' :
  let p1 := snd (environment.get_seasonal_productivity p m) in
  environment.zone_type p1 = environment.zone_type p
  /\ fst (environment.get_seasonal_productivity p1 m')
     = fst (environment.get_seasonal_productivity p m').
Proof. split; reflexivity. Qed.

(** X22: [get_zone_productivity] is never negative and is [0.0], with the
    environment untouched, for a zone without patches; the productivities it
    stores in the patches feed back into no answer: after a query of one
    zone, a query of any zone returns what it would have returned before. *)
Theorem get_zone_productivity_repeatable (env : environment.Environment)
  (zone zone' : environment.ResourceZone) :
  0 <= fst (environment.get_zone_productivity env zone)
  /\ (filter (fun p => environment.ResourceZone_eqb
                         (environment.zone_type p) zone)
        (environment.patches env) = [] ->
      environment.get_zone_productivity env zone = (0, env))
  /\ fst (environment.get_zone_productivity
            (snd (environment.get_zone_productivity env zone)) zone')
     = fst (environment.get_zone_productivity env zone').
Proof.
  split; [| split].
  - unfold environment.get_zone_productivity.
    destruct (filter _ _) as [| p ps] eqn:E; [cbn; lra |].
    cbn [fst]. apply mean_nonneg; [discriminate |].
    apply Forall_map, Forall_forall. intros q _.
    apply get_seasonal_productivity_nonneg.
  - intros E. unfold environment.get_zone_productivity. now rewrite E.
  - unfold environment.get_zone_productivity at 2.
    destruct (filter _ (environment.patches env)) as [| p ps] eqn:E;
      [reflexivity |].
    cbn [snd]. clear E p ps.
    unfold environment.get_zone_productivity.
    cbn [environment.patches environment.set_patches environment.month].
    set (upd := fun p : environment.EcologicalPatch =>
                  if environment.ResourceZone_eqb (environment.zone_type p) zone
                  then snd (environment.get_seasonal_productivity p
                              (environment.month env))
                  else p).
    set (inz := fun p : environment.EcologicalPatch =>
                  environment.ResourceZone_eqb (environment.zone_type p) zone').
    assert (Hz : forall p, inz (upd p) = inz p).
    { intros p. unfold inz, upd. now destruct (environment.ResourceZone_eqb _ zone). }
    assert (Hf : forall l, filter inz (map upd l) = map upd (filter inz l)).
    { induction l as [| q l IH]; [reflexivity |]. cbn. rewrite Hz.
      destruct (inz q); cbn; now rewrite IH. }
    assert (Hg : forall p m,
               fst (environment.get_seasonal_productivity (upd p) m)
               = fst (environment.get_seasonal_productivity p m)).
    { intros p m. unfold upd.
      now destruct (environment.ResourceZone_eqb _ zone). }
    rewrite Hf.
    destruct (filter inz (environment.patches env)) as [| q qs];
      [reflexivity |].
    cbn [map fst]. unfold mean. cbn [map length]. rewrite Hg.
    rewrite !length_map. f_equal. unfold Rsum. cbn [fold_right]. f_equal.
    rewrite map_map. f_equal. apply map_ext. intros a. apply Hg.
Qed.

Lemma get_zone_productivity_repeatable_witness :
  environment.get_zone_productivity sample_environment environment.MAST
  = (0, sample_environment).
Proof.
  apply (proj1 (proj2 (get_zone_productivity_repeatable sample_environment
                         environment.MAST environment.MAST))).
  reflexivity.
Defined.

Lemma zone_loop_nonneg zones :
  forall env mean_prod n_zones,
    0 <= mean_prod -> (0 <= n_zones)%Z ->
    0 <= snd (fst (fold_left integrated_simulation.zone_loop_body zones
                     (env, mean_prod, n_zones)))
    /\ (0 <= snd (fold_left integrated_simulation.zone_loop_body zones
                    (env, mean_prod, n_zones)))%Z.
Proof.
  induction zones as [| zone zones IH]; intros env m n Hm Hn; cbn [fold_left].
  - cbn. split; assumption.
  - unfold integrated_simulation.zone_loop_body at 2 4.
    destruct (environment.get_zone_productivity env zone) as [zp env1].
    destruct (Rgt_dec zp 0); apply IH; try assumption; try lra; lia.
Qed.

(** X23: a call of [_evaluate_shortfall] that returns appends one
    non-negative productivity to [annual_productivities] and never leaves a
    negative count of remaining years.  In a continuing shortfall it reports
    the stored severity, counts one year down and draws no random number;
    otherwise a reported shortfall has a severity in [[0.1, 0.9]], and with
    no shortfall the severity is [0.0] and no year remains. *)
Theorem evaluate_shortfall_bookkeeping {G} `{Generator G}
  (self self1 : integrated_simulation.IntegratedSimulation G)
  (flag : bool) (severity : R) :
  (0 <= integrated_simulation.shortfall_remaining self)%Z ->
  integrated_simulation._evaluate_shortfall self = Ok (flag, severity, self1) ->
  (0 <= integrated_simulation.shortfall_remaining self1)%Z
  /\ (exists prod,
        integrated_simulation.annual_productivities self1
        = integrated_simulation.annual_productivities self ++ [prod]
        /\ 0 <= prod)
  /\ integrated_simulation.shortfall_params self1
     = integrated_simulation.shortfall_params self
  /\ integrated_simulation.shortfall_severity self1
     = integrated_simulation.shortfall_severity self
  /\ if (0 <? integrated_simulation.shortfall_remaining self)%Z
     then flag = true
          /\ severity = integrated_simulation.shortfall_severity self
          /\ integrated_simulation.rng self1 = integrated_simulation.rng self
          /\ integrated_simulation.shortfall_remaining self1
             = (integrated_simulation.shortfall_remaining self - 1)%Z
     else if flag then 0.1 <= severity <= 0.9
          else severity = 0
               /\ integrated_simulation.shortfall_remaining self1 = 0%Z.
Proof.
  intros Hrem. unfold integrated_simulation._evaluate_shortfall.
  pose proof (zone_loop_nonneg environment.all_zones
                (integrated_simulation.environment self) 0 0%Z
                (Rle_refl 0) (Z.le_refl 0)) as Hz.
  destruct (fold_left _ _ _) as [[env1 m] n]. cbn in Hz. destruct Hz as [Hm Hn].
  set (prod := if (0 <? n)%Z then m / IZR n else m).
  assert (Hprod : 0 <= prod).
  { unfold prod. destruct (0 <? n)%Z eqn:E; [| exact Hm].
    apply Z.ltb_lt in E. apply Rmult_le_pos; [exact Hm |].
    apply Rlt_le, Rinv_0_lt_compat, IZR_lt. exact E. }
  clearbody prod.
  destruct (0 <? integrated_simulation.shortfall_remaining self)%Z eqn:E0.
  - apply Z.ltb_lt in E0. intros E. injection E as <- <- <-. cbn.
    repeat split; try lia. exists prod. now split.
  - apply Z.ltb_ge in E0. intros E.
    apply bind_Ok in E as [p [_ E]].
    destruct (random (integrated_simulation.rng self)) as [u g1].
    destruct (Rlt_dec u p).
    + apply bind_Ok in E as [[noise g2] [_ E]].
      injection E as <- <- <-. cbn.
      repeat split; try lia; try (apply clip_range; lra).
      exists prod. now split.
    + injection E as <- <- <-. cbn.
      repeat split; try lia. exists prod. now split.
Qed.

Lemma evaluate_shortfall_bookkeeping_witness :
  exists self1 : integrated_simulation.IntegratedSimulation (list outcome),
    integrated_simulation._evaluate_shortfall
      (sample_integrated [Float 0; Float 0])
    = Ok (true, 0.5 + (0 + 0.15 * 0), self1)
    /\ (0 <= integrated_simulation.shortfall_remaining self1)%Z
    /\ 0.1 <= 0.5 + (0 + 0.15 * 0) <= 0.9.
Proof.
  destruct (evaluate_shortfall_sample 0 ltac:(lra)) as [self1 E].
  exists self1. split; [exact E |].
  destruct (@evaluate_shortfall_bookkeeping _ replay
              (sample_integrated [Float 0; Float 0]) self1 true
              (0.5 + (0 + 0.15 * 0))) as (A & _ & _ & _ & B).
  - cbn. lia.
  - exact E.
  - split; [exact A | exact B].
Defined.
